(** * A shallow embedding of the sparse-query reference engine (src/main.cpp)

    The development follows the source top down: the helper [split_at],
    the [FieldType] and [Field] hierarchy, [DenseTable] with its [print],
    and [ReferenceQueryEngine] with [loadTablesFromCSV] and [exe].

    Conventions of the embedding.
    - [int] is a [Z] in the signed 32-bit range; the one place where the
      source does arithmetic on it ([+= trades.size()]) has the
      conversions written out.
    - [float] is an IEEE value ([spec_float]); the comparisons against
      the [double] literals [299.0] and [10.0] go through the promotion
      to binary64.
    - [std::map] is a list of bindings in strictly increasing key order,
      so that iteration, [lower_bound] and [insert] read as in the source.
    - A failed [assert] (the program is built with assertions on), an
      uncaught exception and undefined behaviour all end the run; they
      are the constructors of [Failure].
    - [std::stof] and the stream insertion of a [float] belong to the
      C++ runtime, not to the repository: they are the two fields of
      the class [Platform]. *)

From Stdlib Require Import List String Ascii ZArith Lia Bool.
From Stdlib Require Import Sorting.Sorted Structures.OrderedTypeEx.
From Stdlib Require Import Floats.SpecFloat.
Import ListNotations.

Local Open Scope string_scope.
Local Open Scope Z_scope.

(** ** Keys of a [std::map] *)

(** The comparison object of a [std::map]: [std::less] on the key type. *)
Class OrderedKey (K : Type) := cmp : K -> K -> comparison.

(** [int] keys compare as integers. *)
#[export] Instance int_key : OrderedKey Z := Z.compare.

(** [std::string] keys compare lexicographically, byte by byte, each byte
    as an unsigned value. *)
#[export] Instance string_key : OrderedKey string := String.compare.

(** ** [std::map] *)

Module StdMap.
Section Ops.
Context {K V : Type} `{OrderedKey K}.

(** [m.find(k)]: [None] stands for [m.end()]. *)
Fixpoint find (k : K) (m : list (K * V)) : option V :=
  match m with
  | [] => None
  | (k', v) :: m' =>
      match cmp k k' with
      | Eq => Some v
      | _ => find k m'
      end
  end.

(** [m.insert({k, v})]: an element whose key is already present is left
    as it is. *)
Fixpoint insert (k : K) (v : V) (m : list (K * V)) : list (K * V) :=
  match m with
  | [] => [(k, v)]
  | (k', v') :: m' =>
      match cmp k k' with
      | Lt => (k, v) :: m
      | Eq => m
      | Gt => (k', v') :: insert k v m'
      end
  end.

(** Writing through the iterator returned by [find]:
    [search->second] becomes [f (search->second)]. *)
Fixpoint modify (k : K) (f : V -> V) (m : list (K * V)) : list (K * V) :=
  match m with
  | [] => []
  | (k', v) :: m' =>
      match cmp k k' with
      | Eq => (k', f v) :: m'
      | _ => (k', v) :: modify k f m'
      end
  end.

(** [m.lower_bound(k)]: the iterator to the first element whose key is
    not less than [k], as the remaining bindings from there on. *)
Fixpoint lower_bound (k : K) (m : list (K * V)) : list (K * V) :=
  match m with
  | [] => []
  | (k', v) :: m' =>
      match cmp k' k with
      | Lt => lower_bound k m'
      | _ => m
      end
  end.

Definition key_lt (a b : K * V) : Prop := cmp (fst a) (fst b) = Lt.

(** The representation invariant: keys strictly increase. *)
Definition ordered (m : list (K * V)) : Prop := StronglySorted key_lt m.

End Ops.
End StdMap.

(** ** Table names and field types *)

(** [enum TableName]; [cur_table_flag] is an [int] holding one of them. *)
Definition TRADABLE : Z := 0.
Definition PRICE_OVER_TIME : Z := 1.
Definition VOLUME_OVER_TIME : Z := 2.
Definition TRADES : Z := 3.

Inductive FieldType := FIELD_TYPE_INT | FIELD_TYPE_FLOAT | FIELD_TYPE_STRING.

(** [operator<<(ostream&, const FieldType&)] *)
Definition show_FieldType (tp : FieldType) : string :=
  match tp with
  | FIELD_TYPE_STRING => "STRING"
  | FIELD_TYPE_INT => "INT"
  | FIELD_TYPE_FLOAT => "FLOAT"
  end.

(** ** Machine numbers *)

Definition int := Z.
Definition float := spec_float.

Definition INT_MIN : Z := - 2 ^ 31.
Definition INT_MAX : Z := 2 ^ 31 - 1.

Definition in_int_range (z : Z) : bool := (INT_MIN <=? z) && (z <=? INT_MAX).

(** Conversion of an [int] to [size_t] (64 bits, unsigned). *)
Definition size_t_of_int (z : Z) : Z := z mod 2 ^ 64.

(** Conversion of a [size_t] to [int]: the low 32 bits, read as signed. *)
Definition int_of_size_t (z : Z) : Z := (z + 2 ^ 31) mod 2 ^ 32 - 2 ^ 31.

(** [cnt += v.size()] for [int cnt]: the sum is formed in [size_t] and
    converted back. *)
Definition add_size (cnt : int) (size : nat) : int :=
  int_of_size_t ((size_t_of_int cnt + Z.of_nat size) mod 2 ^ 64).

(** The promotion of a [float] to [double]: the same real number in the
    binary64 format. *)
Definition double_of_float (x : float) : spec_float :=
  match x with
  | S754_finite s m e =>
      binary_normalize 53 1024 (if s then Z.neg m else Z.pos m) e s
  | _ => x
  end.

(** The [double] literals [299.0] and [10.0]. *)
Definition lit_299 : spec_float := binary_normalize 53 1024 299 0 false.
Definition lit_10 : spec_float := binary_normalize 53 1024 10 0 false.

(** [x > 299.0] and [x < 10.0] for a [float x]. *)
Definition gt_299 (x : float) : bool := SFltb lit_299 (double_of_float x).
Definition lt_10 (x : float) : bool := SFltb (double_of_float x) lit_10.

(** The [float] values [299.0f] and [10.0f]. *)
Definition float_299 : float := binary_normalize 24 128 299 0 false.
Definition float_10 : float := binary_normalize 24 128 10 0 false.

(** ** Ways for the run to end without a result *)

(** The exceptions thrown by [stoi], [stof] and [vector::at]. *)
Inductive Exception := invalid_argument | out_of_range.

Inductive Failure :=
| EmptyLine            (* assert(l.size() > 0) *)
| TruncatedHeader      (* assert(i < (int) (lines.size()) - 2) *)
| NoColumns            (* assert(columnNames.size() >= 1) *)
| HeaderArityMismatch  (* assert(columnNames.size() == columnTypeNames.size()) *)
| UnknownColumnType    (* "Error: Unrecognized column type", assert(false) *)
| MissingTableName     (* l.at(1) throws, caught nowhere *)
| NoActiveTable        (* assert(tables.size() > 0) *)
| ArityMismatch        (* assert(numCols == l.size()) *)
| ColumnOutOfRange     (* assert(columnNum < columnTypes.size()) *)
| Uncaught (ex : Exception)  (* thrown by stoi or stof, caught nowhere *)
| UndefinedBehaviour.  (* record[c] past the end, static_cast to another class *)

Inductive result (A : Type) :=
| Ok (a : A)
| Err (f : Failure).

Arguments Ok {A} a.
Arguments Err {A} f.

Definition result_bind {A B} (r : result A) (k : A -> result B) : result B :=
  match r with
  | Ok a => k a
  | Err f => Err f
  end.

(** A call that may throw, in a program without a handler. *)
Definition throwing {A} (r : Exception + A) : result A :=
  match r with
  | inl ex => Err (Uncaught ex)
  | inr a => Ok a
  end.

Declare Scope result_scope.
Delimit Scope result_scope with result.
Notation "x <- r ;; k" := (result_bind r (fun x => k))
  (at level 61, r at next level, right associativity) : result_scope.

(** ** Text helpers *)

(** The character written by [endl], and the one-character strings the
    driver splits at. *)
Definition newline : ascii := ascii_of_nat 10.
Definition endl : string := String newline "".
Definition comma : string := ",".

(** [split_at]: [token] is the text of the current token read so far and
    [skip] the number of characters of a found delimiter still to erase.
    The source is called with the delimiters [endl] and [","]; with an empty
    delimiter its loop does not end, and the embedding is not used there. *)
Fixpoint split_from (delimiter : string) (skip : nat) (token s : string)
  : list string :=
  match s with
  | EmptyString => [token]
  | String c s' =>
      match skip with
      | S n => split_from delimiter n token s'
      | O =>
          if String.prefix delimiter s
          then token :: split_from delimiter (Nat.pred (String.length delimiter)) "" s'
          else split_from delimiter 0 (token ++ String c "") s'
      end
  end.

Definition split_at (t delimiter : string) : list string :=
  split_from delimiter 0 "" t.

(** [isspace] in the C locale. *)
Definition isspace (c : ascii) : bool :=
  let n := nat_of_ascii c in
  (Nat.eqb n 32 || (Nat.leb 9 n && Nat.leb n 13))%bool.

Definition digit_of (c : ascii) : option Z :=
  let n := Z.of_nat (nat_of_ascii c) in
  if (48 <=? n) && (n <=? 57) then Some (n - 48) else None.

Fixpoint skip_space (s : string) : string :=
  match s with
  | String c s' => if isspace c then skip_space s' else s
  | EmptyString => s
  end.

(** The value of the longest prefix of decimal digits of [s], continuing
    from [acc]; [None] when [s] starts with no digit and [seen] is false. *)
Fixpoint read_digits (s : string) (acc : Z) (seen : bool) : option Z :=
  match s with
  | String c s' =>
      match digit_of c with
      | Some d => read_digits s' (10 * acc + d) true
      | None => if seen then Some acc else None
      end
  | EmptyString => if seen then Some acc else None
  end.

(** [std::stoi(s)]: leading white space, an optional sign, decimal digits;
    what follows the digits is ignored. *)
Definition stoi (s : string) : Exception + int :=
  let s1 := skip_space s in
  let '(negative, s2) :=
    match s1 with
    | String "-" r => (true, r)
    | String "+" r => (false, r)
    | _ => (false, s1)
    end in
  match read_digits s2 0 false with
  | None => inl invalid_argument
  | Some n =>
      let v := if negative then - n else n in
      if in_int_range v then inr v else inl out_of_range
  end.

Definition digit_char (d : Z) : ascii := ascii_of_nat (Z.to_nat (48 + d)).

(** The decimal digits of [n >= 0] in front of [acc], most significant
    first. *)
Fixpoint show_digits (fuel : nat) (n : Z) (acc : string) : string :=
  let acc' := String (digit_char (n mod 10)) acc in
  match fuel with
  | O => acc'
  | S fuel' => if n <? 10 then acc' else show_digits fuel' (n / 10) acc'
  end.

(** [out << val] for an [int]. The fuel is the binary logarithm: a
    number has no more decimal digits than binary ones. *)
Definition show_int (z : int) : string :=
  if z <? 0
  then String "-" (show_digits (Z.to_nat (Z.log2 (- z))) (- z) "")
  else show_digits (Z.to_nat (Z.log2 z)) z "".

(** [s1 == s2] on [std::string]. *)
Definition string_eqb (s1 s2 : string) : bool := String.eqb s1 s2.

(** ** The C++ runtime the program is linked against *)

Class Platform := {
  (** [std::stof] *)
  stof : string -> Exception + float;
  (** [out << val] for a [float] *)
  show_float : float -> string
}.

(** ** Fields *)

Inductive Field :=
| IntField (val : int)
| FloatField (val : float)
| StringField (val : string).

Definition Field_type (f : Field) : FieldType :=
  match f with
  | IntField _ => FIELD_TYPE_INT
  | FloatField _ => FIELD_TYPE_FLOAT
  | StringField _ => FIELD_TYPE_STRING
  end.

(** [Field::equals]: the other field must be of the same class; [float]
    values compare with [==]. *)
Definition Field_equals (f other : Field) : bool :=
  match f, other with
  | IntField v, IntField w => v =? w
  | FloatField v, FloatField w => SFeqb w v
  | StringField v, StringField w => string_eqb w v
  | _, _ => false
  end.

Definition Field_cpy (f : Field) : Field := f.

(** [Field::print] *)
Definition Field_print `{Platform} (f : Field) : string :=
  match f with
  | IntField val => show_int val
  | FloatField val => show_float val
  | StringField val => val
  end.

(** ** DenseTable *)

Record DenseTable := {
  name : string;
  columnNames : list string;
  columnTypes : list FieldType;
  records : list (list Field)
}.

(** The constructor; its [assert] on the two sizes holds at both places
    where the source constructs a table. *)
Definition new_DenseTable (name_ : string) (columnNames_ : list string)
    (columnTypes_ : list FieldType) : DenseTable :=
  {| name := name_; columnNames := columnNames_;
     columnTypes := columnTypes_; records := [] |}.

Definition numColumns (t : DenseTable) : nat := List.length (columnNames t).

Definition getName (t : DenseTable) : string := name t.

Definition fieldType (t : DenseTable) (columnNum : nat) : result FieldType :=
  match nth_error (columnTypes t) columnNum with
  | Some tp => Ok tp
  | None => Err ColumnOutOfRange
  end.

Definition fieldName (t : DenseTable) (columnNum : nat) : result string :=
  match nth_error (columnNames t) columnNum with
  | Some n => Ok n
  | None => Err ColumnOutOfRange
  end.

Definition addRecord (t : DenseTable) (r : list Field) : DenseTable :=
  {| name := name t; columnNames := columnNames t;
     columnTypes := columnTypes t; records := (records t ++ [r])%list |}.

(** One header line of [print]: the loop over the column numbers [cols],
    a comma in front of every column but column 0. *)
Fixpoint print_columns (get : nat -> result string) (cols : list nat)
  : result string :=
  match cols with
  | [] => Ok ""
  | i :: cols' =>
      (x <- get i ;;
       rest <- print_columns get cols' ;;
       Ok ((if Nat.ltb 0 i then comma else "") ++ x ++ rest))%result
  end.

(** One data line of [print]; [i] counts the fields written so far. *)
Fixpoint print_row `{Platform} (i : nat) (row : list Field) : string :=
  match row with
  | [] => endl
  | field :: row' =>
      (if Nat.ltb 0 i then comma else "") ++ Field_print field
        ++ print_row (S i) row'
  end.

(** [DenseTable::print]: the text written to [out]. *)
Definition print `{Platform} (t : DenseTable) : result string :=
  (types <- print_columns
              (fun i => tp <- fieldType t i ;; Ok (show_FieldType tp))
              (seq 0 (numColumns t)) ;;
   names <- print_columns (fieldName t) (seq 0 (numColumns t)) ;;
   Ok ("<TABLE>," ++ getName t ++ endl
        ++ types ++ endl
        ++ names ++ endl
        ++ String.concat "" (map (print_row 0) (records t))))%result.

(** ** ReferenceQueryEngine *)

Definition Trade : Type := int * int * int.
Definition TableHeader : Type := string * list string * list FieldType.

Record ReferenceQueryEngine := {
  tables : list DenseTable;
  table_headers : list TableHeader;
  name_to_class : list (string * string);
  name_to_date_price : list (string * list (int * float));
  name_to_date_volume : list (string * list (int * float));
  name_to_trades : list (string * list Trade)
}.

(** A freshly constructed engine. *)
Definition new_engine : ReferenceQueryEngine :=
  {| tables := []; table_headers := []; name_to_class := [];
     name_to_date_price := []; name_to_date_volume := [];
     name_to_trades := [] |}.

Definition set_tables (f : list DenseTable -> list DenseTable)
    (e : ReferenceQueryEngine) : ReferenceQueryEngine :=
  {| tables := f (tables e); table_headers := table_headers e;
     name_to_class := name_to_class e;
     name_to_date_price := name_to_date_price e;
     name_to_date_volume := name_to_date_volume e;
     name_to_trades := name_to_trades e |}.

Definition set_table_headers (f : list TableHeader -> list TableHeader)
    (e : ReferenceQueryEngine) : ReferenceQueryEngine :=
  {| tables := tables e; table_headers := f (table_headers e);
     name_to_class := name_to_class e;
     name_to_date_price := name_to_date_price e;
     name_to_date_volume := name_to_date_volume e;
     name_to_trades := name_to_trades e |}.

Definition set_name_to_class (f : list (string * string) -> list (string * string))
    (e : ReferenceQueryEngine) : ReferenceQueryEngine :=
  {| tables := tables e; table_headers := table_headers e;
     name_to_class := f (name_to_class e);
     name_to_date_price := name_to_date_price e;
     name_to_date_volume := name_to_date_volume e;
     name_to_trades := name_to_trades e |}.

Definition set_name_to_date_price
    (f : list (string * list (int * float)) -> list (string * list (int * float)))
    (e : ReferenceQueryEngine) : ReferenceQueryEngine :=
  {| tables := tables e; table_headers := table_headers e;
     name_to_class := name_to_class e;
     name_to_date_price := f (name_to_date_price e);
     name_to_date_volume := name_to_date_volume e;
     name_to_trades := name_to_trades e |}.

Definition set_name_to_date_volume
    (f : list (string * list (int * float)) -> list (string * list (int * float)))
    (e : ReferenceQueryEngine) : ReferenceQueryEngine :=
  {| tables := tables e; table_headers := table_headers e;
     name_to_class := name_to_class e;
     name_to_date_price := name_to_date_price e;
     name_to_date_volume := f (name_to_date_volume e);
     name_to_trades := name_to_trades e |}.

Definition set_name_to_trades
    (f : list (string * list Trade) -> list (string * list Trade))
    (e : ReferenceQueryEngine) : ReferenceQueryEngine :=
  {| tables := tables e; table_headers := table_headers e;
     name_to_class := name_to_class e;
     name_to_date_price := name_to_date_price e;
     name_to_date_volume := name_to_date_volume e;
     name_to_trades := f (name_to_trades e) |}.

(** [v.back()] of a vector and a write through that reference. *)
Definition back {A} (v : list A) : option A := List.last (map Some v) None.

Fixpoint modify_back {A} (f : A -> A) (v : list A) : list A :=
  match v with
  | [] => []
  | [x] => [f x]
  | x :: v' => x :: modify_back f v'
  end.

(** *** loadTablesFromCSV *)

(** The loop over [columnTypeNames]; [None] is the [assert(false)]. *)
Fixpoint parse_column_types (columnTypeNames : list string)
  : option (list FieldType) :=
  match columnTypeNames with
  | [] => Some []
  | c :: cs =>
      let tp :=
        if string_eqb c "STRING" then Some FIELD_TYPE_STRING
        else if string_eqb c "INT" then Some FIELD_TYPE_INT
        else if string_eqb c "FLOAT" then Some FIELD_TYPE_FLOAT
        else None in
      match tp with
      | None => None
      | Some tp =>
          match parse_column_types cs with
          | Some tps => Some (tp :: tps)
          | None => None
          end
      end
  end.

(** The chain of comparisons on [cur_table]: the new value of
    [cur_table_flag], which stays as it is for any other name. *)
Definition table_flag (cur_table : string) (cur_table_flag : int) : int :=
  if string_eqb cur_table "tradable" then TRADABLE
  else if string_eqb cur_table "price-over-time" then PRICE_OVER_TIME
  else if string_eqb cur_table "volume-over-time" then VOLUME_OVER_TIME
  else if string_eqb cur_table "trades" then TRADES
  else cur_table_flag.

(** The branch of a [<TABLE>] line [l], followed by the lines
    [columnNames] and [columnTypeNames]. Returns the engine and the new
    value of [cur_table_flag]. *)
Definition load_header (e : ReferenceQueryEngine) (cur_table_flag : int)
    (l columnNames columnTypeNames : list string)
  : result (ReferenceQueryEngine * int) :=
  if Nat.ltb (List.length columnNames) 1 then Err NoColumns
  else if negb (Nat.eqb (List.length columnNames) (List.length columnTypeNames))
  then Err HeaderArityMismatch
  else
    match parse_column_types columnTypeNames with
    | None => Err UnknownColumnType
    | Some columnTypes_ =>
        match nth_error l 1 with
        | None => Err MissingTableName
        | Some cur_table =>
            let e1 := set_tables
                        (fun ts => (ts ++ [new_DenseTable cur_table columnNames columnTypes_])%list) e in
            let e2 := set_table_headers
                        (fun hs => (hs ++ [(cur_table, columnNames, columnTypes_)])%list) e1 in
            Ok (e2, table_flag cur_table cur_table_flag)
        end
    end.

(** The loop over the columns of a data line: [columnTypes_] are the
    types of the columns still to read, [l] the fields still to read. *)
Fixpoint parse_record `{Platform} (columnTypes_ : list FieldType) (l : list string)
  {struct l} : result (list Field) :=
  match l with
  | [] => Ok []
  | x :: l' =>
      match columnTypes_ with
      | [] => Err ColumnOutOfRange
      | tp :: tps =>
          (field <- match tp with
                    | FIELD_TYPE_STRING => Ok (StringField x)
                    | FIELD_TYPE_INT => (v <- throwing (stoi x) ;; Ok (IntField v))
                    | FIELD_TYPE_FLOAT => (v <- throwing (stof x) ;; Ok (FloatField v))
                    end ;;
           record <- parse_record tps l' ;;
           Ok (field :: record))%result
      end
  end.

(** [static_cast<StringField*>(record[c].get())->val] and its siblings. *)
Definition string_val (record : list Field) (c : nat) : result string :=
  match nth_error record c with
  | Some (StringField v) => Ok v
  | _ => Err UndefinedBehaviour
  end.

Definition int_val (record : list Field) (c : nat) : result int :=
  match nth_error record c with
  | Some (IntField v) => Ok v
  | _ => Err UndefinedBehaviour
  end.

Definition float_val (record : list Field) (c : nat) : result float :=
  match nth_error record c with
  | Some (FloatField v) => Ok v
  | _ => Err UndefinedBehaviour
  end.

(** The [find] / [insert] idiom of the price and the volume case. *)
Definition record_day (name_ : string) (day : int) (x : float)
    (m : list (string * list (int * float)))
  : list (string * list (int * float)) :=
  match StdMap.find name_ m with
  | Some _ => StdMap.modify name_ (StdMap.insert day x) m
  | None => StdMap.insert name_ [(day, x)] m
  end.

(** The [find] / [push_back] idiom of the trades case. *)
Definition record_trade (name_ : string) (t : Trade)
    (m : list (string * list Trade)) : list (string * list Trade) :=
  match StdMap.find name_ m with
  | Some _ => StdMap.modify name_ (fun v => (v ++ [t])%list) m
  | None => StdMap.insert name_ [t] m
  end.

(** The [switch (cur_table_flag)]. *)
Definition index_record (cur_table_flag : int) (record : list Field)
    (e : ReferenceQueryEngine) : result ReferenceQueryEngine :=
  (if cur_table_flag =? TRADABLE then
     name_ <- string_val record 0 ;;
     asset_class <- string_val record 1 ;;
     Ok (set_name_to_class (StdMap.insert name_ asset_class) e)
   else if cur_table_flag =? PRICE_OVER_TIME then
     name_ <- string_val record 1 ;;
     day <- int_val record 0 ;;
     price <- float_val record 2 ;;
     Ok (set_name_to_date_price (record_day name_ day price) e)
   else if cur_table_flag =? VOLUME_OVER_TIME then
     name_ <- string_val record 1 ;;
     day <- int_val record 0 ;;
     volume <- float_val record 2 ;;
     Ok (set_name_to_date_volume (record_day name_ day volume) e)
   else if cur_table_flag =? TRADES then
     name_ <- string_val record 2 ;;
     day <- int_val record 1 ;;
     id <- int_val record 0 ;;
     quant <- int_val record 3 ;;
     Ok (set_name_to_trades (record_trade name_ (id, day, quant)) e)
   else Ok e)%result.

(** The branch of a data line [l]. *)
Definition load_row `{Platform} (e : ReferenceQueryEngine) (cur_table_flag : int)
    (l : list string) : result ReferenceQueryEngine :=
  match back (tables e) with
  | None => Err NoActiveTable
  | Some currentTable =>
      let numCols := numColumns currentTable in
      if negb (Nat.eqb numCols (List.length l)) then Err ArityMismatch
      else
        (record <- parse_record (columnTypes currentTable) l ;;
         e' <- index_record cur_table_flag record e ;;
         Ok (set_tables (modify_back (fun t => addRecord t record)) e'))%result
  end.

(** How a load ends: with the engine filled (and the last value of
    [cur_table_flag]), or at a failure, [e] being the engine at that
    moment. *)
Inductive outcome :=
| Done (e : ReferenceQueryEngine) (cur_table_flag : int)
| Abort (f : Failure) (e : ReferenceQueryEngine).

(** The loop of [loadTablesFromCSV], over the lines from index [i] on. *)
Fixpoint load_loop `{Platform} (lines : list (list string))
    (cur_table_flag : int) (e : ReferenceQueryEngine) : outcome :=
  match lines with
  | [] => Done e cur_table_flag
  | l :: rest =>
      match l with
      | [] => Abort EmptyLine e
      | l0 :: _ =>
          if string_eqb l0 "<TABLE>" then
            match rest with
            | columnNames_ :: columnTypeNames :: rest' =>
                match load_header e cur_table_flag l columnNames_ columnTypeNames with
                | Ok (e', flag) => load_loop rest' flag e'
                | Err f => Abort f e
                end
            | _ => Abort TruncatedHeader e
            end
          else
            match load_row e cur_table_flag l with
            | Ok e' => load_loop rest cur_table_flag e'
            | Err f => Abort f e
            end
      end
  end.

(** [loadTablesFromCSV]. The local [cur_table_flag] is declared without
    an initial value; [garbage] is the value it happens to hold. *)
Definition loadTablesFromCSV `{Platform} (garbage : int)
    (e : ReferenceQueryEngine) (lines : list (list string)) : outcome :=
  load_loop lines garbage e.

(** The lines the driver hands to the engine for the text of a file. *)
Definition csvLines (str : string) : list (list string) :=
  map (fun l => split_at l comma) (removelast (split_at str endl)).

(** *** exe *)

(** [exe] is a member function that is not [const]: it is run on the
    engine and hands the engine on. [member] is the read of a data
    member, the only access [exe] makes. *)
Definition Query (A : Type) : Type :=
  ReferenceQueryEngine -> A * ReferenceQueryEngine.

Definition qret {A} (a : A) : Query A := fun e => (a, e).

Definition qbind {A B} (q : Query A) (k : A -> Query B) : Query B :=
  fun e => let (a, e') := q e in k a e'.

Definition member {A} (f : ReferenceQueryEngine -> A) : Query A :=
  fun e => (f e, e).

Declare Scope query_scope.
Delimit Scope query_scope with query.
Notation "x <- q ;; k" := (qbind q (fun x => k))
  (at level 61, q at next level, right associativity) : query_scope.

(** The locals of [exe] that live across the iterations of its loop. *)
Record Locals := {
  valid_stock_cnt : int;
  valid_bond_cnt : int;
  valid_flag : bool
}.

Definition set_valid_flag (b : bool) (loc : Locals) : Locals :=
  {| valid_stock_cnt := valid_stock_cnt loc;
     valid_bond_cnt := valid_bond_cnt loc;
     valid_flag := b |}.

(** The loop over [date_to_price] from the iterator [ite2] on, entered
    with [valid_flag] set. *)
Fixpoint price_loop (ite2 : list (int * float)) (valid_flag_ : bool) : bool :=
  match ite2 with
  | [] => valid_flag_
  | (first, second) :: next =>
      if first <=? 268 then
        if gt_299 second then false else price_loop next valid_flag_
      else valid_flag_
  end.

(** The loop over [date_to_volume]. *)
Fixpoint volume_loop (ite2 : list (int * float)) (valid_flag_ : bool) : bool :=
  match ite2 with
  | [] => valid_flag_
  | (first, second) :: next =>
      if first <=? 268 then
        if lt_10 second then false else volume_loop next valid_flag_
      else valid_flag_
  end.

(** [if (ite->second == "stock") valid_stock_cnt += ...size();
     else valid_bond_cnt += ...size();] *)
Definition count_trades (asset_class : string) (trades : list Trade)
    (loc : Locals) : Locals :=
  if string_eqb asset_class "stock" then
    {| valid_stock_cnt := add_size (valid_stock_cnt loc) (List.length trades);
       valid_bond_cnt := valid_bond_cnt loc;
       valid_flag := valid_flag loc |}
  else
    {| valid_stock_cnt := valid_stock_cnt loc;
       valid_bond_cnt := add_size (valid_bond_cnt loc) (List.length trades);
       valid_flag := valid_flag loc |}.

(** One iteration of the loop over [name_to_class], at the element
    [ite]. *)
Definition exe_body (ite : string * string) (loc : Locals) : Query Locals :=
  let '(name_, asset_class) := ite in
  if negb (string_eqb asset_class "stock") && negb (string_eqb asset_class "bond")
  then qret loc
  else
    (trades_ite <- member (fun e => StdMap.find name_ (name_to_trades e)) ;;
     match trades_ite with
     | None => qret loc
     | Some trades =>
         search <- member (fun e => StdMap.find name_ (name_to_date_price e)) ;;
         let loc1 :=
           match search with
           | Some date_to_price =>
               set_valid_flag
                 (price_loop (StdMap.lower_bound 13 date_to_price) true) loc
           | None => loc
           end in
         if valid_flag loc1 then qret (count_trades asset_class trades loc1)
         else
           search <- member (fun e => StdMap.find name_ (name_to_date_volume e)) ;;
           let loc2 :=
             match search with
             | Some date_to_volume =>
                 set_valid_flag
                   (volume_loop (StdMap.lower_bound 13 date_to_volume) true) loc1
             | None => loc1
             end in
           if valid_flag loc2 then qret (count_trades asset_class trades loc2)
           else qret loc2
     end)%query.

Fixpoint for_each {A S} (body : A -> S -> Query S) (range : list A) (s : S)
  : Query S :=
  match range with
  | [] => qret s
  | x :: range' => (s' <- body x s ;; for_each body range' s')%query
  end.

(** The values of the locals at the start of [exe]. *)
Definition exe_init : Locals :=
  {| valid_stock_cnt := 0; valid_bond_cnt := 0; valid_flag := false |}.

(** The end of [exe]: the table built from the two counters. [record] is
    empty again after [addRecord] has moved from it. *)
Definition result_table (loc : Locals) : DenseTable :=
  let ret_table :=
    new_DenseTable "asset-class_counts" ["asset-class"; "count"]
      [FIELD_TYPE_STRING; FIELD_TYPE_INT] in
  let record : list Field := [] in
  let '(ret_table, record) :=
    if negb (valid_bond_cnt loc =? 0) then
      let record := (record ++ [StringField "bond"; IntField (valid_bond_cnt loc)])%list in
      (addRecord ret_table record, [])
    else (ret_table, record) in
  if negb (valid_stock_cnt loc =? 0) then
    let record := (record ++ [StringField "stock"; IntField (valid_stock_cnt loc)])%list in
    addRecord ret_table record
  else ret_table.

(** The loop of [exe] and [exe] itself. *)
Definition exe_loop : Query Locals :=
  (classes <- member name_to_class ;;
   for_each exe_body classes exe_init)%query.

Definition exe : Query DenseTable :=
  (loc <- exe_loop ;; qret (result_table loc))%query.

(** The timing loop of [main]: [runs] calls of [exe], the last table
    kept in [table]. *)
Fixpoint run_queries (runs : nat) (table : option DenseTable)
  : Query (option DenseTable) :=
  match runs with
  | O => qret table
  | S runs' => (t <- exe ;; run_queries runs' (Some t))%query
  end.

(** ** A platform to run the model on *)

(** The properties below hold for every [Platform]. To evaluate the
    model on concrete documents, [decimal_platform] reads decimal
    literals ([-12.5], [3e2]), rounded to the nearest binary32 value,
    and writes a [float] the way [printf] does for [%g]. It does not
    read hexadecimal literals, [inf] or [nan], which [std::stof] also
    accepts, and it raises [out_of_range] on overflow only. *)

(** Digits with an optional decimal point: the digits read as one
    integer [n], the number [k] of digits after the point, whether a
    digit was seen, and the rest of the text. *)
Fixpoint read_mantissa (s : string) (n k : Z) (point seen : bool)
  : Z * Z * bool * string :=
  match s with
  | String c s' =>
      match digit_of c with
      | Some d =>
          read_mantissa s' (10 * n + d) (if point then k + 1 else k) point true
      | None =>
          if Ascii.eqb c "." && negb point
          then read_mantissa s' n k true seen
          else (n, k, seen, s)
      end
  | EmptyString => (n, k, seen, s)
  end.

(** An exponent part [e-7], 0 when there is none. *)
Definition read_exponent (s : string) : Z :=
  match s with
  | String c r =>
      if Ascii.eqb c "e" || Ascii.eqb c "E" then
        let '(negative, r') :=
          match r with
          | String "-" r' => (true, r')
          | String "+" r' => (false, r')
          | _ => (false, r)
          end in
        match read_digits r' 0 false with
        | Some x => if negative then - x else x
        | None => 0
        end
      else 0
  | EmptyString => 0
  end.

(** The binary32 value nearest to [n * 10 ^ x], for [n > 0]. *)
Definition nearest_float (n x : Z) : float :=
  if 0 <=? x then binary_normalize 24 128 (n * 10 ^ x) 0 false
  else
    match n, 10 ^ (- x) with
    | Z.pos p, Z.pos q => SFdiv 24 128 (S754_finite false p 0) (S754_finite false q 0)
    | _, _ => S754_nan
    end.

Definition decimal_stof (s : string) : Exception + float :=
  let s1 := skip_space s in
  let '(negative, s2) :=
    match s1 with
    | String "-" r => (true, r)
    | String "+" r => (false, r)
    | _ => (false, s1)
    end in
  let '(n, k, seen, rest) := read_mantissa s2 0 0 false false in
  if negb seen then inl invalid_argument
  else if n =? 0 then inr (S754_zero negative)
  else
    match nearest_float n (read_exponent rest - k) with
    | S754_finite _ m e => inr (S754_finite negative m e)
    | _ => inl out_of_range
    end.

(** [num / den] rounded to the nearest integer, ties to even. *)
Definition round_half_even (num den : Z) : Z :=
  let q := num / den in
  match (2 * (num mod den)) ?= den with
  | Lt => q
  | Gt => q + 1
  | Eq => if Z.even q then q else q + 1
  end.

(** Whether [10 ^ x <= num / den]. *)
Definition pow10_le (x num den : Z) : bool :=
  if 0 <=? x then 10 ^ x * den <=? num else den <=? num * 10 ^ (- x).

(** The decimal exponent of [num / den > 0], among those a [float] has. *)
Definition decimal_exponent (num den : Z) : Z :=
  match List.find (fun x => pow10_le x num den)
                  (map (fun i => 40 - Z.of_nat i) (seq 0 91)) with
  | Some x => x
  | None => -50
  end.

(** [num / den * 10 ^ x] rounded to an integer. *)
Definition scaled_digits (num den x : Z) : Z :=
  if 0 <=? x then round_half_even (num * 10 ^ x) den
  else round_half_even num (den * 10 ^ (- x)).

Fixpoint strip_zeros (rev_digits : list ascii) : list ascii :=
  match rev_digits with
  | c :: r => if Ascii.eqb c "0" then strip_zeros r else rev_digits
  | [] => []
  end.

(** The fraction digits of [%g]: trailing zeros go, and the point with
    them when nothing is left. *)
Definition fraction (digits : list ascii) : string :=
  match rev (strip_zeros (rev digits)) with
  | [] => ""
  | ds => String "." (string_of_list_ascii ds)
  end.

Definition six_digits (d : Z) : list ascii :=
  list_ascii_of_string (show_digits 5 d "").

(** [%g] with the default precision 6 for [num / den > 0]. *)
Definition show_positive (num den : Z) : string :=
  let x0 := decimal_exponent num den in
  let d0 := scaled_digits num den (5 - x0) in
  let '(x, d) := if d0 =? 10 ^ 6 then (x0 + 1, 10 ^ 5) else (x0, d0) in
  let ds := six_digits d in
  if (x <? -4) || (6 <=? x) then
    string_of_list_ascii (firstn 1 ds) ++ fraction (skipn 1 ds)
      ++ "e" ++ (if x <? 0 then "-" else "+")
      ++ (if Z.abs x <? 10 then "0" else "") ++ show_int (Z.abs x)
  else if 0 <=? x then
    string_of_list_ascii (firstn (Z.to_nat (x + 1)) ds)
      ++ fraction (skipn (Z.to_nat (x + 1)) ds)
  else
    "0" ++ fraction (repeat "0"%char (Z.to_nat (- x - 1)) ++ ds)%list.

Definition decimal_show_float (x : float) : string :=
  match x with
  | S754_zero s => if s then "-0" else "0"
  | S754_infinity s => if s then "-inf" else "inf"
  | S754_nan => "nan"
  | S754_finite s m e =>
      (if s then "-" else "")
        ++ (if 0 <=? e then show_positive (Z.pos m * 2 ^ e) 1
            else show_positive (Z.pos m) (2 ^ (- e)))
  end.

Definition decimal_platform : Platform :=
  {| stof := decimal_stof; show_float := decimal_show_float |}.


(** ** Documents to run the model on *)

(** The engine the driver queries for the text [str] of a file, on
    [decimal_platform] with [cur_table_flag] starting at [garbage]. *)
Definition load_text (garbage : int) (str : string) : outcome :=
  @loadTablesFromCSV decimal_platform garbage new_engine (csvLines str).

Definition loaded (o : outcome) : ReferenceQueryEngine :=
  match o with
  | Done e _ => e
  | Abort _ e => e
  end.

(** Two stocks with one trade each; only [AAA] has a series. *)
Definition two_stocks_text : string :=
"<TABLE>,tradable
name,class
STRING,STRING
AAA,stock
BBB,stock
<TABLE>,price-over-time
day,name,price
INT,STRING,FLOAT
13,AAA,250.0
<TABLE>,trades
id,day,name,quantity
INT,INT,STRING,INT
1,13,AAA,5
2,13,BBB,7
".

(** The same document without [AAA]. *)
Definition lone_stock_text : string :=
"<TABLE>,tradable
name,class
STRING,STRING
BBB,stock
<TABLE>,trades
id,day,name,quantity
INT,INT,STRING,INT
2,13,BBB,7
".

(** Two price rows for the same instrument and day. *)
Definition repeated_day_text : string :=
"<TABLE>,price-over-time
day,name,price
INT,STRING,FLOAT
13,AAA,100.0
13,AAA,200.0
".

(** A stock whose price series fails on day 13 and whose volume series
    holds exactly 10.0 there. *)
Definition failing_price_text : string :=
"<TABLE>,tradable
name,class
STRING,STRING
AAA,stock
<TABLE>,price-over-time
day,name,price
INT,STRING,FLOAT
13,AAA,300.0
<TABLE>,volume-over-time
day,name,volume
INT,STRING,FLOAT
13,AAA,10.0
<TABLE>,trades
id,day,name,quantity
INT,INT,STRING,INT
1,13,AAA,5
".

(** A bond priced at exactly 299.0 inside the range and above it on the
    days 12 and 269; a stock without a price series whose volume is
    exactly 10.0 inside the range and below it on the days 12 and 269;
    an instrument of another class. *)
Definition boundary_text : string :=
"<TABLE>,tradable
name,class
STRING,STRING
AAA,bond
CCC,stock
DDD,fund
<TABLE>,price-over-time
day,name,price
INT,STRING,FLOAT
12,AAA,300.0
13,AAA,299.0
268,AAA,299.0
269,AAA,300.0
13,DDD,1.0
<TABLE>,volume-over-time
day,name,volume
INT,STRING,FLOAT
12,CCC,9.0
13,CCC,10.0
268,CCC,10.0
269,CCC,9.0
<TABLE>,trades
id,day,name,quantity
INT,INT,STRING,INT
1,13,AAA,5
2,14,AAA,6
3,13,CCC,7
4,13,DDD,8
".

(** The header of a price table, as lines. *)
Definition price_header : list (list string) :=
  [["<TABLE>"; "price-over-time"]; ["day"; "name"; "price"];
   ["INT"; "STRING"; "FLOAT"]].

(** The header of a trades table and its first row, as lines. *)
Definition trades_lines : list (list string) :=
  [["<TABLE>"; "trades"]; ["id"; "day"; "name"; "quantity"];
   ["INT"; "INT"; "STRING"; "INT"]; ["1"; "13"; "AAA"; "5"]].

(** ** Notions used to state the properties *)

(** The value a series map holds for an instrument and a day. *)
Definition series_at (m : list (string * list (int * float)))
    (name_ : string) (day : int) : option float :=
  match StdMap.find name_ m with
  | Some series => StdMap.find day series
  | None => None
  end.

(** The representation invariant of a map of series. *)
Definition series_ordered (m : list (string * list (int * float))) : Prop :=
  StdMap.ordered m /\ Forall (fun b => StdMap.ordered (snd b)) m.

(** The representation invariant of the four index maps. *)
Definition engine_ordered (e : ReferenceQueryEngine) : Prop :=
  StdMap.ordered (name_to_class e)
  /\ series_ordered (name_to_date_price e)
  /\ series_ordered (name_to_date_volume e)
  /\ StdMap.ordered (name_to_trades e).

(** The three type names the loader knows. *)
Definition known_type_name (c : string) : Prop :=
  c = "STRING" \/ c = "INT" \/ c = "FLOAT".

(** [type_header lines tys]: scanning [lines] the way the loop of
    [loadTablesFromCSV] steps through them (three lines for a [<TABLE>]
    line, one for any other), [tys] is met as the column-type line of a
    table. *)
Inductive type_header : list (list string) -> list string -> Prop :=
| type_header_here l0 l columnNames_ tys rest :
    string_eqb l0 "<TABLE>" = true ->
    type_header ((l0 :: l) :: columnNames_ :: tys :: rest) tys
| type_header_later l0 l columnNames_ tys' rest tys :
    string_eqb l0 "<TABLE>" = true ->
    type_header rest tys ->
    type_header ((l0 :: l) :: columnNames_ :: tys' :: rest) tys
| type_header_row l0 l rest tys :
    string_eqb l0 "<TABLE>" = false ->
    type_header rest tys ->
    type_header ((l0 :: l) :: rest) tys.

(** A line that the loop takes for a data row. *)
Definition data_line (l : list string) : Prop :=
  match l with
  | l0 :: _ => string_eqb l0 "<TABLE>" = false
  | [] => False
  end.

(** A step of the load keeps the price index ordered and keeps every
    price it holds. *)
Definition keeps_prices (e e' : ReferenceQueryEngine) : Prop :=
  series_ordered (name_to_date_price e') /\
  forall name_ day p,
    series_at (name_to_date_price e) name_ day = Some p ->
    series_at (name_to_date_price e') name_ day = Some p.

(** *** Printing a table and loading the text again *)

(** Whether the character [c] occurs in [s]. *)
Fixpoint occurs (c : ascii) (s : string) : bool :=
  match s with
  | EmptyString => false
  | String a s' => Ascii.eqb c a || occurs c s'
  end.

(** Text without a comma and without a line end. *)
Definition plain (s : string) : bool :=
  negb (occurs "," s) && negb (occurs newline s).

(** The text of a number: made of digits, and read back as the number
    behind whatever was read before. *)
Definition is_numeral (n : Z) (s : string) : Prop :=
  (exists ch d s', s = String ch s' /\ digit_of ch = Some d)
  /\ (forall ch, occurs ch s = true -> exists d, digit_of ch = Some d)
  /\ (forall a seen rest,
        read_digits (s ++ rest) a seen
        = read_digits rest (a * 10 ^ Z.of_nat (String.length s) + n) true).

(** A field whose text reads back as the field: an [int] in range, a
    [float] that [stof] reads back from what is written for it, a string
    that is one field of one line. *)
Definition reads_back `{Platform} (f : Field) : Prop :=
  match f with
  | IntField val => in_int_range val = true
  | FloatField val =>
      plain (show_float val) = true /\ stof (show_float val) = inr val
  | StringField val => plain val = true
  end.

(** A row of the table [t]: one field of the declared type per column,
    each reading back, the first not written as the table marker. *)
Definition row_prints `{Platform} (t : DenseTable) (row : list Field) : Prop :=
  map Field_type row = columnTypes t
  /\ Forall reads_back row
  /\ (forall f, hd_error row = Some f -> Field_print f <> "<TABLE>").

(** A table whose text has the lines and fields it was printed from. *)
Definition prints_faithfully `{Platform} (t : DenseTable) : Prop :=
  plain (name t) = true
  /\ Forall (fun c => plain c = true) (columnNames t)
  /\ (1 <= List.length (columnNames t))%nat
  /\ List.length (columnNames t) = List.length (columnTypes t)
  /\ Forall (row_prints t) (records t).

(** A record the [switch] on [cur_table_flag] can index: the fields it
    casts are there and of the class it casts them to. *)
Definition indexable (cur_table_flag : int) (record : list Field) : Prop :=
  exists e, index_record cur_table_flag record new_engine = Ok e.

(** The lines of a printed table with the type line and the name line
    exchanged, which puts them in the order of the input format. *)
Definition exchange_header_lines (lines : list (list string))
  : list (list string) :=
  match lines with
  | marker :: types :: names :: rows => marker :: names :: types :: rows
  | _ => lines
  end.

(** A table with one [INT] column and one row. *)
Definition one_int_table : DenseTable :=
  addRecord (new_DenseTable "t" ["a"] [FIELD_TYPE_INT]) [IntField 1].

(** A table with a column of each type. *)
Definition mixed_table : DenseTable :=
  addRecord
    (addRecord
       (new_DenseTable "prices" ["day"; "name"; "price"]
          [FIELD_TYPE_INT; FIELD_TYPE_STRING; FIELD_TYPE_FLOAT])
       [IntField 13; StringField "AAA"; FloatField (S754_finite false 10485760 (-22))])
    [IntField (-7); StringField ""; FloatField float_299].

(** A table whose column is named by its type. *)
Definition type_named_table : DenseTable :=
  addRecord (new_DenseTable "t" ["INT"] [FIELD_TYPE_INT]) [IntField 1].

(** A table with one [FLOAT] column, named by its type, holding the
    [float] nearest to 3.1415927. *)
Definition float_column_table : DenseTable :=
  addRecord (new_DenseTable "t" ["FLOAT"] [FIELD_TYPE_FLOAT])
    [FloatField (S754_finite false 13176795 (-22))].

(** ** The rest of the source *)

(** *** Look-up of a column by name *)

(** How the two look-ups by name end: with a value, at the
    [assert(false)] behind the loop, or in [columnTypes.at(i)]. *)
Inductive ColumnLookup (A : Type) :=
| Column (a : A)
| NoSuchColumn
| ColumnThrows (ex : Exception).

Arguments Column {A} a.
Arguments NoSuchColumn {A}.
Arguments ColumnThrows {A} ex.

(** The loop of [DenseTable::columnIndex] from column [i] on;
    [columnNames_] are the names from there on. *)
Fixpoint columnIndex_from (i : nat) (columnNames_ : list string)
    (name_ : string) : ColumnLookup nat :=
  match columnNames_ with
  | [] => NoSuchColumn
  | c :: cs =>
      if string_eqb c name_ then Column i
      else columnIndex_from (S i) cs name_
  end.

Definition columnIndex (t : DenseTable) (name_ : string) : ColumnLookup nat :=
  columnIndex_from 0 (columnNames t) name_.

(** The loop of [DenseTable::columnType(name)]. *)
Fixpoint columnType_from (t : DenseTable) (i : nat)
    (columnNames_ : list string) (name_ : string) : ColumnLookup FieldType :=
  match columnNames_ with
  | [] => NoSuchColumn
  | c :: cs =>
      if string_eqb c name_ then
        match nth_error (columnTypes t) i with
        | Some tp => Column tp
        | None => ColumnThrows out_of_range
        end
      else columnType_from t (S i) cs name_
  end.

Definition columnType (t : DenseTable) (name_ : string)
  : ColumnLookup FieldType :=
  columnType_from t 0 (columnNames t) name_.

(** *** The driver *)

(** How a run of [main] ends: with a usage error, at a failure of the
    load or of the final print, at the assertion that a table was
    returned, or after writing [out] to the standard output. *)
Inductive main_outcome :=
| Usage
| Failed (f : Failure)
| NullTable
| Printed (out : string).

(** [main], for the arguments [argv] and the text [str] that the file
    named by [argv[1]] holds. *)
Definition main `{Platform} (garbage : int) (argv : list string)
    (str : string) : main_outcome :=
  match argv with
  | [_; tableFile] =>
      let lines := removelast (split_at str endl) in
      let csv := map (fun l => split_at l comma) lines in
      let banner :=
        "Input table file " ++ tableFile ++ " has "
          ++ show_int (Z.of_nat (List.length lines)) ++ " lines" ++ endl in
      match loadTablesFromCSV garbage new_engine csv with
      | Abort f _ => Failed f
      | Done engine _ =>
          match fst (run_queries 5 None engine) with
          | None => NullTable
          | Some table =>
              match print table with
              | Err f => Failed f
              | Ok text => Printed (banner ++ "Result:" ++ endl ++ text ++ endl)
              end
          end
      end
  | _ => Usage
  end.

(** *** Notions for the further properties *)

(** [s] without its first [n] characters. *)
Fixpoint string_drop (n : nat) (s : string) : string :=
  match n, s with
  | S n', String _ s' => string_drop n' s'
  | _, _ => s
  end.

(** The schema invariant of a table: as many types as names, at least
    one column, and in every row one field of the declared type per
    column. *)
Definition well_typed (t : DenseTable) : Prop :=
  List.length (columnNames t) = List.length (columnTypes t)
  /\ (1 <= List.length (columnNames t))%nat
  /\ Forall (fun row => map Field_type row = columnTypes t) (records t).

(** The index of [e'] holds what the index of [e] holds: the same class
    for a name, the same price and volume for a name and a day, and the
    same trades for a name, with more behind them at most. *)
Definition index_extends (e e' : ReferenceQueryEngine) : Prop :=
  (forall name_ c,
      StdMap.find name_ (name_to_class e) = Some c ->
      StdMap.find name_ (name_to_class e') = Some c)
  /\ (forall name_ day p,
        series_at (name_to_date_price e) name_ day = Some p ->
        series_at (name_to_date_price e') name_ day = Some p)
  /\ (forall name_ day v,
        series_at (name_to_date_volume e) name_ day = Some v ->
        series_at (name_to_date_volume e') name_ day = Some v)
  /\ (forall name_ trades,
        StdMap.find name_ (name_to_trades e) = Some trades ->
        exists more,
          StdMap.find name_ (name_to_trades e') = Some (trades ++ more)%list).

(** A stock whose price series and volume series both fail on day 13,
    and a fund with a trade. *)
Definition failing_both_text : string :=
"<TABLE>,tradable
name,class
STRING,STRING
AAA,stock
DDD,fund
<TABLE>,price-over-time
day,name,price
INT,STRING,FLOAT
13,AAA,300.0
<TABLE>,volume-over-time
day,name,volume
INT,STRING,FLOAT
13,AAA,9.0
<TABLE>,trades
id,day,name,quantity
INT,INT,STRING,INT
1,13,AAA,5
4,13,DDD,8
".

(** A fund with a trade, and nothing else. *)
Definition fund_text : string :=
"<TABLE>,tradable
name,class
STRING,STRING
DDD,fund
<TABLE>,trades
id,day,name,quantity
INT,INT,STRING,INT
4,13,DDD,8
".

(** The header of a table of instruments, as lines. *)
Definition tradable_header : list (list string) :=
  [["<TABLE>"; "tradable"]; ["name"; "class"]; ["STRING"; "STRING"]].

(** The engine loaded from [two_stocks_text], written out. *)
Definition two_stocks_engine : ReferenceQueryEngine :=
  Eval vm_compute in loaded (load_text 0 two_stocks_text).
(** * Properties *)

(** ** The key orders are strict total orders *)

Class OrderedKeyLaws (K : Type) {O : OrderedKey K} := {
  cmp_eq : forall a b : K, cmp a b = Eq <-> a = b;
  cmp_antisym : forall a b : K, cmp b a = CompOpp (cmp a b);
  cmp_trans : forall a b c : K, cmp a b = Lt -> cmp b c = Lt -> cmp a c = Lt
}.

#[export] Instance int_key_laws : OrderedKeyLaws Z.
Proof.
  constructor; unfold cmp, int_key.
  - intros a b. apply Z.compare_eq_iff.
  - intros a b. apply Z.compare_antisym.
  - intros a b c. rewrite !Z.compare_lt_iff. lia.
Qed.

#[export] Instance string_key_laws : OrderedKeyLaws string.
Proof.
  constructor; unfold cmp, string_key.
  - intros a b. split.
    + apply String.compare_eq_iff.
    + intros ->. apply String_as_OT.cmp_eq. reflexivity.
  - intros a b. apply String.compare_antisym.
  - intros a b c Hab Hbc.
    apply String_as_OT.cmp_lt. apply String_as_OT.cmp_lt in Hab, Hbc.
    eapply String_as_OT.lt_trans; eassumption.
Qed.

Lemma cmp_refl {K} `{OrderedKeyLaws K} (a : K) : cmp a a = Eq.
Proof. apply cmp_eq. reflexivity. Qed.

Lemma cmp_gt_lt {K} `{OrderedKeyLaws K} (a b : K) : cmp a b = Gt <-> cmp b a = Lt.
Proof. rewrite (cmp_antisym a b). destruct (cmp a b); cbn; intuition congruence. Qed.

Lemma string_eqb_eq (a b : string) : string_eqb a b = true <-> a = b.
Proof. apply String.eqb_eq. Qed.

Lemma string_eqb_refl (a : string) : string_eqb a a = true.
Proof. apply String.eqb_refl. Qed.

Lemma string_eqb_neq (a b : string) : string_eqb a b = false <-> a <> b.
Proof. apply String.eqb_neq. Qed.

(** ** Facts about [std::map] *)

Module StdMapFacts.
Import StdMap.
Section Facts.
Context {K V : Type} `{OrderedKeyLaws K}.

Implicit Types (m : list (K * V)) (k : K) (v : V).

Lemma ordered_inv k v m :
  ordered ((k, v) :: m) ->
  ordered m /\ Forall (fun b => cmp k (fst b) = Lt) m.
Proof. intros Ho. inversion Ho; subst. split; assumption. Qed.

Lemma find_some_in k v m : find k m = Some v -> In (k, v) m.
Proof.
  induction m as [| [k' v'] m IH]; cbn; [discriminate |].
  destruct (cmp k k') eqn:E; intros Hf.
  - apply cmp_eq in E. subst k'. injection Hf as ->. now left.
  - right. auto.
  - right. auto.
Qed.

(** Below the first key of an ordered map there is nothing to find. *)
Lemma find_below k k' m :
  Forall (fun b => cmp k (fst b) = Lt) m -> cmp k' k <> Gt -> find k' m = None.
Proof.
  intros Hall Hle. destruct (find k' m) as [v |] eqn:Hf; [| reflexivity].
  apply find_some_in in Hf.
  rewrite Forall_forall in Hall. specialize (Hall _ Hf). cbn in Hall.
  exfalso. apply Hle. destruct (cmp k' k) eqn:E; [| | reflexivity].
  - apply cmp_eq in E. subst. rewrite cmp_refl in Hall. discriminate.
  - pose proof (cmp_trans _ _ _ E Hall) as Hkk. rewrite cmp_refl in Hkk.
    discriminate.
Qed.

Lemma find_head k v m : find k ((k, v) :: m) = Some v.
Proof. cbn. rewrite cmp_refl. reflexivity. Qed.

Lemma find_tail k k' v m : k <> k' -> find k ((k', v) :: m) = find k m.
Proof.
  intros Hne. cbn. destruct (cmp k k') eqn:E; try reflexivity.
  apply cmp_eq in E. contradiction.
Qed.

Lemma lower_bound_ordered k m : ordered m -> ordered (lower_bound k m).
Proof.
  induction m as [| [k' v'] m IH]; cbn; intros Ho; [assumption |].
  destruct (cmp k' k); try assumption; apply IH, (ordered_inv _ _ _ Ho).
Qed.

(** From [lower_bound k] on, an ordered map holds its bindings with keys
    not less than [k]. *)
Lemma find_lower_bound k k' m :
  ordered m -> cmp k' k <> Lt -> find k' (lower_bound k m) = find k' m.
Proof.
  induction m as [| [k0 v0] m IH]; cbn; intros Ho Hge; [reflexivity |].
  destruct (ordered_inv _ _ _ Ho) as [Ho' Hall].
  destruct (cmp k0 k) eqn:E0; try reflexivity.
  rewrite (IH Ho' Hge).
  destruct (cmp k' k0) eqn:E; try reflexivity.
  apply cmp_eq in E. subst k0. contradiction.
Qed.

(** The keys found from [lower_bound k] on are not less than [k]. *)
Lemma lower_bound_ge k k' v m :
  ordered m -> find k' (lower_bound k m) = Some v -> cmp k' k <> Lt.
Proof.
  induction m as [| [k0 v0] m IH]; cbn; intros Ho Hf; [discriminate |].
  destruct (ordered_inv _ _ _ Ho) as [Ho' Hall].
  assert (Hhere : cmp k0 k <> Lt -> find k' ((k0, v0) :: m) = Some v ->
                  cmp k' k <> Lt).
  { intros Hk0 Hfind Hlt. apply find_some_in in Hfind as [Heq | Hin].
    - injection Heq as -> ->. contradiction.
    - rewrite Forall_forall in Hall. specialize (Hall _ Hin). cbn in Hall.
      apply Hk0. eapply cmp_trans; eassumption. }
  destruct (cmp k0 k) eqn:E.
  - apply Hhere; [discriminate | exact Hf].
  - now apply IH.
  - apply Hhere; [discriminate | exact Hf].
Qed.

Lemma insert_ordered k v m : ordered m -> ordered (insert k v m).
Proof.
  induction m as [| [k' v'] m IH]; cbn; intros Ho.
  - repeat constructor.
  - destruct (ordered_inv _ _ _ Ho) as [Ho' Hall].
    destruct (cmp k k') eqn:E; [assumption | |].
    + constructor; [assumption |]. constructor; [exact E |].
      eapply Forall_impl; [| exact Hall]. intros b Hb. cbn in *.
      eapply cmp_trans; eassumption.
    + constructor; [apply IH, Ho' |].
      assert (Hin : forall b, In b (insert k v m) -> b = (k, v) \/ In b m).
      { clear. induction m as [| [k1 v1] m IH]; cbn.
        - intros b [<- | []]. now left.
        - intros b. destruct (cmp k k1); cbn; [tauto | intuition (subst; auto) |].
          intros [<- | Hb]; [tauto |]. apply IH in Hb. tauto. }
      apply Forall_forall. intros b Hb. apply Hin in Hb as [-> | Hb].
      * cbn. now apply cmp_gt_lt.
      * rewrite Forall_forall in Hall. now apply Hall.
Qed.

(** [insert] never changes what a key is already bound to. *)
Lemma find_insert_present k k' v v' m :
  ordered m -> find k' m = Some v' -> find k' (insert k v m) = Some v'.
Proof.
  induction m as [| [k0 v0] m IH]; cbn; intros Ho Hf; [discriminate |].
  destruct (ordered_inv _ _ _ Ho) as [Ho' Hall].
  destruct (cmp k k0) eqn:E; cbn.
  - exact Hf.
  - destruct (cmp k' k) eqn:E'.
    + apply cmp_eq in E'. subst k'. rewrite E in Hf.
      rewrite (find_below k0 k) in Hf; [discriminate | assumption |].
      rewrite E. discriminate.
    + exact Hf.
    + exact Hf.
  - destruct (cmp k' k0); [exact Hf | now apply IH | now apply IH].
Qed.

Lemma find_insert_absent k v m :
  ordered m -> find k m = None -> find k (insert k v m) = Some v.
Proof.
  induction m as [| [k0 v0] m IH]; cbn; intros Ho Hf.
  - now rewrite cmp_refl.
  - destruct (ordered_inv _ _ _ Ho) as [Ho' Hall].
    destruct (cmp k k0) eqn:E; [discriminate | |]; cbn.
    + now rewrite cmp_refl.
    + rewrite E. now apply IH.
Qed.

Lemma find_insert_other k k' v m :
  k' <> k -> find k' (insert k v m) = find k' m.
Proof.
  intros Hne. induction m as [| [k0 v0] m IH]; cbn.
  - destruct (cmp k' k) eqn:E; try reflexivity.
    apply cmp_eq in E. contradiction.
  - destruct (cmp k k0) eqn:E; cbn; [reflexivity | |].
    + destruct (cmp k' k) eqn:E'; try reflexivity.
      apply cmp_eq in E'. contradiction.
    + now rewrite IH.
Qed.

Lemma modify_keys k (f : V -> V) m : map fst (modify k f m) = map fst m.
Proof.
  induction m as [| [k0 v0] m IH]; cbn; [reflexivity |].
  destruct (cmp k k0); cbn; congruence.
Qed.

Lemma modify_ordered k (f : V -> V) m : ordered m -> ordered (modify k f m).
Proof.
  induction m as [| [k0 v0] m IH]; cbn; intros Ho; [assumption |].
  destruct (ordered_inv _ _ _ Ho) as [Ho' Hall].
  assert (Hk : forall g, Forall (fun b => cmp k0 (fst b) = Lt) (modify k g m)).
  { intros g. apply Forall_forall. intros b Hb.
    apply (in_map fst) in Hb. rewrite modify_keys in Hb.
    apply in_map_iff in Hb as [b' [Hfst Hb']].
    rewrite Forall_forall in Hall. rewrite <- Hfst. now apply Hall. }
  destruct (cmp k k0); constructor;
    first [exact Ho' | exact Hall | exact (IH Ho') | exact (Hk f)].
Qed.

Lemma find_modify k k' (f : V -> V) m :
  find k' (modify k f m)
  = if match cmp k' k with Eq => true | _ => false end
    then option_map f (find k' m) else find k' m.
Proof.
  induction m as [| [k0 v0] m IH]; cbn.
  - now destruct (cmp k' k).
  - destruct (cmp k k0) eqn:E; cbn.
    + apply cmp_eq in E. subst k0. destruct (cmp k' k); reflexivity.
    + rewrite IH. destruct (cmp k' k0) eqn:E0; try reflexivity.
      apply cmp_eq in E0. subst k0.
      destruct (cmp k' k) eqn:E1; try reflexivity.
      apply cmp_eq in E1. subst. rewrite cmp_refl in E. discriminate.
    + rewrite IH. destruct (cmp k' k0) eqn:E0; try reflexivity.
      apply cmp_eq in E0. subst k0.
      destruct (cmp k' k) eqn:E1; try reflexivity.
      apply cmp_eq in E1. subst. rewrite cmp_refl in E. discriminate.
Qed.

End Facts.
End StdMapFacts.

(** ** The validity scans of [exe] *)

Section Scan.
Import StdMap StdMapFacts.

(** Both loops of [exe] have this shape; [bad] is the test that clears
    the flag. *)
Variable bad : float -> bool.
Variable loop : list (int * float) -> bool -> bool.
Hypothesis loop_nil : forall b, loop [] b = b.
Hypothesis loop_cons : forall first second next b,
  loop ((first, second) :: next) b
  = if first <=? 268 then if bad second then false else loop next b else b.

Lemma int_cmp_lt (a b : Z) : cmp a b = Lt <-> a < b.
Proof. unfold cmp, int_key. apply Z.compare_lt_iff. Qed.

(** Run from the start of an ordered map, the loop clears the flag
    exactly when a day up to 268 holds a bad value. *)
Lemma loop_false_iff (m : list (int * float)) :
  ordered m ->
  loop m true = false <->
  exists d x, d <= 268 /\ find d m = Some x /\ bad x = true.
Proof.
  induction m as [| [k v] m IH]; intros Ho.
  - rewrite loop_nil. split; [discriminate |].
    intros (d & x & _ & Hf & _). discriminate.
  - destruct (ordered_inv _ _ _ Ho) as [Ho' Hall]. rewrite loop_cons.
    destruct (Z.leb_spec k 268) as [Hk | Hk].
    + destruct (bad v) eqn:Hv.
      * split; [intros _ | reflexivity].
        exists k, v. now rewrite find_head.
      * rewrite (IH Ho'). split; intros (d & x & Hd & Hf & Hx).
        -- exists d, x. repeat split; try assumption.
           rewrite find_tail; [assumption |]. intros ->.
           rewrite (find_below k k) in Hf; [discriminate | assumption |].
           rewrite cmp_refl. discriminate.
        -- exists d, x. repeat split; try assumption.
           destruct (Z.eq_dec d k) as [-> | Hne].
           ++ rewrite find_head in Hf. congruence.
           ++ now rewrite find_tail in Hf.
    + split; [discriminate |]. intros (d & x & Hd & Hf & Hx). exfalso.
      destruct (Z.eq_dec d k) as [-> | Hne]; [lia |].
      rewrite find_tail in Hf by assumption.
      apply find_some_in in Hf. rewrite Forall_forall in Hall.
      specialize (Hall _ Hf). cbn in Hall. apply (proj1 (int_cmp_lt _ _)) in Hall. lia.
Qed.

(** Run from [lower_bound(13)], it clears the flag exactly when a day of
    the closed range 13..268 holds a bad value. *)
Lemma scan_false_iff (m : list (int * float)) :
  ordered m ->
  loop (lower_bound 13 m) true = false <->
  exists d x, 13 <= d <= 268 /\ find d m = Some x /\ bad x = true.
Proof.
  intros Ho. rewrite (loop_false_iff _ (lower_bound_ordered 13 _ Ho)).
  split; intros (d & x & Hd & Hf & Hx); exists d, x.
  - pose proof (lower_bound_ge _ _ _ _ Ho Hf) as Hge.
    assert (13 <= d) by (destruct (Z.lt_ge_cases d 13) as [Hlt | ]; [| assumption];
                         apply (proj2 (int_cmp_lt _ _)) in Hlt; contradiction).
    rewrite find_lower_bound in Hf by assumption. auto.
  - repeat split; try lia; try assumption.
    rewrite find_lower_bound; [assumption | assumption |].
    intros Hlt. apply (proj1 (int_cmp_lt _ _)) in Hlt. lia.
Qed.

Lemma scan_true (m : list (int * float)) :
  ordered m ->
  (forall d x, 13 <= d <= 268 -> find d m = Some x -> bad x = false) ->
  loop (lower_bound 13 m) true = true.
Proof.
  intros Ho Hok. destruct (loop (lower_bound 13 m) true) eqn:E; [reflexivity |].
  apply (scan_false_iff _ Ho) in E as (d & x & Hd & Hf & Hx).
  rewrite (Hok d x Hd Hf) in Hx. discriminate.
Qed.

End Scan.

Lemma price_scan_false_iff (m : list (int * float)) :
  StdMap.ordered m ->
  price_loop (StdMap.lower_bound 13 m) true = false <->
  exists d x, 13 <= d <= 268 /\ StdMap.find d m = Some x /\ gt_299 x = true.
Proof. apply scan_false_iff; reflexivity. Qed.

Lemma volume_scan_false_iff (m : list (int * float)) :
  StdMap.ordered m ->
  volume_loop (StdMap.lower_bound 13 m) true = false <->
  exists d x, 13 <= d <= 268 /\ StdMap.find d m = Some x /\ lt_10 x = true.
Proof. apply scan_false_iff; reflexivity. Qed.

Lemma price_scan_true (m : list (int * float)) :
  StdMap.ordered m ->
  (forall d x, 13 <= d <= 268 -> StdMap.find d m = Some x -> gt_299 x = false) ->
  price_loop (StdMap.lower_bound 13 m) true = true.
Proof. apply scan_true; reflexivity. Qed.

Lemma volume_scan_true (m : list (int * float)) :
  StdMap.ordered m ->
  (forall d x, 13 <= d <= 268 -> StdMap.find d m = Some x -> lt_10 x = false) ->
  volume_loop (StdMap.lower_bound 13 m) true = true.
Proof. apply scan_true; reflexivity. Qed.

(** ** The query *)

Section QueryFacts.
Import StdMap StdMapFacts.

(** What one iteration of the loop of [exe] returns. *)
Lemma exe_body_run name_ asset_class loc e :
  exe_body (name_, asset_class) loc e
  = (if negb (string_eqb asset_class "stock") && negb (string_eqb asset_class "bond")
     then loc
     else
       match find name_ (name_to_trades e) with
       | None => loc
       | Some trades =>
           let loc1 :=
             match find name_ (name_to_date_price e) with
             | Some m => set_valid_flag (price_loop (lower_bound 13 m) true) loc
             | None => loc
             end in
           if valid_flag loc1 then count_trades asset_class trades loc1
           else
             let loc2 :=
               match find name_ (name_to_date_volume e) with
               | Some m => set_valid_flag (volume_loop (lower_bound 13 m) true) loc1
               | None => loc1
               end in
             if valid_flag loc2 then count_trades asset_class trades loc2 else loc2
       end, e).
Proof.
  unfold exe_body, qbind, member, qret.
  destruct (negb (string_eqb asset_class "stock") && negb (string_eqb asset_class "bond"));
    [reflexivity |].
  destruct (find name_ (name_to_trades e)); [| reflexivity].
  destruct (find name_ (name_to_date_price e)); cbn;
    repeat match goal with
           | |- context [if ?b then _ else _] => destruct b; cbn
           | |- context [match ?o with Some _ => _ | None => _ end] => destruct o; cbn
           end; reflexivity.
Qed.

Lemma exe_body_engine ite loc e : snd (exe_body ite loc e) = e.
Proof. destruct ite as [name_ asset_class]. now rewrite exe_body_run. Qed.

(** A loop whose body hands the engine on unchanged is a fold. *)
Lemma for_each_run {A S} (body : A -> S -> Query S) (range : list A) :
  (forall x s e, snd (body x s e) = e) ->
  forall s e,
    for_each body range s e
    = (fold_left (fun s x => fst (body x s e)) range s, e).
Proof.
  intros Hbody. induction range as [| x range IH]; intros s e; cbn.
  - reflexivity.
  - unfold qbind. specialize (Hbody x s e).
    destruct (body x s e) as [s' e'] eqn:E. cbn in Hbody. subst e'.
    apply IH.
Qed.

Lemma exe_loop_run e :
  exe_loop e
  = (fold_left (fun loc ite => fst (exe_body ite loc e)) (name_to_class e) exe_init, e).
Proof.
  unfold exe_loop, qbind, member.
  apply (for_each_run exe_body _ exe_body_engine).
Qed.

Lemma exe_run e : exe e = (result_table (fst (exe_loop e)), e).
Proof. unfold exe, qbind, qret. now rewrite exe_loop_run. Qed.

(** The iteration does not look at [name_to_class] (nor at the tables). *)
Lemma exe_body_class_map f ite loc e :
  fst (exe_body ite loc (set_name_to_class f e)) = fst (exe_body ite loc e).
Proof. destruct ite as [name_ asset_class]. now rewrite !exe_body_run. Qed.

Lemma class_is_queried asset_class :
  asset_class = "stock" \/ asset_class = "bond" ->
  negb (string_eqb asset_class "stock") && negb (string_eqb asset_class "bond") = false.
Proof. intros [-> | ->]; reflexivity. Qed.

(** An instrument whose price series passes the scan is counted. *)
Lemma exe_body_price_valid e name_ asset_class loc trades prices :
  asset_class = "stock" \/ asset_class = "bond" ->
  find name_ (name_to_trades e) = Some trades ->
  find name_ (name_to_date_price e) = Some prices ->
  price_loop (lower_bound 13 prices) true = true ->
  fst (exe_body (name_, asset_class) loc e)
  = count_trades asset_class trades (set_valid_flag true loc).
Proof.
  intros Hc Ht Hp Hscan. rewrite exe_body_run, (class_is_queried _ Hc), Ht, Hp.
  cbn. now rewrite Hscan.
Qed.

(** An instrument whose volume series passes the scan is counted,
    whatever its price series and the incoming flag are. *)
Lemma exe_body_volume_valid e name_ asset_class loc trades volumes :
  asset_class = "stock" \/ asset_class = "bond" ->
  find name_ (name_to_trades e) = Some trades ->
  find name_ (name_to_date_volume e) = Some volumes ->
  volume_loop (lower_bound 13 volumes) true = true ->
  fst (exe_body (name_, asset_class) loc e)
  = count_trades asset_class trades (set_valid_flag true loc).
Proof.
  intros Hc Ht Hv Hscan. rewrite exe_body_run, (class_is_queried _ Hc), Ht, Hv.
  cbn. rewrite Hscan.
  destruct (find name_ (name_to_date_price e)) as [prices |]; cbn.
  - destruct (price_loop (lower_bound 13 prices) true); reflexivity.
  - destruct loc as [s b [|]]; reflexivity.
Qed.

(** An instrument without any series: the flag left by the instruments
    before it decides. *)
Lemma exe_body_no_series e name_ asset_class loc trades :
  asset_class = "stock" \/ asset_class = "bond" ->
  find name_ (name_to_trades e) = Some trades ->
  find name_ (name_to_date_price e) = None ->
  find name_ (name_to_date_volume e) = None ->
  fst (exe_body (name_, asset_class) loc e)
  = if valid_flag loc then count_trades asset_class trades loc else loc.
Proof.
  intros Hc Ht Hp Hv. rewrite exe_body_run, (class_is_queried _ Hc), Ht, Hp, Hv.
  cbv zeta. cbn [fst]. destruct (valid_flag loc); reflexivity.
Qed.

(** [cnt += v.size()] adds the size: the result is the sum, reduced into
    the range of [int]. *)
Lemma add_size_wrap (cnt : int) (size : nat) :
  add_size cnt size = (cnt + Z.of_nat size + 2 ^ 31) mod 2 ^ 32 - 2 ^ 31.
Proof.
  unfold add_size, int_of_size_t, size_t_of_int.
  pose proof (Z.div_mod cnt (2 ^ 64) ltac:(lia)) as H1.
  pose proof (Z.div_mod (cnt mod 2 ^ 64 + Z.of_nat size) (2 ^ 64) ltac:(lia)) as H2.
  set (x := (cnt mod 2 ^ 64 + Z.of_nat size) mod 2 ^ 64) in *.
  replace (x + 2 ^ 31)
    with (cnt + Z.of_nat size + 2 ^ 31
          + (- (cnt / 2 ^ 64) - (cnt mod 2 ^ 64 + Z.of_nat size) / 2 ^ 64)
            * 2 ^ 32 * 2 ^ 32)
    by (change (2 ^ 64) with (2 ^ 32 * 2 ^ 32) in *; lia).
  rewrite <- Z.mul_assoc, Z.mul_assoc, Z_mod_plus_full. reflexivity.
Qed.

End QueryFacts.

Section QueryClaims.
Import StdMap StdMapFacts.

Lemma fold_left_pointwise {A S} (f g : S -> A -> S) (l : list A) :
  (forall s x, f s x = g s x) -> forall s, fold_left f l s = fold_left g l s.
Proof.
  intros Hfg. induction l as [| x l IH]; intros s; cbn; [reflexivity |].
  now rewrite Hfg, IH.
Qed.

Lemma run_queries_run (runs : nat) (table : option DenseTable) e :
  run_queries runs table e
  = (match runs with
     | O => table
     | S _ => Some (result_table (fst (exe_loop e)))
     end, e).
Proof.
  revert table. induction runs as [| runs IH]; intros table; cbn; [reflexivity |].
  unfold qbind. rewrite exe_run, IH. destruct runs; reflexivity.
Qed.

(** C10. [exe] hands the engine on as it found it: tables, class map,
    price and volume series and trade lists are those it was run on. A
    second run on the engine left by the first returns the same table,
    and the five runs of the driver end with the table of a single run. *)
Theorem exe_preserves_engine (e : ReferenceQueryEngine) :
  snd (exe e) = e
  /\ fst (exe (snd (exe e))) = fst (exe e)
  /\ run_queries 5 None e = (Some (fst (exe e)), e).
Proof.
  assert (Hsnd : snd (exe e) = e) by now rewrite exe_run.
  split; [exact Hsnd |]. split; [now rewrite Hsnd |].
  now rewrite run_queries_run, exe_run.
Qed.

(** C7. An instrument whose class is neither [stock] nor [bond], or that
    has no entry in [name_to_trades], leaves both counters (and the
    flag) as they were, whatever its series hold; the table [exe]
    returns is the one it returns without that instrument in
    [name_to_class]. *)
Theorem unqueried_instrument_adds_nothing
    (e : ReferenceQueryEngine) (name_ asset_class : string) :
  (asset_class <> "stock" /\ asset_class <> "bond")
  \/ find name_ (name_to_trades e) = None ->
  (forall loc, exe_body (name_, asset_class) loc e = (loc, e))
  /\ (forall before after,
        name_to_class e = (before ++ (name_, asset_class) :: after)%list ->
        fst (exe e)
        = fst (exe (set_name_to_class (fun _ => (before ++ after)%list) e))).
Proof.
  intros Hskip.
  assert (Hbody : forall loc, exe_body (name_, asset_class) loc e = (loc, e)).
  { intros loc. rewrite exe_body_run. destruct Hskip as [[Hs Hb] | Ht].
    - apply string_eqb_neq in Hs, Hb. now rewrite Hs, Hb.
    - rewrite Ht. now destruct (negb _ && negb _). }
  split; [exact Hbody |].
  intros before after Hmap. rewrite !exe_run. cbn [fst]. f_equal.
  rewrite !exe_loop_run. cbn [fst name_to_class set_name_to_class].
  rewrite Hmap, !fold_left_app. cbn [fold_left]. rewrite Hbody. cbn [fst].
  set (e' := set_name_to_class _ e).
  assert (Hsame : forall s x, fst (exe_body x s e) = fst (exe_body x s e'))
    by (intros s x; symmetry; apply exe_body_class_map).
  rewrite (fold_left_pointwise _ _ before Hsame).
  apply fold_left_pointwise, Hsame.
Qed.

(** C6. The table returned by [exe] is named [asset-class_counts], has
    the columns [asset-class : STRING] and [count : INT], and its rows
    are: the row of [bond] when the bond counter is not 0, then the row
    of [stock] when the stock counter is not 0; nothing else. *)
Theorem exe_result_table (e : ReferenceQueryEngine) :
  let loc := fst (exe_loop e) in
  let t := fst (exe e) in
  name t = "asset-class_counts"
  /\ columnNames t = ["asset-class"; "count"]
  /\ columnTypes t = [FIELD_TYPE_STRING; FIELD_TYPE_INT]
  /\ records t
     = ((if valid_bond_cnt loc =? 0 then []
         else [[StringField "bond"; IntField (valid_bond_cnt loc)]])
        ++ (if valid_stock_cnt loc =? 0 then []
            else [[StringField "stock"; IntField (valid_stock_cnt loc)]]))%list.
Proof.
  cbv zeta. rewrite exe_run. cbn [fst]. unfold result_table.
  destruct (valid_bond_cnt (fst (exe_loop e)) =? 0);
    destruct (valid_stock_cnt (fst (exe_loop e)) =? 0); cbn; auto.
Qed.

(** C4. A stock or bond with trades whose price series holds a price
    above 299.0 on a day of 13..268, and whose volume series holds no
    volume below 10.0 on a day of 13..268, has the number of its trades
    added to the counter of its class: the counter is the old counter
    plus the number of trades, reduced into the range of [int], so it is
    exactly that sum when the sum is an [int]. The other counter is left
    alone. *)
Theorem failing_price_passing_volume_counted
    (e : ReferenceQueryEngine) (name_ asset_class : string) (loc : Locals)
    (trades : list Trade) (prices volumes : list (int * float)) :
  asset_class = "stock" \/ asset_class = "bond" ->
  find name_ (name_to_trades e) = Some trades ->
  find name_ (name_to_date_price e) = Some prices ->
  ordered prices ->
  (exists d p, 13 <= d <= 268 /\ find d prices = Some p /\ gt_299 p = true) ->
  find name_ (name_to_date_volume e) = Some volumes ->
  ordered volumes ->
  (forall d v, 13 <= d <= 268 -> find d volumes = Some v -> lt_10 v = false) ->
  let loc' := fst (exe_body (name_, asset_class) loc e) in
  let size := Z.of_nat (List.length trades) in
  (asset_class = "stock" ->
   valid_stock_cnt loc'
   = (valid_stock_cnt loc + size + 2 ^ 31) mod 2 ^ 32 - 2 ^ 31
   /\ (INT_MIN <= valid_stock_cnt loc + size <= INT_MAX ->
       valid_stock_cnt loc' = valid_stock_cnt loc + size)
   /\ valid_bond_cnt loc' = valid_bond_cnt loc)
  /\ (asset_class = "bond" ->
      valid_bond_cnt loc'
      = (valid_bond_cnt loc + size + 2 ^ 31) mod 2 ^ 32 - 2 ^ 31
      /\ (INT_MIN <= valid_bond_cnt loc + size <= INT_MAX ->
          valid_bond_cnt loc' = valid_bond_cnt loc + size)
      /\ valid_stock_cnt loc' = valid_stock_cnt loc).
Proof.
  intros Hc Ht Hp Hop Hfail Hv Hov Hpass loc' size. subst loc' size.
  rewrite (exe_body_volume_valid e name_ asset_class loc trades volumes Hc Ht Hv
             (volume_scan_true _ Hov Hpass)).
  unfold INT_MIN, INT_MAX.
  split; intros ->; cbn [count_trades fst]; unfold count_trades; cbn;
    rewrite add_size_wrap; (split; [reflexivity | split; [| reflexivity]]);
    intros Hr; rewrite Z.mod_small by lia; lia.
Qed.

(** C5. For a stock or bond with trades: when every price recorded on a
    day of 13..268 is not above 299.0 the instrument is counted, whatever
    is recorded on other days (day 12 and day 269 among them); likewise
    when every volume recorded on a day of 13..268 is not below 10.0.
    The price 299.0 itself is not above 299.0 and the volume 10.0 itself
    is not below 10.0. *)
Theorem validity_boundaries
    (e : ReferenceQueryEngine) (name_ asset_class : string) (loc : Locals)
    (trades : list Trade) :
  asset_class = "stock" \/ asset_class = "bond" ->
  find name_ (name_to_trades e) = Some trades ->
  (forall prices,
     find name_ (name_to_date_price e) = Some prices ->
     ordered prices ->
     (forall d p, 13 <= d <= 268 -> find d prices = Some p -> gt_299 p = false) ->
     fst (exe_body (name_, asset_class) loc e)
     = count_trades asset_class trades (set_valid_flag true loc))
  /\ (forall volumes,
        find name_ (name_to_date_volume e) = Some volumes ->
        ordered volumes ->
        (forall d v, 13 <= d <= 268 -> find d volumes = Some v -> lt_10 v = false) ->
        fst (exe_body (name_, asset_class) loc e)
        = count_trades asset_class trades (set_valid_flag true loc))
  /\ gt_299 float_299 = false
  /\ lt_10 float_10 = false.
Proof.
  intros Hc Ht. repeat split.
  - intros prices Hp Ho Hok.
    exact (exe_body_price_valid e name_ asset_class loc trades prices Hc Ht Hp
             (price_scan_true _ Ho Hok)).
  - intros volumes Hv Ho Hok.
    exact (exe_body_volume_valid e name_ asset_class loc trades volumes Hc Ht Hv
             (volume_scan_true _ Ho Hok)).
Qed.

(** C2, on the engine loaded from [two_stocks_text]. [BBB] is a stock
    with one trade and neither a price nor a volume series. Visited
    after the valid stock [AAA] it is counted: the iteration for [BBB]
    takes the stock counter from 1 to 2 and [exe] returns the row
    [stock, 2]. Loaded without [AAA], the same instrument adds nothing
    and [exe] returns no row. *)
Theorem instrument_without_series_is_counted :
  let e := loaded (load_text 0 two_stocks_text) in
  find "BBB" (name_to_class e) = Some "stock"
  /\ find "BBB" (name_to_trades e) = Some [(2, 13, 7)]
  /\ find "BBB" (name_to_date_price e) = None
  /\ find "BBB" (name_to_date_volume e) = None
  /\ fst (exe_body ("AAA", "stock") exe_init e)
     = {| valid_stock_cnt := 1; valid_bond_cnt := 0; valid_flag := true |}
  /\ fst (exe_body ("BBB", "stock")
            {| valid_stock_cnt := 1; valid_bond_cnt := 0; valid_flag := true |} e)
     = {| valid_stock_cnt := 2; valid_bond_cnt := 0; valid_flag := true |}
  /\ records (fst (exe e)) = [[StringField "stock"; IntField 2]]
  /\ records (fst (exe (loaded (load_text 0 lone_stock_text)))) = [].
Proof. vm_compute. repeat split. Qed.

End QueryClaims.

Section QueryWitnesses.
Import StdMap StdMapFacts.

(** Looking a day up in a map given by its bindings. *)
Ltac day_cases Hf :=
  repeat match type of Hf with
         | find ?d ((?k, _) :: _) = Some _ =>
             destruct (Z.eq_dec d k) as [-> | ?];
             [ rewrite find_head in Hf; injection Hf as <-
             | rewrite find_tail in Hf by assumption ]
         | find _ [] = Some _ => discriminate Hf
         end.

Lemma unqueried_instrument_adds_nothing_witness :
  let e := loaded (load_text 0 boundary_text) in
  exe_body ("DDD", "fund") exe_init e = (exe_init, e)
  /\ fst (exe e)
     = fst (exe (set_name_to_class
                   (fun _ => [("AAA", "bond"); ("CCC", "stock")] ++ [])%list e)).
Proof.
  intros e.
  destruct (unqueried_instrument_adds_nothing e "DDD" "fund") as [Hbody Htable].
  - left. split; discriminate.
  - split; [apply Hbody | apply Htable; reflexivity].
Defined.

Lemma failing_price_passing_volume_counted_witness :
  let e := loaded (load_text 0 failing_price_text) in
  valid_stock_cnt (fst (exe_body ("AAA", "stock") exe_init e)) = 1
  /\ valid_bond_cnt (fst (exe_body ("AAA", "stock") exe_init e)) = 0.
Proof.
  intros e.
  destruct (failing_price_passing_volume_counted e "AAA" "stock" exe_init
              [(1, 13, 5)] [(13, S754_finite false 9830400 (-15))]
              [(13, float_10)]) as [Hstock _].
  - left. reflexivity.
  - reflexivity.
  - reflexivity.
  - repeat constructor.
  - exists 13, (S754_finite false 9830400 (-15)).
    split; [lia |]. split; reflexivity.
  - reflexivity.
  - repeat constructor.
  - intros d v _ Hf. day_cases Hf; reflexivity.
  - destruct (Hstock eq_refl) as (_ & Hexact & Hbond).
    split; [| exact Hbond]. apply Hexact. unfold INT_MIN, INT_MAX. cbn. lia.
Defined.

Lemma validity_boundaries_witness :
  let e := loaded (load_text 0 boundary_text) in
  fst (exe_body ("AAA", "bond") exe_init e)
  = count_trades "bond" [(1, 13, 5); (2, 14, 6)] (set_valid_flag true exe_init)
  /\ fst (exe_body ("CCC", "stock") exe_init e)
     = count_trades "stock" [(3, 13, 7)] (set_valid_flag true exe_init).
Proof.
  intros e. split.
  - destruct (validity_boundaries e "AAA" "bond" exe_init [(1, 13, 5); (2, 14, 6)])
      as [Hprice _].
    + right. reflexivity.
    + reflexivity.
    + apply (Hprice [(12, S754_finite false 9830400 (-15)); (13, float_299);
                     (268, float_299); (269, S754_finite false 9830400 (-15))]).
      * reflexivity.
      * repeat constructor.
      * intros d p Hd Hf. day_cases Hf; try reflexivity; lia.
  - destruct (validity_boundaries e "CCC" "stock" exe_init [(3, 13, 7)])
      as (_ & Hvolume & _).
    + left. reflexivity.
    + reflexivity.
    + apply (Hvolume [(12, S754_finite false 9437184 (-20)); (13, float_10);
                      (268, float_10); (269, S754_finite false 9437184 (-20))]).
      * reflexivity.
      * repeat constructor.
      * intros d v Hd Hf. day_cases Hf; try reflexivity; lia.
Defined.

End QueryWitnesses.

(** ** Loading *)

Section LoadFacts.
Import StdMap StdMapFacts.
Context `{Platform}.

(** The loop steps over one line or over three: induction on the lines
    that follows it. *)
Lemma lines_ind (P : list (list string) -> Prop) :
  P [] ->
  (forall l rest,
     P rest ->
     (forall a b rest', rest = a :: b :: rest' -> P rest') ->
     P (l :: rest)) ->
  forall lines, P lines.
Proof.
  intros Hnil Hstep lines.
  enough (Hall : P lines /\ P (tl lines) /\ P (tl (tl lines))) by apply Hall.
  induction lines as [| l rest (IH0 & IH1 & IH2)]; cbn; [auto |].
  repeat split; try assumption.
  apply Hstep; [assumption |]. intros a b rest' ->. exact IH2.
Qed.

(** Lines loaded to the end can be followed by more. *)
Lemma load_loop_app pre rest :
  forall flag e e' flag',
    load_loop pre flag e = Done e' flag' ->
    load_loop (pre ++ rest) flag e = load_loop rest flag' e'.
Proof.
  induction pre as [| l pre IHrow IHhead] using lines_ind; intros flag e e' flag' Hpre.
  - cbn in Hpre. injection Hpre as -> ->. reflexivity.
  - cbn in Hpre |- *. destruct l as [| l0 l]; [discriminate |].
    destruct (string_eqb l0 "<TABLE>").
    + destruct pre as [| a [| b pre']]; try discriminate. cbn.
      destruct (load_header e flag (l0 :: l) a b) as [[e1 flag1] | f]; [| discriminate].
      now apply (IHhead a b pre' eq_refl).
    + destruct (load_row e flag (l0 :: l)) as [e1 | f]; [| discriminate].
      now apply IHrow.
Qed.

Lemma load_header_maps e flag l names tys e' flag' :
  load_header e flag l names tys = Ok (e', flag') ->
  name_to_class e' = name_to_class e
  /\ name_to_date_price e' = name_to_date_price e
  /\ name_to_date_volume e' = name_to_date_volume e
  /\ name_to_trades e' = name_to_trades e.
Proof.
  unfold load_header. intros Hh.
  destruct (Nat.ltb _ 1); [discriminate |].
  destruct (negb _); [discriminate |].
  destruct (parse_column_types tys); [| discriminate].
  destruct (nth_error l 1); [| discriminate].
  injection Hh as <- _. auto.
Qed.

(** *** The series maps keep their order and their bindings *)

Lemma series_at_modify m name_ day x name' day' :
  series_ordered m ->
  find name_ m <> None ->
  series_at (modify name_ (insert day x) m) name' day'
  = match series_at m name' day' with
    | Some p => Some p
    | None => if string_eqb name' name_ && (day' =? day) then Some x else None
    end.
Proof.
  intros [Hom Hall] Hfound. unfold series_at. rewrite find_modify.
  destruct (cmp name' name_) eqn:E.
  - apply cmp_eq in E. subst name'. rewrite string_eqb_refl.
    destruct (find name_ m) as [series |] eqn:Hs; [| contradiction]. cbn.
    assert (Hos : ordered series).
    { apply find_some_in in Hs. rewrite Forall_forall in Hall.
      exact (Hall _ Hs). }
    destruct (find day' series) as [p |] eqn:Hd.
    + now apply find_insert_present.
    + destruct (Z.eqb_spec day' day) as [-> | Hne].
      * now apply find_insert_absent.
      * rewrite find_insert_other by assumption. exact Hd.
  - assert (Hne : string_eqb name' name_ = false).
    { apply string_eqb_neq. intros ->. rewrite cmp_refl in E. discriminate. }
    rewrite Hne. cbn. destruct (find name' m) as [s |]; [destruct (find day' s) |];
      reflexivity.
  - assert (Hne : string_eqb name' name_ = false).
    { apply string_eqb_neq. intros ->. rewrite cmp_refl in E. discriminate. }
    rewrite Hne. cbn. destruct (find name' m) as [s |]; [destruct (find day' s) |];
      reflexivity.
Qed.

(** What a series map holds after [record_day]: what it held before,
    and the new value where it held none. *)
Lemma series_at_record_day m name_ day x name' day' :
  series_ordered m ->
  series_at (record_day name_ day x m) name' day'
  = match series_at m name' day' with
    | Some p => Some p
    | None => if string_eqb name' name_ && (day' =? day) then Some x else None
    end.
Proof.
  intros Hm. unfold record_day. destruct (find name_ m) as [series |] eqn:Hs.
  - apply series_at_modify; [assumption | congruence].
  - destruct Hm as [Hom Hall]. unfold series_at.
    destruct (string_eqb name' name_) eqn:En.
    + apply string_eqb_eq in En. subst name'.
      rewrite (find_insert_absent _ _ _ Hom Hs), Hs. cbn.
      unfold cmp, int_key. rewrite Z.eqb_compare.
      now destruct (day' ?= day).
    + apply string_eqb_neq in En. rewrite find_insert_other by assumption.
      cbn. destruct (find name' m) as [s |]; [destruct (find day' s) |]; reflexivity.
Qed.

Lemma record_day_ordered m name_ day x :
  series_ordered m -> series_ordered (record_day name_ day x m).
Proof.
  intros [Hom Hall]. unfold record_day. destruct (find name_ m) as [series |] eqn:Hs.
  - split; [now apply modify_ordered |].
    clear Hs Hom. induction m as [| [k s] m IH]; cbn; [constructor |].
    inversion Hall; subst. destruct (cmp name_ k); constructor; cbn in *; auto.
    now apply insert_ordered.
  - split; [now apply insert_ordered |].
    clear Hs Hom. induction m as [| [k s] m IH]; cbn.
    + repeat constructor.
    + inversion Hall; subst. destruct (cmp name_ k); repeat constructor; cbn in *; auto.
Qed.

End LoadFacts.

Section PriceIndex.
Import StdMap StdMapFacts.
Context `{Platform}.

Lemma keeps_prices_same e e' :
  series_ordered (name_to_date_price e) ->
  name_to_date_price e' = name_to_date_price e ->
  keeps_prices e e'.
Proof. intros Ho Heq. unfold keeps_prices. rewrite Heq. auto. Qed.

Lemma keeps_prices_trans e1 e2 e3 :
  keeps_prices e1 e2 -> keeps_prices e2 e3 -> keeps_prices e1 e3.
Proof. intros [_ H12] [Ho H23]. split; auto. Qed.

Ltac result_cases H :=
  repeat match type of H with
         | context [result_bind ?r _] =>
             let f := fresh "f" in
             destruct r as [? | f] eqn:?; cbn [result_bind] in H;
             [| discriminate H]
         end.

Lemma index_record_keeps_prices flag record e e' :
  series_ordered (name_to_date_price e) ->
  index_record flag record e = Ok e' ->
  keeps_prices e e'.
Proof.
  intros Ho Hi. unfold index_record in Hi.
  destruct (flag =? TRADABLE);
    [result_cases Hi; injection Hi as <-; now apply keeps_prices_same |].
  destruct (flag =? PRICE_OVER_TIME).
  - result_cases Hi. injection Hi as <-. split; cbn.
    + now apply record_day_ordered.
    + intros n d p Hp. rewrite series_at_record_day by assumption. now rewrite Hp.
  - destruct (flag =? VOLUME_OVER_TIME);
      [result_cases Hi; injection Hi as <-; now apply keeps_prices_same |].
    destruct (flag =? TRADES);
      [result_cases Hi; injection Hi as <-; now apply keeps_prices_same |].
    injection Hi as <-. now apply keeps_prices_same.
Qed.

Lemma load_row_keeps_prices e flag l e' :
  series_ordered (name_to_date_price e) ->
  load_row e flag l = Ok e' ->
  keeps_prices e e'.
Proof.
  intros Ho Hr. unfold load_row in Hr.
  destruct (back (tables e)) as [currentTable |]; [| discriminate].
  destruct (negb _); [discriminate |].
  result_cases Hr. injection Hr as <-.
  eapply keeps_prices_trans; [eapply index_record_keeps_prices; eassumption |].
  apply keeps_prices_same; [| reflexivity].
  eapply index_record_keeps_prices; eassumption.
Qed.

Lemma load_loop_keeps_prices lines :
  forall flag e e' flag',
    series_ordered (name_to_date_price e) ->
    load_loop lines flag e = Done e' flag' ->
    keeps_prices e e'.
Proof.
  induction lines as [| l lines IHrow IHhead] using lines_ind;
    intros flag e e' flag' Ho Hl.
  - cbn in Hl. injection Hl as <- _. now apply keeps_prices_same.
  - cbn in Hl. destruct l as [| l0 l]; [discriminate |].
    destruct (string_eqb l0 "<TABLE>").
    + destruct lines as [| a [| b lines']]; try discriminate.
      destruct (load_header e flag (l0 :: l) a b) as [[e1 flag1] | f] eqn:Hh;
        [| discriminate].
      destruct (load_header_maps _ _ _ _ _ _ _ Hh) as (_ & Hp & _).
      assert (H1 : keeps_prices e e1) by now apply keeps_prices_same.
      eapply keeps_prices_trans; [exact H1 |].
      eapply (IHhead a b lines' eq_refl); [apply H1 | eassumption].
    + destruct (load_row e flag (l0 :: l)) as [e1 | f] eqn:Hr; [| discriminate].
      assert (H1 : keeps_prices e e1) by (eapply load_row_keeps_prices; eassumption).
      eapply keeps_prices_trans; [exact H1 |].
      eapply IHrow; [apply H1 | eassumption].
Qed.

Lemma new_engine_prices_ordered : series_ordered (name_to_date_price new_engine).
Proof. split; constructor. Qed.

(** A field read as an [int] is not the table marker. *)
Lemma parsed_int_not_marker tys x l day record :
  parse_record tys (x :: l) = Ok (IntField day :: record) ->
  string_eqb x "<TABLE>" = false.
Proof.
  destruct tys as [| tp tys]; cbn; [discriminate |].
  intros Hp. destruct (string_eqb x "<TABLE>") eqn:E; [| reflexivity].
  apply string_eqb_eq in E. subst x.
  destruct tp; cbn in Hp.
  - discriminate.
  - destruct (stof "<TABLE>"); cbn in Hp; [discriminate |].
    destruct (parse_record tys l); cbn in Hp; discriminate.
  - destruct (parse_record tys l); cbn in Hp; discriminate.
Qed.

(** C1, as the code has it. Let the lines [pre] be loaded, with
    [cur_table_flag] at [PRICE_OVER_TIME], and let the next line [l] be
    read as a record of day [day], instrument [name_] and price [price],
    for a day the price series of [name_] does not hold yet. Then at the
    end of the load, whatever lines follow, the series of [name_] holds
    [price] for [day]: a later row for the same instrument and day does
    not replace the price of the earlier one. *)
Theorem first_price_row_wins
    (garbage : int) (pre : list (list string)) (l : list string)
    (rest : list (list string)) (e : ReferenceQueryEngine)
    (currentTable : DenseTable) (day : int) (name_ : string) (price : float)
    (others : list Field) (e' : ReferenceQueryEngine) (flag' : int) :
  load_loop pre garbage new_engine = Done e PRICE_OVER_TIME ->
  back (tables e) = Some currentTable ->
  parse_record (columnTypes currentTable) l
    = Ok (IntField day :: StringField name_ :: FloatField price :: others) ->
  series_at (name_to_date_price e) name_ day = None ->
  loadTablesFromCSV garbage new_engine (pre ++ l :: rest) = Done e' flag' ->
  series_at (name_to_date_price e') name_ day = Some price.
Proof.
  intros Hpre Hback Hparse Hnone Hload.
  unfold loadTablesFromCSV in Hload.
  rewrite (load_loop_app pre (l :: rest) _ _ _ _ Hpre) in Hload.
  destruct (load_loop_keeps_prices pre _ _ _ _ new_engine_prices_ordered Hpre)
    as [Ho _].
  destruct l as [| x l]; [cbn in Hparse; discriminate |].
  cbn [load_loop] in Hload.
  rewrite (parsed_int_not_marker _ _ _ _ _ Hparse) in Hload.
  destruct (load_row e PRICE_OVER_TIME (x :: l)) as [e1 | f] eqn:Hrow; [| discriminate].
  destruct (load_loop_keeps_prices rest _ _ _ _
              (proj1 (load_row_keeps_prices _ _ _ _ Ho Hrow)) Hload) as [_ Hkeep].
  apply Hkeep. clear Hkeep Hload.
  unfold load_row in Hrow. rewrite Hback in Hrow.
  destruct (negb _); [discriminate |].
  rewrite Hparse in Hrow. cbn in Hrow. injection Hrow as <-. cbn.
  rewrite series_at_record_day by assumption.
  now rewrite Hnone, string_eqb_refl, Z.eqb_refl.
Qed.

End PriceIndex.

(** *** The loader builds ordered maps *)

Section LoadOrdered.
Import StdMap StdMapFacts.
Context `{Platform}.

Lemma record_trade_ordered m name_ t :
  ordered m -> ordered (record_trade name_ t m).
Proof.
  intros Ho. unfold record_trade. destruct (find name_ m).
  - now apply modify_ordered.
  - now apply insert_ordered.
Qed.

Lemma index_record_ordered flag record e e' :
  engine_ordered e -> index_record flag record e = Ok e' -> engine_ordered e'.
Proof.
  intros (Hc & Hp & Hv & Ht) Hi. unfold index_record in Hi.
  repeat match type of Hi with
         | context [if ?b then _ else _] => destruct b
         end;
    repeat match type of Hi with
           | context [result_bind ?r _] =>
               destruct r; cbn [result_bind] in Hi; [| discriminate Hi]
           end;
    injection Hi as <-; repeat split; cbn;
    first [ assumption
          | now apply insert_ordered
          | now apply record_day_ordered
          | now apply record_trade_ordered
          | apply Hp | apply Hv ].
Qed.

Lemma load_row_ordered e flag l e' :
  engine_ordered e -> load_row e flag l = Ok e' -> engine_ordered e'.
Proof.
  intros Ho Hr. unfold load_row in Hr.
  destruct (back (tables e)); [| discriminate].
  destruct (negb _); [discriminate |].
  destruct (parse_record _ l) as [record |]; cbn [result_bind] in Hr; [| discriminate].
  destruct (index_record flag record e) as [e1 |] eqn:Hi; cbn [result_bind] in Hr;
    [| discriminate].
  injection Hr as <-. exact (index_record_ordered _ _ _ _ Ho Hi).
Qed.

(** Every engine the loader fills from a fresh one has its maps in
    order. *)
Lemma load_loop_ordered lines :
  forall flag e e' flag',
    engine_ordered e ->
    load_loop lines flag e = Done e' flag' ->
    engine_ordered e'.
Proof.
  induction lines as [| l lines IHrow IHhead] using lines_ind;
    intros flag e e' flag' Ho Hl.
  - cbn in Hl. now injection Hl as <- _.
  - cbn in Hl. destruct l as [| l0 l]; [discriminate |].
    destruct (string_eqb l0 "<TABLE>").
    + destruct lines as [| a [| b lines']]; try discriminate.
      destruct (load_header e flag (l0 :: l) a b) as [[e1 flag1] | f] eqn:Hh;
        [| discriminate].
      destruct (load_header_maps _ _ _ _ _ _ _ Hh) as (Hc & Hp & Hv & Ht).
      apply (IHhead a b lines' eq_refl flag1 e1 e' flag'); [| exact Hl].
      unfold engine_ordered. now rewrite Hc, Hp, Hv, Ht.
    + destruct (load_row e flag (l0 :: l)) as [e1 | f] eqn:Hr; [| discriminate].
      apply (IHrow flag e1 e' flag'); [| exact Hl].
      exact (load_row_ordered _ _ _ _ Ho Hr).
Qed.

Lemma new_engine_ordered : engine_ordered new_engine.
Proof. repeat split; constructor. Qed.

Lemma loaded_engine_ordered garbage lines e flag :
  loadTablesFromCSV garbage new_engine lines = Done e flag -> engine_ordered e.
Proof. apply load_loop_ordered, new_engine_ordered. Qed.

End LoadOrdered.

Section LoadErrors.
Context `{Platform}.

(** C9. Let the lines [pre] be loaded, leaving the engine [e] with a
    current table. A data line whose number of fields is not the number
    of columns of that table ends the load at the arity assertion, and
    the engine at that moment is [e]: neither the row nor an index entry
    for it has been stored. *)
Theorem arity_mismatch_aborts
    (garbage : int) (e0 : ReferenceQueryEngine) (pre : list (list string))
    (l : list string) (rest : list (list string))
    (e : ReferenceQueryEngine) (flag : int) (currentTable : DenseTable) :
  load_loop pre garbage e0 = Done e flag ->
  back (tables e) = Some currentTable ->
  data_line l ->
  List.length l <> numColumns currentTable ->
  loadTablesFromCSV garbage e0 (pre ++ l :: rest) = Abort ArityMismatch e.
Proof.
  intros Hpre Hback Hdata Harity. unfold loadTablesFromCSV.
  rewrite (load_loop_app pre (l :: rest) _ _ _ _ Hpre).
  destruct l as [| l0 l]; [contradiction |]. cbn in Hdata.
  cbn [load_loop]. rewrite Hdata. unfold load_row. rewrite Hback.
  destruct (Nat.eqb_spec (numColumns currentTable) (List.length (l0 :: l)))
    as [Heq | Hne]; [congruence | reflexivity].
Qed.

(** The loop over the type names stops at a name it does not know, and
    only there. *)
Lemma parse_column_types_none tys :
  parse_column_types tys = None <-> Exists (fun c => ~ known_type_name c) tys.
Proof.
  induction tys as [| c tys IH]; cbn.
  - split; [discriminate | intros Hex; inversion Hex].
  - rewrite Exists_cons, <- IH. unfold known_type_name.
    destruct (string_eqb c "STRING") eqn:Es.
    { apply string_eqb_eq in Es. subst c.
      destruct (parse_column_types tys); intuition discriminate. }
    destruct (string_eqb c "INT") eqn:Ei.
    { apply string_eqb_eq in Ei. subst c.
      destruct (parse_column_types tys); intuition discriminate. }
    destruct (string_eqb c "FLOAT") eqn:Ef.
    { apply string_eqb_eq in Ef. subst c.
      destruct (parse_column_types tys); intuition discriminate. }
    apply string_eqb_neq in Es, Ei, Ef. intuition.
Qed.

Lemma load_header_unknown_type e flag l names tys :
  load_header e flag l names tys = Err UnknownColumnType ->
  Exists (fun c => ~ known_type_name c) tys.
Proof.
  unfold load_header.
  destruct (Nat.ltb _ 1); [discriminate |].
  destruct (negb _); [discriminate |].
  destruct (parse_column_types tys) eqn:Hp.
  - destruct (nth_error l 1); discriminate.
  - intros _. now apply parse_column_types_none.
Qed.

Lemma field_val_failure record c f :
  (string_val record c = Err f -> f = UndefinedBehaviour)
  /\ (int_val record c = Err f -> f = UndefinedBehaviour)
  /\ (float_val record c = Err f -> f = UndefinedBehaviour).
Proof.
  unfold string_val, int_val, float_val.
  destruct (nth_error record c) as [[] |]; repeat split; congruence.
Qed.

(** The [switch] can only go wrong by reading a field that is not
    there, or not of the class it is cast to. *)
Lemma index_record_failure flag record e f :
  index_record flag record e = Err f -> f = UndefinedBehaviour.
Proof.
  unfold index_record. intros Hi.
  repeat match type of Hi with
         | context [if ?b then _ else _] => destruct b
         end;
  repeat match type of Hi with
         | context [result_bind ?r _] =>
             let E := fresh "E" in
             destruct r eqn:E; cbn [result_bind] in Hi;
             [| injection Hi as <-; apply (field_val_failure _ _ _) in E; exact E]
         end; discriminate.
Qed.

Lemma parse_record_failure tys l f :
  parse_record tys l = Err f -> f = ColumnOutOfRange \/ exists ex, f = Uncaught ex.
Proof.
  revert tys. induction l as [| x l IH]; intros tys; cbn; [discriminate |].
  destruct tys as [| tp tys]; [intros [= <-]; now left |].
  specialize (IH tys).
  destruct tp; cbn.
  - destruct (stoi x) as [ex | v]; cbn; [intros [= <-]; right; now exists ex |].
    destruct (parse_record tys l); cbn; [discriminate | intros [= <-]; auto].
  - destruct (stof x) as [ex | v]; cbn; [intros [= <-]; right; now exists ex |].
    destruct (parse_record tys l); cbn; [discriminate | intros [= <-]; auto].
  - destruct (parse_record tys l); cbn; [discriminate | intros [= <-]; auto].
Qed.

Lemma load_row_known_type e flag l :
  load_row e flag l <> Err UnknownColumnType.
Proof.
  unfold load_row. destruct (back (tables e)) as [t |]; [| discriminate].
  destruct (negb _); [discriminate |].
  destruct (parse_record (columnTypes t) l) as [record | f] eqn:Hp; cbn.
  - destruct (index_record flag record e) as [e' | f] eqn:Hi; cbn; [discriminate |].
    apply index_record_failure in Hi. subst f. discriminate.
  - apply parse_record_failure in Hp as [-> | [ex ->]]; discriminate.
Qed.

(** A header whose type line holds an unknown name is refused; it is
    refused at the scan of the type names when the two assertions in
    front of the scan hold. *)
Lemma load_header_bad_types e flag l names tys :
  Exists (fun c => ~ known_type_name c) tys ->
  exists f,
    load_header e flag l names tys = Err f
    /\ (1 <= List.length names ->
        List.length names = List.length tys -> f = UnknownColumnType)%nat.
Proof.
  intros Hbad. apply parse_column_types_none in Hbad. unfold load_header.
  destruct (Nat.ltb_spec (List.length names) 1) as [Hlt | Hge].
  - exists NoColumns. split; [reflexivity | lia].
  - destruct (Nat.eqb_spec (List.length names) (List.length tys)) as [Heq | Hne]; cbn.
    + rewrite Hbad. exists UnknownColumnType. auto.
    + exists HeaderArityMismatch. split; [reflexivity | contradiction].
Qed.

Lemma type_header_aborts lines tys :
  type_header lines tys ->
  Exists (fun c => ~ known_type_name c) tys ->
  forall flag e, exists f e', load_loop lines flag e = Abort f e'.
Proof.
  intros Hth Hbad.
  induction Hth as [l0 l names tys rest Hl0
                   | l0 l names tys' rest tys Hl0 Hth IH
                   | l0 l rest tys Hl0 Hth IH]; intros flag e; cbn [load_loop];
    rewrite Hl0.
  - destruct (load_header_bad_types e flag (l0 :: l) names tys Hbad) as (f & -> & _).
    now exists f, e.
  - destruct (load_header e flag (l0 :: l) names tys') as [[e1 flag1] | f].
    + apply (IH Hbad).
    + now exists f, e.
  - destruct (load_row e flag (l0 :: l)) as [e1 | f].
    + apply (IH Hbad).
    + now exists f, e.
Qed.

Lemma known_types_never_abort lines :
  forall flag e e',
    (forall tys, type_header lines tys -> Forall known_type_name tys) ->
    load_loop lines flag e <> Abort UnknownColumnType e'.
Proof.
  induction lines as [| l lines IHrow IHhead] using lines_ind;
    intros flag e e' Hknown; cbn [load_loop]; [discriminate |].
  destruct l as [| l0 l]; [discriminate |].
  destruct (string_eqb l0 "<TABLE>") eqn:Hl0.
  - destruct lines as [| names [| tys lines']]; try discriminate.
    destruct (load_header e flag (l0 :: l) names tys) as [[e1 flag1] | f] eqn:Hh.
    + apply (IHhead names tys lines' eq_refl). intros tys' Hth.
      apply Hknown. now apply type_header_later.
    + intros [= -> _]. apply load_header_unknown_type in Hh.
      specialize (Hknown tys (type_header_here l0 l names tys lines' Hl0)).
      rewrite Forall_forall in Hknown. apply Exists_exists in Hh as (c & Hin & Hc).
      exact (Hc (Hknown c Hin)).
  - destruct (load_row e flag (l0 :: l)) as [e1 | f] eqn:Hr.
    + apply IHrow. intros tys Hth. apply Hknown. now apply type_header_row.
    + intros [= -> _]. exact (load_row_known_type _ _ _ Hr).
Qed.

(** C8. Let the lines [pre] be loaded, leaving the engine [e]. A
    [<TABLE>] line followed by a line of at least one column name and a
    line of as many type names, one of which is not exactly [STRING],
    [INT] or [FLOAT], ends the load at the scan of the type names, and
    the engine at that moment is [e]: the table has not been stored.
    Whatever the lines around it, a document in which the loop steps on
    a type line with such a name does not finish loading. A document
    whose type lines hold the three names only never ends at that
    scan. *)
Theorem unknown_column_type_aborts :
  (forall garbage e0 pre l columnNames_ tys rest e flag,
     load_loop pre garbage e0 = Done e flag ->
     (1 <= List.length columnNames_)%nat ->
     List.length columnNames_ = List.length tys ->
     Exists (fun c => ~ known_type_name c) tys ->
     loadTablesFromCSV garbage e0
       (pre ++ ("<TABLE>" :: l) :: columnNames_ :: tys :: rest)
     = Abort UnknownColumnType e)
  /\ (forall lines tys garbage e,
        type_header lines tys ->
        Exists (fun c => ~ known_type_name c) tys ->
        exists f e', loadTablesFromCSV garbage e lines = Abort f e')
  /\ (forall lines garbage e e',
        (forall tys, type_header lines tys -> Forall known_type_name tys) ->
        loadTablesFromCSV garbage e lines <> Abort UnknownColumnType e').
Proof.
  repeat split.
  - intros garbage e0 pre l names tys rest e flag Hpre Hcols Harity Hbad.
    unfold loadTablesFromCSV.
    rewrite (load_loop_app pre _ _ _ _ _ Hpre). cbn.
    destruct (load_header_bad_types e flag ("<TABLE>" :: l) names tys Hbad)
      as (f & -> & Hf).
    now rewrite (Hf Hcols Harity).
  - intros lines tys garbage e Hth Hbad. now apply (type_header_aborts lines tys).
  - intros lines garbage e e' Hknown. now apply known_types_never_abort.
Qed.

End LoadErrors.

Section LoadWitnesses.

Lemma first_price_row_wins_witness :
  series_at
    (name_to_date_price
       (loaded (@loadTablesFromCSV decimal_platform 0 new_engine
                  (price_header
                   ++ ["13"; "AAA"; "100.0"] :: [["13"; "AAA"; "200.0"]]))))
    "AAA" 13
  = Some (S754_finite false 13107200 (-17)).
Proof.
  apply (@first_price_row_wins decimal_platform 0 price_header
           ["13"; "AAA"; "100.0"] [["13"; "AAA"; "200.0"]]
           (loaded (@load_loop decimal_platform price_header 0 new_engine))
           (new_DenseTable "price-over-time" ["day"; "name"; "price"]
              [FIELD_TYPE_INT; FIELD_TYPE_STRING; FIELD_TYPE_FLOAT])
           13 "AAA" (S754_finite false 13107200 (-17)) []
           _ 1);
    reflexivity.
Defined.

(** C1 as the specification words it fails on [repeated_day_text]: both
    rows are read, for the same instrument and day and with the prices
    100.0 and 200.0, and the price series holds 100.0, the price of the
    earlier row, not the price of the later one. *)
Lemma later_price_row_is_dropped :
  exists e flag,
    load_text 0 repeated_day_text = Done e flag
    /\ map records (tables e)
       = [[[IntField 13; StringField "AAA";
            FloatField (S754_finite false 13107200 (-17))];
           [IntField 13; StringField "AAA";
            FloatField (S754_finite false 13107200 (-16))]]]
    /\ series_at (name_to_date_price e) "AAA" 13
       = Some (S754_finite false 13107200 (-17))
    /\ series_at (name_to_date_price e) "AAA" 13
       <> Some (S754_finite false 13107200 (-16)).
Proof.
  eexists. eexists. split; [vm_compute; reflexivity |].
  split; [reflexivity |]. split; [reflexivity |]. discriminate.
Qed.

Lemma arity_mismatch_aborts_witness :
  @loadTablesFromCSV decimal_platform 0 new_engine
    (trades_lines ++ ["2"; "13"; "BBB"] :: [["3"; "13"; "CCC"; "1"]])
  = Abort ArityMismatch
      (loaded (@loadTablesFromCSV decimal_platform 0 new_engine trades_lines)).
Proof.
  apply (@arity_mismatch_aborts decimal_platform 0 new_engine trades_lines
           ["2"; "13"; "BBB"] [["3"; "13"; "CCC"; "1"]] _ 3
           (addRecord
              (new_DenseTable "trades" ["id"; "day"; "name"; "quantity"]
                 [FIELD_TYPE_INT; FIELD_TYPE_INT; FIELD_TYPE_STRING; FIELD_TYPE_INT])
              [IntField 1; IntField 13; StringField "AAA"; IntField 5])).
  - reflexivity.
  - reflexivity.
  - reflexivity.
  - cbn. lia.
Defined.

Lemma unknown_column_type_aborts_witness :
  @loadTablesFromCSV decimal_platform 7 new_engine
    ([["<TABLE>"; "t"]; ["a"]; ["INT"]; ["1"]]
     ++ ["<TABLE>"; "u"] :: ["b"; "c"] :: ["INT"; "float"] :: [["1"; "2"]])
  = Abort UnknownColumnType
      (loaded (@loadTablesFromCSV decimal_platform 7 new_engine
                 [["<TABLE>"; "t"]; ["a"]; ["INT"]; ["1"]]))
  /\ (exists f e',
        @loadTablesFromCSV decimal_platform 7 new_engine
          [["<TABLE>"; "t"]; ["a"]; ["INT"]; ["1"];
           ["<TABLE>"; "u"]; ["b"]; ["Int"]]
        = Abort f e')
  /\ @loadTablesFromCSV decimal_platform 7 new_engine
       [["<TABLE>"; "t"]; ["a"]; ["INT"]; ["1"]]
     <> Abort UnknownColumnType new_engine.
Proof.
  destruct (@unknown_column_type_aborts decimal_platform) as (Hhere & Hdoc & Hknown).
  assert (Hbad : forall c cs,
             string_eqb c "STRING" || string_eqb c "INT" || string_eqb c "FLOAT" = false ->
             Exists (fun c => ~ known_type_name c) (cs ++ [c])).
  { intros c cs Hc. apply Exists_app. right. constructor.
    apply orb_false_elim in Hc as [Hc Hf]. apply orb_false_elim in Hc as [Hs Hi].
    apply string_eqb_neq in Hs, Hi, Hf. unfold known_type_name. tauto. }
  split; [| split].
  - apply (Hhere 7 new_engine _ ["u"] ["b"; "c"] ["INT"; "float"] [["1"; "2"]] _ 7).
    + reflexivity.
    + cbn. lia.
    + reflexivity.
    + exact (Hbad "float" ["INT"] eq_refl).
  - apply (Hdoc _ ["Int"]); [| exact (Hbad "Int" [] eq_refl)].
    apply type_header_later; [reflexivity |].
    apply type_header_row; [reflexivity |].
    apply type_header_here. reflexivity.
  - apply Hknown. intros tys Hth.
    inversion Hth as [? ? ? ? ? Hm | ? ? ? ? ? ? Hm Hth' | ? ? ? ? Hm Hth']; subst.
    + constructor; [right; left; reflexivity | constructor].
    + inversion Hth' as [| | ? ? ? ? Hm' Hth'']; subst. inversion Hth''.
    + discriminate Hm.
Defined.

(** C8 as the specification words it fails on three lines: the type
    line holds [bogus], which is none of the three names, and the load
    ends at the assertion that there are as many type names as column
    names, in front of the scan of the type names. A type line behind
    a row that is refused is not looked at either: the load ends at the
    row. *)
Lemma unknown_type_behind_earlier_failure :
  csvLines ("<TABLE>,t" ++ endl ++ "a,b" ++ endl ++ "bogus" ++ endl)
  = [["<TABLE>"; "t"]; ["a"; "b"]; ["bogus"]]
  /\ (forall garbage,
        load_text garbage ("<TABLE>,t" ++ endl ++ "a,b" ++ endl ++ "bogus" ++ endl)
        = Abort HeaderArityMismatch new_engine)
  /\ (forall garbage,
        @loadTablesFromCSV decimal_platform garbage new_engine
          [["<TABLE>"; "t"]; ["a"]; ["INT"]; ["1"; "2"];
           ["<TABLE>"; "u"]; ["b"]; ["bogus"]]
        = Abort ArityMismatch
            (loaded (@loadTablesFromCSV decimal_platform garbage new_engine
                       [["<TABLE>"; "t"]; ["a"]; ["INT"]]))).
Proof.
  split; [vm_compute; reflexivity |].
  split; intros garbage; reflexivity.
Qed.

End LoadWitnesses.

(** ** Text: splitting what was joined, reading what was written *)

Section Text.

Lemma append_assoc (a b c : string) : (a ++ b) ++ c = a ++ b ++ c.
Proof. induction a as [| x a IH]; cbn; [reflexivity | now rewrite IH]. Qed.

Lemma append_nil_r (a : string) : a ++ "" = a.
Proof. induction a as [| x a IH]; cbn; [reflexivity | now rewrite IH]. Qed.

Lemma occurs_append c a b : occurs c (a ++ b) = occurs c a || occurs c b.
Proof.
  induction a as [| x a IH]; cbn; [reflexivity |].
  now rewrite IH, orb_assoc.
Qed.

Lemma plain_lacks s :
  plain s = true -> occurs "," s = false /\ occurs newline s = false.
Proof.
  unfold plain. intros Hp. apply andb_true_iff in Hp as [Hc Hn].
  now rewrite negb_true_iff in Hc, Hn.
Qed.

(** *** [split_at] at a one-character delimiter *)

Variable c : ascii.

Lemma prefix_one a s : String.prefix (String c "") (String a s) = Ascii.eqb c a.
Proof.
  cbn. destruct (ascii_dec c a) as [-> | Hne].
  - rewrite Ascii.eqb_refl. now destruct s.
  - symmetry. now apply Ascii.eqb_neq.
Qed.

(** A token without the delimiter is read to the end of the text. *)
Lemma split_from_last token s :
  occurs c s = false ->
  split_from (String c "") 0 token s = [token ++ s].
Proof.
  revert token. induction s as [| a s IH]; intros token Hs.
  - cbn. now rewrite append_nil_r.
  - cbn [occurs] in Hs. apply orb_false_elim in Hs as [Ha Hs].
    cbn [split_from]. rewrite prefix_one, Ha, (IH _ Hs), append_assoc.
    reflexivity.
Qed.

(** A token without the delimiter is read up to the next delimiter. *)
Lemma split_from_next token s rest :
  occurs c s = false ->
  split_from (String c "") 0 token (s ++ String c rest)
  = (token ++ s) :: split_from (String c "") 0 "" rest.
Proof.
  revert token. induction s as [| a s IH]; intros token Hs.
  - cbn [append split_from]. rewrite prefix_one, Ascii.eqb_refl, append_nil_r.
    cbn. destruct rest; reflexivity.
  - cbn [occurs] in Hs. apply orb_false_elim in Hs as [Ha Hs].
    cbn [append split_from]. rewrite prefix_one, Ha, (IH _ Hs), append_assoc.
    reflexivity.
Qed.

(** Tokens that were each followed by the delimiter come back, and an
    empty token after them. *)
Lemma split_at_terminated (tokens : list string) :
  Forall (fun s => occurs c s = false) tokens ->
  split_at (String.concat "" (map (fun s => s ++ String c "") tokens)) (String c "")
  = (tokens ++ [""])%list.
Proof.
  unfold split_at. induction 1 as [| s tokens Hs _ IH]; [reflexivity |].
  assert (Hjoin : String.concat "" (map (fun s => s ++ String c "") (s :: tokens))
                  = s ++ String c (String.concat "" (map (fun s => s ++ String c "") tokens))).
  { cbn [map String.concat]. destruct (map _ tokens) eqn:E.
    - cbn. reflexivity.
    - rewrite append_assoc. reflexivity. }
  rewrite Hjoin, (split_from_next "" s _ Hs), IH. reflexivity.
Qed.

(** Tokens that were joined by the delimiter come back. *)
Lemma split_at_joined (tokens : list string) :
  tokens <> [] ->
  Forall (fun s => occurs c s = false) tokens ->
  split_at (String.concat (String c "") tokens) (String c "") = tokens.
Proof.
  unfold split_at. intros Hne Hall.
  induction Hall as [| s tokens Hs Hall IH]; [contradiction |].
  destruct tokens as [| s' tokens].
  - cbn [String.concat]. now rewrite split_from_last.
  - change (String.concat (String c "") (s :: s' :: tokens))
      with (s ++ String c (String.concat (String c "") (s' :: tokens))).
    rewrite (split_from_next "" s _ Hs), IH by discriminate. reflexivity.
Qed.

Lemma occurs_concat (sep : string) (tokens : list string) a :
  occurs a sep = false ->
  Forall (fun s => occurs a s = false) tokens ->
  occurs a (String.concat sep tokens) = false.
Proof.
  intros Hsep. induction 1 as [| s tokens Hs Hall IH]; [reflexivity |].
  destruct tokens as [| s' tokens]; [exact Hs |].
  change (String.concat sep (s :: s' :: tokens))
    with (s ++ sep ++ String.concat sep (s' :: tokens)).
  now rewrite !occurs_append, Hs, Hsep, IH.
Qed.

End Text.

(** *** [stoi] reads what [out << val] writes *)

Section Ints.

Lemma digit_of_digit_char d :
  0 <= d <= 9 -> digit_of (digit_char d) = Some d.
Proof.
  intros Hd.
  assert (Hcases : d = 0 \/ d = 1 \/ d = 2 \/ d = 3 \/ d = 4 \/ d = 5 \/ d = 6
                   \/ d = 7 \/ d = 8 \/ d = 9) by lia.
  repeat destruct Hcases as [-> | Hcases]; try reflexivity.
  subst d. reflexivity.
Qed.

Lemma digit_of_range ch d :
  digit_of ch = Some d -> (48 <= nat_of_ascii ch <= 57)%nat.
Proof.
  unfold digit_of.
  destruct (Z.leb_spec 48 (Z.of_nat (nat_of_ascii ch)));
    destruct (Z.leb_spec (Z.of_nat (nat_of_ascii ch)) 57); cbn; try discriminate.
  intros _. lia.
Qed.

Lemma digit_not_space ch d : digit_of ch = Some d -> isspace ch = false.
Proof.
  intros Hd. apply digit_of_range in Hd. unfold isspace.
  destruct (Nat.eqb_spec (nat_of_ascii ch) 32); [lia |].
  destruct (Nat.leb_spec 9 (nat_of_ascii ch));
    destruct (Nat.leb_spec (nat_of_ascii ch) 13); cbn; try reflexivity; lia.
Qed.

(** A character that is no digit is not the character of a digit. *)
Lemma digit_differs ch d x :
  digit_of ch = Some d -> digit_of x = None -> Ascii.eqb x ch = false.
Proof.
  intros Hd Hx. apply Ascii.eqb_neq. intros ->. congruence.
Qed.

Lemma is_numeral_digit d :
  0 <= d <= 9 -> is_numeral d (String (digit_char d) "").
Proof.
  intros Hd. pose proof (digit_of_digit_char d Hd) as Hdig. repeat split.
  - now exists (digit_char d), d, "".
  - intros ch Hch. cbn in Hch. rewrite orb_false_r in Hch.
    apply Ascii.eqb_eq in Hch. subst ch. now exists d.
  - intros a seen rest. cbn [append read_digits String.length]. rewrite Hdig.
    f_equal. change (10 ^ Z.of_nat 1) with 10. lia.
Qed.

Lemma is_numeral_snoc q r s :
  is_numeral q s -> 0 <= r <= 9 ->
  is_numeral (10 * q + r) (s ++ String (digit_char r) "").
Proof.
  intros (Hhead & Hall & Hread) Hr.
  pose proof (digit_of_digit_char r Hr) as Hdig. repeat split.
  - destruct Hhead as (ch & d & s' & Hs & Hch).
    exists ch, d, (s' ++ String (digit_char r) ""). now rewrite Hs.
  - intros x Hx. rewrite occurs_append in Hx. apply orb_true_iff in Hx as [Hx | Hx].
    + now apply Hall.
    + cbn in Hx. rewrite orb_false_r in Hx. apply Ascii.eqb_eq in Hx. subst x.
      now exists r.
  - intros a seen rest. rewrite append_assoc, Hread.
    cbn [append read_digits]. rewrite Hdig. f_equal.
    assert (Hlen : forall u v, String.length (u ++ v)
                               = (String.length u + String.length v)%nat).
    { clear. intros u v. induction u as [| x u IH]; cbn; [reflexivity | now rewrite IH]. }
    rewrite Hlen. cbn [String.length]. rewrite Nat2Z.inj_add, Z.pow_add_r by lia.
    change (Z.of_nat 1) with 1. lia.
Qed.

Lemma show_digits_numeral fuel :
  forall n acc,
    0 <= n < 2 ^ (Z.of_nat fuel + 1) ->
    exists s, show_digits fuel n acc = s ++ acc /\ is_numeral n s.
Proof.
  induction fuel as [| fuel IH]; intros n acc Hn.
  - exists (String (digit_char (n mod 10)) ""). split; [reflexivity |].
    change (2 ^ (Z.of_nat 0 + 1)) with 2 in Hn.
    rewrite Z.mod_small by lia. apply is_numeral_digit. lia.
  - cbn [show_digits]. destruct (Z.ltb_spec n 10) as [Hlt | Hge].
    + exists (String (digit_char (n mod 10)) ""). split; [reflexivity |].
      rewrite Z.mod_small by lia. apply is_numeral_digit. lia.
    + destruct (IH (n / 10) (String (digit_char (n mod 10)) acc)) as (s & Hs & Hnum).
      { split; [apply Z.div_pos; lia |].
        apply Z.div_lt_upper_bound; [lia |].
        rewrite Nat2Z.inj_succ in Hn.
        replace (Z.succ (Z.of_nat fuel) + 1) with (Z.succ (Z.of_nat fuel + 1)) in Hn by lia.
        rewrite Z.pow_succ_r in Hn by lia. lia. }
      exists (s ++ String (digit_char (n mod 10)) ""). split.
      * rewrite Hs, append_assoc. reflexivity.
      * rewrite (Z.div_mod n 10) at 1 by lia.
        apply is_numeral_snoc; [assumption |].
        pose proof (Z.mod_pos_bound n 10). lia.
Qed.

Lemma show_nonnegative_numeral n :
  0 <= n -> is_numeral n (show_digits (Z.to_nat (Z.log2 n)) n "").
Proof.
  intros Hn.
  destruct (show_digits_numeral (Z.to_nat (Z.log2 n)) n "") as (s & Hs & Hnum).
  - split; [assumption |]. rewrite Z2Nat.id by apply Z.log2_nonneg.
    destruct (Z.eq_dec n 0) as [-> | Hne]; [reflexivity |].
    pose proof (Z.log2_spec n ltac:(lia)) as Hlog.
    rewrite <- Z.add_1_r in Hlog. apply Hlog.
  - rewrite Hs, append_nil_r. exact Hnum.
Qed.

Lemma numeral_reads n s : is_numeral n s -> read_digits s 0 false = Some n.
Proof.
  intros (_ & _ & Hread). specialize (Hread 0 false "").
  rewrite append_nil_r in Hread. rewrite Hread. reflexivity.
Qed.

Lemma stoi_numeral n s :
  is_numeral n s ->
  stoi s = (if in_int_range n then inr n else inl out_of_range)
  /\ stoi (String "-" s) = (if in_int_range (- n) then inr (- n) else inl out_of_range).
Proof.
  intros Hnum. pose proof (numeral_reads n s Hnum) as Hread.
  destruct Hnum as ((ch & d & s' & -> & Hch) & _ & _).
  pose proof (digit_not_space ch d Hch) as Hsp.
  assert (Hminus : Ascii.eqb "-" ch = false) by now apply (digit_differs ch d).
  assert (Hplus : Ascii.eqb "+" ch = false) by now apply (digit_differs ch d).
  split.
  - unfold stoi. cbn [skip_space]. rewrite Hsp.
    assert (Hsign : (match String ch s' with
                     | String "-" r => (true, r)
                     | String "+" r => (false, r)
                     | _ => (false, String ch s')
                     end) = (false, String ch s')).
    { apply Ascii.eqb_neq in Hminus, Hplus.
      destruct ch as [[] [] [] [] [] [] [] []]; try reflexivity; congruence. }
    rewrite Hsign, Hread. reflexivity.
  - unfold stoi. cbn [skip_space]. change (isspace "-") with false.
    cbv iota. rewrite Hread. reflexivity.
Qed.

(** [stoi] reads an [int] back from its text. *)
Lemma stoi_show_int z : in_int_range z = true -> stoi (show_int z) = inr z.
Proof.
  intros Hz. unfold show_int. destruct (Z.ltb_spec z 0) as [Hneg | Hpos].
  - destruct (stoi_numeral (- z) _ (show_nonnegative_numeral (- z) ltac:(lia)))
      as [_ Hs].
    rewrite Hs, Z.opp_involutive, Hz. reflexivity.
  - destruct (stoi_numeral z _ (show_nonnegative_numeral z Hpos)) as [Hs _].
    now rewrite Hs, Hz.
Qed.

(** The text of an [int] holds a sign and digits only. *)
Lemma show_int_chars z ch :
  occurs ch (show_int z) = true -> ch = "-"%char \/ exists d, digit_of ch = Some d.
Proof.
  unfold show_int. destruct (Z.ltb_spec z 0) as [Hneg | Hpos].
  - cbn [occurs]. intros Hch. apply orb_true_iff in Hch as [Hch | Hch].
    + left. now apply Ascii.eqb_eq in Hch.
    + right. destruct (show_nonnegative_numeral (- z)) as (_ & Hall & _); [lia |].
      now apply Hall.
  - intros Hch. right.
    destruct (show_nonnegative_numeral z Hpos) as (_ & Hall & _). now apply Hall.
Qed.

Lemma show_int_plain z : plain (show_int z) = true.
Proof.
  unfold plain.
  assert (Hno : forall x, digit_of x = None -> x <> "-"%char ->
                          occurs x (show_int z) = false).
  { intros x Hx Hminus. destruct (occurs x (show_int z)) eqn:E; [| reflexivity].
    apply show_int_chars in E as [-> | [d Hd]]; congruence. }
  rewrite !Hno; first [reflexivity | discriminate].
Qed.

Lemma show_int_not_marker z : show_int z <> "<TABLE>".
Proof.
  intros Heq.
  assert (Hocc : occurs "<" (show_int z) = true) by now rewrite Heq.
  apply show_int_chars in Hocc as [Hm | [d Hd]]; discriminate.
Qed.

End Ints.

(** *** What [print] writes *)

Section Print.
Context `{Platform}.

Lemma concat_empty_cons (a : string) (l : list string) :
  String.concat "" (a :: l) = a ++ String.concat "" l.
Proof. destruct l; cbn; [now rewrite append_nil_r | reflexivity]. Qed.

Lemma concat_comma_cons (a : string) (l : list string) :
  String.concat comma (a :: l) = a ++ String.concat "" (map (append comma) l).
Proof.
  revert a. induction l as [| b l IH]; intros a.
  - cbn. now rewrite append_nil_r.
  - change (String.concat comma (a :: b :: l))
      with (a ++ comma ++ String.concat comma (b :: l)).
    rewrite IH. cbn [map]. rewrite concat_empty_cons, append_assoc. reflexivity.
Qed.

(** The columns after column 0, each behind a comma. *)
Lemma print_columns_rest (get : nat -> result string) (l : list string) :
  forall start,
    (forall j x, nth_error l j = Some x -> get (S start + j)%nat = Ok x) ->
    print_columns get (seq (S start) (List.length l))
    = Ok (String.concat "" (map (append comma) l)).
Proof.
  induction l as [| x l IH]; intros start Hget; [reflexivity |].
  cbn [List.length seq print_columns].
  rewrite <- (Nat.add_0_r (S start)) at 1. rewrite (Hget 0%nat x eq_refl).
  cbn [result_bind]. rewrite (IH (S start)).
  - cbn [result_bind map Nat.ltb Nat.leb]. rewrite concat_empty_cons.
    now rewrite append_assoc.
  - intros j y Hj.
    replace (S (S start) + j)%nat with (S start + S j)%nat by lia.
    now apply (Hget (S j)).
Qed.

(** A header line of [print]: the columns joined by commas. *)
Lemma print_columns_joined (get : nat -> result string) (l : list string) :
  (forall j x, nth_error l j = Some x -> get j = Ok x) ->
  print_columns get (seq 0 (List.length l)) = Ok (String.concat comma l).
Proof.
  intros Hget. destruct l as [| x l]; [reflexivity |].
  cbn [List.length seq print_columns]. rewrite (Hget 0%nat x eq_refl).
  cbn [result_bind]. rewrite (print_columns_rest get l 0).
  - cbn [result_bind Nat.ltb Nat.leb]. now rewrite concat_comma_cons.
  - intros j y Hj. now apply (Hget (S j)).
Qed.

Lemma print_row_rest (row : list Field) :
  forall i,
    print_row (S i) row
    = String.concat "" (map (fun f => comma ++ Field_print f) row) ++ endl.
Proof.
  induction row as [| f row IH]; intros i; [reflexivity |].
  cbn [print_row map Nat.ltb Nat.leb]. rewrite IH, concat_empty_cons.
  now rewrite !append_assoc.
Qed.

(** A data line of [print]: the fields joined by commas, and [endl]. *)
Lemma print_row_joined (row : list Field) :
  print_row 0 row = String.concat comma (map Field_print row) ++ endl.
Proof.
  destruct row as [| f row]; [reflexivity |].
  cbn [print_row map Nat.ltb Nat.leb]. rewrite print_row_rest, concat_comma_cons.
  rewrite map_map. now rewrite !append_assoc.
Qed.

(** The text of a table whose two header vectors have the same size:
    the marker line, the type line, the name line and the data lines,
    each ended by [endl]. *)
Lemma print_lines (t : DenseTable) :
  List.length (columnNames t) = List.length (columnTypes t) ->
  print t
  = Ok (String.concat ""
          (map (fun l => l ++ endl)
             (("<TABLE>," ++ name t)
              :: String.concat comma (map show_FieldType (columnTypes t))
              :: String.concat comma (columnNames t)
              :: map (fun row => String.concat comma (map Field_print row))
                   (records t)))).
Proof.
  intros Hlen. unfold print, numColumns, getName.
  rewrite Hlen at 1. rewrite <- (length_map show_FieldType (columnTypes t)).
  rewrite (print_columns_joined _ (map show_FieldType (columnTypes t))).
  2:{ intros j x Hj. unfold fieldType. rewrite nth_error_map in Hj.
      destruct (nth_error (columnTypes t) j); cbn in *; congruence. }
  cbn [result_bind]. rewrite (print_columns_joined _ (columnNames t)).
  2:{ intros j x Hj. unfold fieldName. now rewrite Hj. }
  cbn [result_bind map]. f_equal.
  rewrite !concat_empty_cons, !append_assoc, map_map.
  rewrite (map_ext (print_row 0)
             (fun row => String.concat comma (map Field_print row) ++ endl)
             print_row_joined).
  reflexivity.
Qed.

End Print.

(** ** Printing a table and loading the text *)

Section RoundTrip.
Context `{Platform}.

Lemma reads_back_plain (f : Field) : reads_back f -> plain (Field_print f) = true.
Proof.
  destruct f as [val | val | val]; cbn.
  - intros _. apply show_int_plain.
  - now intros [Hp _].
  - auto.
Qed.

Lemma show_FieldType_plain tp : plain (show_FieldType tp) = true.
Proof. now destruct tp. Qed.

Lemma joined_lacks_newline (fields : list string) :
  Forall (fun s => plain s = true) fields ->
  occurs newline (String.concat comma fields) = false.
Proof.
  intros Hall. apply occurs_concat; [reflexivity |].
  eapply Forall_impl; [| exact Hall]. intros s Hs. now apply plain_lacks.
Qed.

Lemma split_joined (fields : list string) :
  fields <> [] ->
  Forall (fun s => plain s = true) fields ->
  split_at (String.concat comma fields) comma = fields.
Proof.
  intros Hne Hall. apply (split_at_joined ","%char); [assumption |].
  eapply Forall_impl; [| exact Hall]. intros s Hs. now apply plain_lacks.
Qed.

Lemma row_prints_fields (t : DenseTable) (row : list Field) :
  row_prints t row -> Forall (fun s => plain s = true) (map Field_print row).
Proof.
  intros (_ & Hall & _). apply Forall_map.
  eapply Forall_impl; [| exact Hall]. apply reads_back_plain.
Qed.

Lemma row_prints_length (t : DenseTable) (row : list Field) :
  row_prints t row -> List.length row = List.length (columnTypes t).
Proof. intros (Hty & _). now rewrite <- Hty, length_map. Qed.

(** The lines the driver makes of the text of a table: the marker line,
    the type line, the name line, and a line of fields per row. *)
Lemma csvLines_print (t : DenseTable) :
  prints_faithfully t ->
  exists text,
    print t = Ok text
    /\ csvLines text
       = ["<TABLE>"; name t]
         :: map show_FieldType (columnTypes t)
         :: columnNames t
         :: map (map Field_print) (records t).
Proof.
  intros (Hname & Hnames & Hcols & Hlen & Hrows).
  eexists. split; [apply (print_lines t Hlen) |].
  assert (Htypes_ne : map show_FieldType (columnTypes t) <> []).
  { destruct (columnTypes t); [cbn in *; lia | discriminate]. }
  assert (Hnames_ne : columnNames t <> []).
  { destruct (columnNames t); [cbn in *; lia | discriminate]. }
  assert (Htypes : Forall (fun s => plain s = true) (map show_FieldType (columnTypes t))).
  { apply Forall_map, Forall_forall. intros tp _. apply show_FieldType_plain. }
  unfold csvLines.
  rewrite (split_at_terminated newline).
  - rewrite removelast_last. cbn [map]. f_equal; [| f_equal; [| f_equal]].
    + destruct (plain_lacks _ Hname) as [Hc _].
      change ("<TABLE>," ++ name t) with ("<TABLE>" ++ String "," (name t)).
      unfold split_at, comma.
      rewrite (split_from_next ","%char "" "<TABLE>" (name t) eq_refl).
      now rewrite (split_from_last ","%char "" (name t) Hc).
    + now apply split_joined.
    + now apply split_joined.
    + rewrite map_map. apply map_ext_in. intros row Hin.
      rewrite Forall_forall in Hrows. specialize (Hrows row Hin).
      apply split_joined; [| now apply (row_prints_fields t)].
      pose proof (row_prints_length t row Hrows) as Hl.
      destruct row; [cbn in *; lia | discriminate].
  - repeat constructor.
    + rewrite occurs_append. destruct (plain_lacks _ Hname) as [_ Hn].
      now rewrite Hn.
    + now apply joined_lacks_newline.
    + now apply joined_lacks_newline.
    + apply Forall_map, Forall_forall. intros row Hin.
      rewrite Forall_forall in Hrows.
      apply joined_lacks_newline, (row_prints_fields t), Hrows, Hin.
Qed.

Lemma parse_column_types_shown (tys : list FieldType) :
  parse_column_types (map show_FieldType tys) = Some tys.
Proof.
  induction tys as [| tp tys IH]; [reflexivity |].
  cbn [map parse_column_types]. rewrite IH. now destruct tp.
Qed.

(** A row of fields that read back is parsed from its text. *)
Lemma parse_record_printed (row : list Field) :
  Forall reads_back row ->
  parse_record (map Field_type row) (map Field_print row) = Ok row.
Proof.
  induction 1 as [| f row Hf Hrow IH]; [reflexivity |].
  cbn [map parse_record]. rewrite IH.
  destruct f as [val | val | val]; cbn in Hf |- *.
  - now rewrite (stoi_show_int val Hf).
  - destruct Hf as [_ ->]. reflexivity.
  - reflexivity.
Qed.

(** Whether the [switch] goes wrong depends on the flag and the record
    only, and it leaves the tables alone. *)
Lemma indexable_anywhere flag record e :
  indexable flag record ->
  exists e', index_record flag record e = Ok e' /\ tables e' = tables e.
Proof.
  intros [e0 H0]. unfold index_record in *.
  repeat match type of H0 with
         | context [if ?b then _ else _] => destruct b
         end;
    repeat match type of H0 with
           | context [result_bind ?r _] =>
               destruct r; cbn [result_bind] in H0 |- *; [| discriminate H0]
           end;
    eexists; split; reflexivity.
Qed.

Lemma addRecord_fold (rows : list (list Field)) :
  forall t,
    fold_left addRecord rows t
    = {| name := name t; columnNames := columnNames t;
         columnTypes := columnTypes t; records := (records t ++ rows)%list |}.
Proof.
  induction rows as [| row rows IH]; intros t; cbn [fold_left].
  - rewrite app_nil_r. now destruct t.
  - rewrite IH. cbn. now rewrite <- app_assoc.
Qed.

(** The data lines of a printed table are loaded as its rows. *)
Lemma load_printed_rows (flag : int) (rows : list (list Field)) :
  forall e t,
    tables e = [t] ->
    (1 <= List.length (columnNames t))%nat ->
    List.length (columnNames t) = List.length (columnTypes t) ->
    Forall (row_prints t) rows ->
    Forall (indexable flag) rows ->
    exists e',
      load_loop (map (map Field_print) rows) flag e = Done e' flag
      /\ tables e' = [fold_left addRecord rows t].
Proof.
  induction rows as [| row rows IH]; intros e t Ht Hcols Hlen Hrows Hidx.
  - exists e. split; [reflexivity | exact Ht].
  - inversion Hrows as [| ? ? Hrow Hrows']; subst.
    inversion Hidx as [| ? ? Hi Hidx']; subst.
    pose proof (row_prints_length t row Hrow) as Hl.
    destruct Hrow as (Hty & Hback & Hmarker).
    destruct row as [| f row]; [cbn in Hl; lia |].
    destruct (indexable_anywhere flag (f :: row) e Hi) as (e1 & He1 & Ht1).
    destruct (IH (set_tables (modify_back (fun t => addRecord t (f :: row))) e1)
                (addRecord t (f :: row))) as (e' & Hload & Htables).
    + cbn. now rewrite Ht1, Ht.
    + exact Hcols.
    + exact Hlen.
    + exact Hrows'.
    + exact Hidx'.
    + exists e'. split; [| exact Htables].
      cbn [map load_loop].
      assert (Hm : string_eqb (Field_print f) "<TABLE>" = false)
        by (apply string_eqb_neq, Hmarker; reflexivity).
      rewrite Hm. unfold load_row. rewrite Ht. cbn [back map last].
      assert (Harity : Nat.eqb (numColumns t)
                         (List.length (Field_print f :: map Field_print row)) = true).
      { apply Nat.eqb_eq. unfold numColumns. cbn [List.length] in *.
        rewrite length_map. lia. }
      rewrite Harity. cbn [negb]. rewrite <- Hty.
      change (Field_print f :: map Field_print row) with (map Field_print (f :: row)).
      rewrite (parse_record_printed (f :: row) Hback). cbn [result_bind].
      rewrite He1. cbn [result_bind]. exact Hload.
Qed.

(** The text of a table, with the type line and the name line
    exchanged, is loaded as the table. *)
Lemma load_exchanged_text (garbage : int) (t : DenseTable) :
  prints_faithfully t ->
  Forall (indexable (table_flag (name t) garbage)) (records t) ->
  exists text e,
    print t = Ok text
    /\ csvLines text
       = ["<TABLE>"; name t]
         :: map show_FieldType (columnTypes t)
         :: columnNames t
         :: map (map Field_print) (records t)
    /\ loadTablesFromCSV garbage new_engine (exchange_header_lines (csvLines text))
       = Done e (table_flag (name t) garbage)
    /\ tables e = [t].
Proof.
  intros Hprints Hidx.
  destruct (csvLines_print t Hprints) as (text & Hprint & Hlines).
  destruct Hprints as (Hname & Hnames & Hcols & Hlen & Hrows).
  set (t0 := new_DenseTable (name t) (columnNames t) (columnTypes t)).
  destruct (load_printed_rows (table_flag (name t) garbage) (records t)
              (set_table_headers
                 (fun hs => (hs ++ [(name t, columnNames t, columnTypes t)])%list)
                 (set_tables (fun ts => (ts ++ [t0])%list) new_engine))
              t0 eq_refl Hcols Hlen Hrows Hidx) as (e & Hload & Htables).
  exists text, e. split; [exact Hprint |]. split; [exact Hlines |]. split.
  - rewrite Hlines. unfold loadTablesFromCSV, exchange_header_lines.
    cbn [load_loop]. change (string_eqb "<TABLE>" "<TABLE>") with true. cbv iota.
    unfold load_header.
    destruct (Nat.ltb_spec (List.length (columnNames t)) 1) as [Hlt | _]; [lia |].
    rewrite length_map, Hlen, Nat.eqb_refl. cbn [negb].
    rewrite parse_column_types_shown. cbn [nth_error]. exact Hload.
  - rewrite Htables, addRecord_fold. cbn. now destruct t.
Qed.

End RoundTrip.

(** * Further properties *)

(** ** [split_at] and the lines of the driver *)

Section SplitExtras.

Lemma split_from_not_nil delimiter s :
  forall skip token, split_from delimiter skip token s <> [].
Proof.
  induction s as [| a s IH]; intros skip token; cbn [split_from]; [discriminate |].
  destruct skip; [| apply IH].
  destruct (String.prefix delimiter (String a s)); [discriminate | apply IH].
Qed.

Lemma concat_cons_not_nil (sep a : string) (l : list string) :
  l <> [] -> String.concat sep (a :: l) = a ++ sep ++ String.concat sep l.
Proof. intros Hl. destruct l; [contradiction | reflexivity]. Qed.

Lemma prefix_split (d s : string) :
  String.prefix d s = true -> exists r, s = d ++ r.
Proof.
  revert s. induction d as [| a d IH]; intros s Hp.
  - now exists s.
  - destruct s as [| b s]; [discriminate |]. cbn in Hp.
    destruct (ascii_dec a b) as [-> | _]; [| discriminate].
    destruct (IH s Hp) as [r ->]. now exists r.
Qed.

Lemma string_drop_append (d r : string) : string_drop (String.length d) (d ++ r) = r.
Proof. induction d as [| a d IH]; cbn; [now destruct r | exact IH]. Qed.

(** The tokens, joined by the delimiter, are the text that was split
    (behind the token read so far, and without the characters still to
    erase). *)
Lemma concat_split_from (a : ascii) (d' : string) (s : string) :
  forall skip token,
    String.concat (String a d') (split_from (String a d') skip token s)
    = token ++ string_drop skip s.
Proof.
  induction s as [| b s IH]; intros skip token.
  - destruct skip; cbn; now rewrite append_nil_r.
  - cbn [split_from]. destruct skip as [| skip]; [| apply IH].
    destruct (String.prefix (String a d') (String b s)) eqn:Hp.
    + rewrite concat_cons_not_nil by apply split_from_not_nil.
      rewrite IH. destruct (prefix_split _ _ Hp) as [r Hr].
      cbn [append] in Hr. injection Hr as <- ->.
      cbn [String.length Nat.pred append string_drop].
      now rewrite string_drop_append.
    + rewrite IH. cbn [string_drop]. now rewrite append_assoc.
Qed.

(** X1. Nothing is lost in splitting: for a delimiter that is not
    empty, the tokens [split_at] returns, joined by the delimiter, are
    the text again. *)
Theorem split_at_concat (t delimiter : string) :
  delimiter <> "" ->
  String.concat delimiter (split_at t delimiter) = t.
Proof.
  intros Hd. destruct delimiter as [| a d']; [contradiction |].
  unfold split_at. now rewrite concat_split_from.
Qed.

Lemma split_at_concat_witness :
  String.concat ", " (split_at "a, b,, c, " ", ") = "a, b,, c, ".
Proof. apply split_at_concat. discriminate. Defined.

Lemma split_from_tokens_lack (c : ascii) (s : string) :
  forall token,
    occurs c token = false ->
    Forall (fun tok => occurs c tok = false) (split_from (String c "") 0 token s).
Proof.
  induction s as [| a s IH]; intros token Ht.
  - now repeat constructor.
  - cbn [split_from]. rewrite prefix_one.
    destruct (Ascii.eqb c a) eqn:E.
    + constructor; [exact Ht | now apply IH].
    + apply IH. rewrite occurs_append, Ht. cbn. now rewrite E.
Qed.

(** X2. At a one-character delimiter, no token [split_at] returns holds
    the delimiter, and tokens without the delimiter that were joined by
    it come back as they were. *)
Theorem split_at_one_character (c : ascii) :
  (forall t, Forall (fun tok => occurs c tok = false) (split_at t (String c "")))
  /\ (forall tokens,
        tokens <> [] ->
        Forall (fun tok => occurs c tok = false) tokens ->
        split_at (String.concat (String c "") tokens) (String c "") = tokens).
Proof.
  split.
  - intros t. now apply split_from_tokens_lack.
  - apply split_at_joined.
Qed.

Lemma split_at_one_character_witness :
  Forall (fun tok => occurs "," tok = false) (split_at "1,13,AAA,5" ",")
  /\ split_at (String.concat "," ["1"; "13"; ""; "5"]) "," = ["1"; "13"; ""; "5"].
Proof.
  destruct (split_at_one_character ","%char) as [Hlack Hjoin]. split.
  - apply Hlack.
  - apply Hjoin; [discriminate | repeat constructor].
Defined.

Lemma split_lines_tail (c : ascii) (ls : list string) (tail : string) :
  Forall (fun s => occurs c s = false) ls ->
  occurs c tail = false ->
  split_at (String.concat "" (map (fun s => s ++ String c "") ls) ++ tail)
    (String c "")
  = (ls ++ [tail])%list.
Proof.
  intros Hls Htail. unfold split_at.
  induction Hls as [| s ls Hs _ IH].
  - cbn [map String.concat append app]. now rewrite split_from_last.
  - cbn [map]. rewrite concat_empty_cons, !append_assoc.
    cbn [append]. rewrite (split_from_next c "" s _ Hs), IH. reflexivity.
Qed.

(** X3. The driver takes the text up to the last line end: for lines
    without a line end, each followed by one, and then any text [tail]
    without a line end, the lines handed to the loader are those lines,
    split at the commas; [tail] is dropped. *)
Theorem csvLines_drops_unterminated (ls : list string) (tail : string) :
  Forall (fun s => occurs newline s = false) ls ->
  occurs newline tail = false ->
  csvLines (String.concat "" (map (fun s => s ++ endl) ls) ++ tail)
  = map (fun l => split_at l comma) ls.
Proof.
  intros Hls Htail. unfold csvLines, endl.
  rewrite (split_lines_tail newline ls tail Hls Htail), removelast_last.
  reflexivity.
Qed.

Lemma csvLines_drops_unterminated_witness :
  csvLines (String.concat "" (map (fun s => s ++ endl) ["<TABLE>,t"; "a"; "INT"])
            ++ "1")
  = [["<TABLE>"; "t"]; ["a"]; ["INT"]].
Proof.
  apply (csvLines_drops_unterminated ["<TABLE>,t"; "a"; "INT"] "1");
    repeat constructor.
Defined.

End SplitExtras.

(** ** Fields and tables *)

Section FieldExtras.

Lemma SFcompare_antisym (x y : spec_float) :
  SFcompare y x = option_map CompOpp (SFcompare x y).
Proof.
  destruct x as [sx | sx | | sx mx ex]; destruct y as [sy | sy | | sy my ey];
    cbn; try reflexivity;
    try (destruct sx; reflexivity); try (destruct sy; reflexivity);
    try (destruct sx, sy; reflexivity).
  destruct sx, sy; cbn; try reflexivity;
    rewrite (Z.compare_antisym ex ey); destruct (ex ?= ey); cbn; try reflexivity;
    rewrite ?CompOpp_involutive, ?(Pos.compare_cont_antisym mx my Eq),
      ?(Pos.compare_cont_antisym my mx Eq); reflexivity.
Qed.

Lemma SFeqb_sym (x y : spec_float) : SFeqb x y = SFeqb y x.
Proof.
  unfold SFeqb. rewrite (SFcompare_antisym x y).
  now destruct (SFcompare x y) as [[] |].
Qed.

Lemma SFeqb_refl (x : spec_float) : SFeqb x x = true <-> x <> S754_nan.
Proof.
  unfold SFeqb. destruct x as [s | s | | s m e]; cbn.
  - split; [discriminate | reflexivity].
  - split; [discriminate | now destruct s].
  - split; [discriminate | congruence].
  - split; [discriminate | intros _].
    destruct s; rewrite Z.compare_refl, Pos.compare_cont_refl; reflexivity.
Qed.

(** X4. [Field::equals] is symmetric, holds between fields of the same
    class only, and between two [int] fields or two string fields holds
    exactly when they are the same field. A field equals itself unless
    it is a [float] field holding a NaN. *)
Theorem Field_equals_facts :
  (forall f g, Field_equals f g = Field_equals g f)
  /\ (forall f g, Field_equals f g = true -> Field_type f = Field_type g)
  /\ (forall f g,
        Field_type f <> FIELD_TYPE_FLOAT ->
        (Field_equals f g = true <-> f = g))
  /\ (forall f, Field_equals f f = true <-> f <> FloatField S754_nan).
Proof.
  split; [| split; [| split]]; cycle 3.
  { intros [v | v | v]; cbn.
    - rewrite Z.eqb_refl. split; [discriminate | reflexivity].
    - rewrite SFeqb_refl. split; congruence.
    - rewrite string_eqb_refl. split; [discriminate | reflexivity]. }
  - intros [v | v | v] [w | w | w]; cbn; try reflexivity.
    + apply Z.eqb_sym.
    + apply SFeqb_sym.
    + apply String.eqb_sym.
  - intros [v | v | v] [w | w | w]; cbn; congruence.
  - intros f g Hf. split.
    + destruct f as [v | v | v], g as [w | w | w]; cbn in *;
        try discriminate; try contradiction.
      * intros He. apply Z.eqb_eq in He. now subst.
      * intros He. apply string_eqb_eq in He. now subst.
    + intros <-. destruct f as [v | v | v]; cbn in *.
      * apply Z.eqb_refl.
      * contradiction.
      * apply string_eqb_refl.
Qed.

Lemma Field_equals_facts_witness :
  Field_equals (IntField 3) (StringField "3") = Field_equals (StringField "3") (IntField 3)
  /\ Field_type (FloatField float_10) = Field_type (FloatField float_10)
  /\ (Field_equals (StringField "a") (StringField "a") = true
      <-> StringField "a" = StringField "a").
Proof.
  destruct Field_equals_facts as (Hsym & Hclass & Hsame & _). split; [| split].
  - apply Hsym.
  - apply Hclass. reflexivity.
  - apply Hsame. discriminate.
Defined.

End FieldExtras.

Section ColumnExtras.

Lemma columnIndex_from_column names name_ :
  forall i j,
    columnIndex_from i names name_ = Column j ->
    exists k, j = (i + k)%nat
              /\ nth_error names k = Some name_
              /\ forall k', (k' < k)%nat -> nth_error names k' <> Some name_.
Proof.
  induction names as [| c cs IH]; intros i j; cbn; [discriminate |].
  destruct (string_eqb c name_) eqn:E.
  - intros [= <-]. apply string_eqb_eq in E. subst c.
    exists 0%nat. repeat split; [lia | lia].
  - intros Hj. destruct (IH _ _ Hj) as (k & -> & Hk & Hfirst).
    exists (S k). repeat split; [lia | exact Hk |].
    intros [| k'] Hlt; cbn.
    + intros [= ->]. now rewrite string_eqb_refl in E.
    + apply Hfirst. lia.
Qed.

Lemma columnIndex_from_none names name_ :
  forall i, columnIndex_from i names name_ = NoSuchColumn <-> ~ In name_ names.
Proof.
  induction names as [| c cs IH]; intros i; cbn; [tauto |].
  destruct (string_eqb c name_) eqn:E.
  - apply string_eqb_eq in E. split; [discriminate | tauto].
  - apply string_eqb_neq in E. rewrite IH. tauto.
Qed.

Lemma columnIndex_from_never_throws names name_ :
  forall i ex, columnIndex_from i names name_ <> ColumnThrows ex.
Proof.
  induction names as [| c cs IH]; intros i ex; cbn; [discriminate |].
  destruct (string_eqb c name_); [discriminate | apply IH].
Qed.

(** X5. [columnIndex] returns the number of the first column with the
    given name, and ends at its assertion exactly when no column has
    that name. *)
Theorem columnIndex_first_match (t : DenseTable) (name_ : string) :
  match columnIndex t name_ with
  | Column i =>
      fieldName t i = Ok name_
      /\ forall k, (k < i)%nat -> fieldName t k <> Ok name_
  | NoSuchColumn => ~ In name_ (columnNames t)
  | ColumnThrows _ => False
  end.
Proof.
  unfold columnIndex. destruct (columnIndex_from 0 (columnNames t) name_) eqn:E.
  - destruct (columnIndex_from_column _ _ _ _ E) as (k & -> & Hk & Hfirst).
    unfold fieldName. cbn. rewrite Hk. split; [reflexivity |].
    intros k' Hlt Hn. apply (Hfirst k' Hlt).
    destruct (nth_error (columnNames t) k'); congruence.
  - now apply (columnIndex_from_none _ _ 0%nat).
  - exact (columnIndex_from_never_throws _ _ _ _ E).
Qed.

(** X6. In a table whose column names are pairwise different, the name
    of column [i] is looked up as column [i]. *)
Theorem columnIndex_fieldName (t : DenseTable) (i : nat) (name_ : string) :
  NoDup (columnNames t) ->
  fieldName t i = Ok name_ ->
  columnIndex t name_ = Column i.
Proof.
  intros Hnd Hi. unfold fieldName in Hi.
  destruct (nth_error (columnNames t) i) as [n |] eqn:Hn; [| discriminate].
  injection Hi as ->.
  pose proof (columnIndex_first_match t name_) as Hc.
  destruct (columnIndex t name_) as [j | | ex]; [| | contradiction].
  - destruct Hc as [Hj _]. unfold fieldName in Hj.
    destruct (nth_error (columnNames t) j) as [n |] eqn:Hnj; [| discriminate].
    injection Hj as ->. f_equal.
    rewrite NoDup_nth_error in Hnd. symmetry. apply Hnd; [| congruence].
    apply nth_error_Some. congruence.
  - exfalso. apply Hc. eapply nth_error_In; eassumption.
Qed.

Lemma columnIndex_fieldName_witness :
  columnIndex mixed_table "name" = Column 1%nat.
Proof.
  apply columnIndex_fieldName.
  - repeat constructor; cbn; intuition discriminate.
  - reflexivity.
Defined.

Lemma columnType_from_index t names name_ :
  forall i,
    columnType_from t i names name_
    = match columnIndex_from i names name_ with
      | Column j =>
          match fieldType t j with
          | Ok tp => Column tp
          | Err _ => ColumnThrows out_of_range
          end
      | NoSuchColumn => NoSuchColumn
      | ColumnThrows ex => ColumnThrows ex
      end.
Proof.
  induction names as [| c cs IH]; intros i; cbn; [reflexivity |].
  destruct (string_eqb c name_); [| apply IH].
  unfold fieldType. now destruct (nth_error (columnTypes t) i).
Qed.

(** X7. [columnType(name)] is the type of the column that [columnIndex]
    finds for the name, and ends at its assertion when there is none. In
    a table with as many types as names it does not throw. *)
Theorem columnType_by_index (t : DenseTable) (name_ : string) :
  List.length (columnNames t) = List.length (columnTypes t) ->
  match columnIndex t name_ with
  | Column i => exists tp, fieldType t i = Ok tp /\ columnType t name_ = Column tp
  | _ => columnType t name_ = NoSuchColumn
  end.
Proof.
  intros Hlen. unfold columnType. rewrite columnType_from_index.
  pose proof (columnIndex_first_match t name_) as Hc. unfold columnIndex in *.
  destruct (columnIndex_from 0 (columnNames t) name_) as [i | | ex];
    [| reflexivity | contradiction].
  destruct Hc as [Hi _]. unfold fieldName in Hi. unfold fieldType.
  destruct (nth_error (columnTypes t) i) as [tp |] eqn:Ht.
  - now exists tp.
  - exfalso. apply nth_error_None in Ht.
    assert (Hlt : (i < List.length (columnNames t))%nat).
    { apply nth_error_Some. destruct (nth_error (columnNames t) i); congruence. }
    lia.
Qed.

Lemma columnType_by_index_witness :
  exists tp,
    fieldType mixed_table 2 = Ok tp /\ columnType mixed_table "price" = Column tp.
Proof. apply (columnType_by_index mixed_table "price"). reflexivity. Defined.

Lemma print_columns_ok get cols :
  (forall i, In i cols -> exists x, get i = Ok x) ->
  exists s, print_columns get cols = Ok s.
Proof.
  induction cols as [| i cols IH]; intros Hget; cbn; [now exists "" |].
  destruct (Hget i (or_introl eq_refl)) as [x ->].
  destruct IH as [s ->]; [intros j Hj; apply Hget; now right |].
  cbn. eauto.
Qed.

Lemma print_columns_err get cols f :
  (forall i, In i cols -> (exists x, get i = Ok x) \/ get i = Err f) ->
  (exists i, In i cols /\ get i = Err f) ->
  print_columns get cols = Err f.
Proof.
  induction cols as [| i cols IH]; intros Hget (j & Hj & Hf); [contradiction |].
  cbn. destruct (Hget i (or_introl eq_refl)) as [[x Hx] | Hx]; rewrite Hx; cbn;
    [| reflexivity].
  rewrite IH; [reflexivity | intros k Hk; apply Hget; now right |].
  destruct Hj as [<- | Hj]; [congruence | eauto].
Qed.

(** X8. [print] writes the table when it has at least as many column
    types as column names, and otherwise ends in [fieldType], at the
    first column without a type. *)
Theorem print_needs_types `{Platform} (t : DenseTable) :
  ((List.length (columnNames t) <= List.length (columnTypes t))%nat ->
   exists text, print t = Ok text)
  /\ ((List.length (columnTypes t) < List.length (columnNames t))%nat ->
      print t = Err ColumnOutOfRange).
Proof.
  unfold print, numColumns. split; intros Hlen.
  - destruct (print_columns_ok
                (fun i => result_bind (fieldType t i) (fun tp => Ok (show_FieldType tp)))
                (seq 0 (List.length (columnNames t)))) as [types ->].
    { intros i Hi. apply in_seq in Hi. unfold fieldType.
      destruct (nth_error (columnTypes t) i) eqn:E; cbn; [eauto |].
      apply nth_error_None in E. lia. }
    destruct (print_columns_ok (fieldName t) (seq 0 (List.length (columnNames t))))
      as [names ->].
    { intros i Hi. apply in_seq in Hi. unfold fieldName.
      destruct (nth_error (columnNames t) i) eqn:E; [eauto |].
      apply nth_error_None in E. lia. }
    cbn. eauto.
  - rewrite (print_columns_err _ _ ColumnOutOfRange); [reflexivity | |].
    + intros i _. unfold fieldType.
      destruct (nth_error (columnTypes t) i); cbn; eauto.
    + exists (List.length (columnTypes t)). split; [apply in_seq; lia |].
      unfold fieldType.
      now rewrite (proj2 (nth_error_None _ _) (Nat.le_refl _)).
Qed.

Lemma print_needs_types_witness :
  (exists text, @print decimal_platform mixed_table = Ok text)
  /\ @print decimal_platform
       {| name := "t"; columnNames := ["a"; "b"];
          columnTypes := [FIELD_TYPE_INT]; records := [[IntField 1]] |}
     = Err ColumnOutOfRange.
Proof.
  split.
  - apply (@print_needs_types decimal_platform mixed_table). cbn. lia.
  - apply (@print_needs_types decimal_platform). cbn. lia.
Defined.

End ColumnExtras.

(** ** The loader *)

Section LoadExtras.
Import StdMap StdMapFacts.
Context `{Platform}.

Lemma back_last {A} (v : list A) (x : A) :
  back v = Some x -> exists init, v = (init ++ [x])%list.
Proof.
  unfold back. induction v as [| a v IH]; cbn; [discriminate |].
  destruct v as [| b v].
  - intros [= ->]. now exists [].
  - intros Hb. destruct (IH Hb) as [init ->]. now exists (a :: init).
Qed.

Lemma modify_back_last {A} (f : A -> A) (init : list A) (x : A) :
  modify_back f (init ++ [x]) = (init ++ [f x])%list.
Proof.
  induction init as [| a init IH]; [reflexivity |].
  cbn [app modify_back]. rewrite IH.
  destruct init; reflexivity.
Qed.

Lemma index_record_tables flag record e e' :
  index_record flag record e = Ok e' ->
  tables e' = tables e /\ table_headers e' = table_headers e.
Proof.
  unfold index_record. intros Hi.
  repeat match type of Hi with
         | context [if ?b then _ else _] => destruct b
         end;
    repeat match type of Hi with
           | context [result_bind ?r _] =>
               destruct r; cbn [result_bind] in Hi; [| discriminate Hi]
           end;
    injection Hi as <-; split; reflexivity.
Qed.

(** What [load_row] does to the tables: the record goes to the end of
    the last table. *)
Lemma load_row_tables e flag l e' :
  load_row e flag l = Ok e' ->
  exists init currentTable record,
    tables e = (init ++ [currentTable])%list
    /\ numColumns currentTable = List.length l
    /\ parse_record (columnTypes currentTable) l = Ok record
    /\ tables e' = (init ++ [addRecord currentTable record])%list
    /\ table_headers e' = table_headers e.
Proof.
  unfold load_row. destruct (back (tables e)) as [t |] eqn:Hb; [| discriminate].
  destruct (Nat.eqb_spec (numColumns t) (List.length l)) as [Hn | Hn];
    cbn [negb]; [| discriminate].
  destruct (parse_record (columnTypes t) l) as [record |] eqn:Hp;
    cbn [result_bind]; [| discriminate].
  destruct (index_record flag record e) as [e1 |] eqn:Hi;
    cbn [result_bind]; [| discriminate].
  intros [= <-]. destruct (back_last _ _ Hb) as [init Hinit].
  destruct (index_record_tables _ _ _ _ Hi) as [Ht Hh].
  exists init, t, record. cbn. rewrite Ht, Hh, Hinit, modify_back_last. auto.
Qed.

Lemma load_header_tables e flag l names tys e' flag' :
  load_header e flag l names tys = Ok (e', flag') ->
  exists cur_table columnTypes_,
    nth_error l 1 = Some cur_table
    /\ parse_column_types tys = Some columnTypes_
    /\ (1 <= List.length names)%nat
    /\ List.length names = List.length tys
    /\ tables e' = (tables e ++ [new_DenseTable cur_table names columnTypes_])%list
    /\ table_headers e'
       = (table_headers e ++ [(cur_table, names, columnTypes_)])%list
    /\ flag' = table_flag cur_table flag.
Proof.
  unfold load_header.
  destruct (Nat.ltb_spec (List.length names) 1) as [| Hge]; [discriminate |].
  destruct (Nat.eqb_spec (List.length names) (List.length tys)) as [Heq |];
    cbn [negb]; [| discriminate].
  destruct (parse_column_types tys) as [columnTypes_ |]; [| discriminate].
  destruct (nth_error l 1) as [cur_table |]; [| discriminate].
  intros [= <- <-]. exists cur_table, columnTypes_. cbn. auto 10.
Qed.

Lemma parse_column_types_length tys columnTypes_ :
  parse_column_types tys = Some columnTypes_ ->
  List.length columnTypes_ = List.length tys.
Proof.
  revert columnTypes_. induction tys as [| c tys IH]; intros columnTypes_; cbn.
  - now intros [= <-].
  - destruct (if string_eqb c "STRING" then _ else _); [| discriminate].
    destruct (parse_column_types tys); [| discriminate].
    intros [= <-]. cbn. now rewrite (IH _ eq_refl).
Qed.

(** The fields [parse_record] returns have the types of the columns. *)
Lemma parse_record_types tys l record :
  parse_record tys l = Ok record ->
  map Field_type record = firstn (List.length l) tys
  /\ List.length record = List.length l.
Proof.
  revert tys record. induction l as [| x l IH]; intros tys record; cbn.
  - now intros [= <-].
  - destruct tys as [| tp tys]; [discriminate |].
    destruct (parse_record tys l) as [r |] eqn:Hr.
    + destruct (IH _ _ Hr) as [Ht Hl].
      destruct tp; cbn;
        [destruct (stoi x) | destruct (stof x) |]; cbn;
        try discriminate; intros [= <-]; cbn; now rewrite Ht, Hl.
    + destruct tp; cbn;
        [destruct (stoi x) | destruct (stof x) |]; cbn; discriminate.
Qed.

Lemma load_row_well_typed e flag l e' :
  Forall well_typed (tables e) ->
  load_row e flag l = Ok e' ->
  Forall well_typed (tables e').
Proof.
  intros Hwt Hr.
  destruct (load_row_tables _ _ _ _ Hr) as (init & t & record & Ht & Hn & Hp & Ht' & _).
  rewrite Ht in Hwt. rewrite Ht'. apply Forall_app in Hwt as [Hinit Hlast].
  apply Forall_app. split; [exact Hinit |].
  inversion Hlast as [| ? ? (Hlen & Hcols & Hrows) _]; subst.
  constructor; [| constructor]. repeat split; cbn; try assumption.
  apply Forall_app. split; [exact Hrows |]. constructor; [| constructor].
  destruct (parse_record_types _ _ _ Hp) as [Hty _].
  rewrite Hty, <- Hn. unfold numColumns. rewrite Hlen. apply firstn_all.
Qed.

Lemma load_header_well_typed e flag l names tys e' flag' :
  Forall well_typed (tables e) ->
  load_header e flag l names tys = Ok (e', flag') ->
  Forall well_typed (tables e').
Proof.
  intros Hwt Hh.
  destruct (load_header_tables _ _ _ _ _ _ _ Hh)
    as (n & tps & _ & Hp & Hcols & Hlen & Ht & _).
  rewrite Ht. apply Forall_app. split; [exact Hwt |].
  constructor; [| constructor]. repeat split; cbn; try assumption.
  - now rewrite (parse_column_types_length _ _ Hp).
  - constructor.
Qed.

(** An invariant of the engine is an invariant of the load, whether it
    ends or fails. *)
Lemma load_loop_invariant (I : ReferenceQueryEngine -> Prop) :
  (forall e flag l names tys e' flag',
      I e -> load_header e flag l names tys = Ok (e', flag') -> I e') ->
  (forall e flag l e', I e -> load_row e flag l = Ok e' -> I e') ->
  forall lines flag e, I e -> I (loaded (load_loop lines flag e)).
Proof.
  intros Hhead Hrow lines.
  induction lines as [| l lines IHrow IHhead] using lines_ind; intros flag e He.
  - exact He.
  - cbn [load_loop]. destruct l as [| l0 l]; [exact He |].
    destruct (string_eqb l0 "<TABLE>").
    + destruct lines as [| a [| b lines']]; try exact He.
      destruct (load_header e flag (l0 :: l) a b) as [[e1 flag1] | f] eqn:Hh;
        [| exact He].
      apply (IHhead a b lines' eq_refl). eapply Hhead; eassumption.
    + destruct (load_row e flag (l0 :: l)) as [e1 | f] eqn:Hr; [| exact He].
      apply IHrow. eapply Hrow; eassumption.
Qed.

(** X9. The schema invariant: in every table of the engine that a load
    into a fresh engine leaves, at its end or at a failure, there are as
    many column types as column names, at least one column, and every
    row has one field of the declared type per column. *)
Theorem loaded_tables_well_typed (garbage : int) (lines : list (list string)) :
  Forall well_typed
    (tables (loaded (loadTablesFromCSV garbage new_engine lines))).
Proof.
  apply (load_loop_invariant (fun e => Forall well_typed (tables e))).
  - intros e flag l names tys e' flag'. apply load_header_well_typed.
  - intros e flag l e'. apply load_row_well_typed.
  - constructor.
Qed.

(** X10. [table_headers] mirrors [tables]: after a load into a fresh
    engine, at its end or at a failure, it holds the name, the column
    names and the column types of each table, in the same order. *)
Theorem loaded_table_headers (garbage : int) (lines : list (list string)) :
  let e := loaded (loadTablesFromCSV garbage new_engine lines) in
  table_headers e
  = map (fun t => (name t, columnNames t, columnTypes t)) (tables e).
Proof.
  apply (load_loop_invariant
           (fun e => table_headers e
                     = map (fun t => (name t, columnNames t, columnTypes t))
                         (tables e))).
  - intros e flag l names tys e' flag' He Hh.
    destruct (load_header_tables _ _ _ _ _ _ _ Hh)
      as (n & tps & _ & _ & _ & _ & Ht & Hhd & _).
    rewrite Ht, Hhd, He, map_app. reflexivity.
  - intros e flag l e' He Hr.
    destruct (load_row_tables _ _ _ _ Hr) as (init & t & record & Ht & _ & _ & Ht' & Hhd).
    rewrite Hhd, He, Ht, Ht', !map_app. reflexivity.
  - reflexivity.
Qed.

End LoadExtras.

(** ** Printing a table and loading the text: the round trip *)

Section RoundTripClaim.
Context `{Platform}.

(** The column names of the first table stay through a load. *)
Lemma first_table_names (columnNames_ : list string) lines flag e :
  (exists t rest, tables e = t :: rest /\ columnNames t = columnNames_) ->
  exists t rest,
    tables (loaded (load_loop lines flag e)) = t :: rest
    /\ columnNames t = columnNames_.
Proof.
  apply (load_loop_invariant
           (fun e => exists t rest,
                tables e = t :: rest /\ columnNames t = columnNames_)).
  - clear. intros e flag l names tys e' flag' (t & rest & Ht & Hn) Hh.
    destruct (load_header_tables _ _ _ _ _ _ _ Hh)
      as (n & tps & _ & _ & _ & _ & Ht' & _).
    rewrite Ht', Ht. eexists. eexists. split; [reflexivity | exact Hn].
  - clear. intros e flag l e' (t & rest & Ht & Hn) Hr.
    destruct (load_row_tables _ _ _ _ Hr)
      as (init & cur & record & Hti & _ & _ & Ht' & _).
    rewrite Ht'. rewrite Ht in Hti. destruct init as [| a init]; cbn in Hti.
    + injection Hti as -> _. exists (addRecord cur record), [].
      split; [reflexivity | exact Hn].
    + injection Hti as -> _. eexists. eexists. split; [reflexivity | exact Hn].
Qed.

(** C3, as the code has it. Take a table with at least one column and
    as many column types as column names, whose name, column names and
    string fields hold neither a comma nor a line end, whose rows have
    one field of the declared type per column, with [int] fields in
    range and [float] fields that [stof] reads back from their text,
    whose rows are not written with the table marker in front, and whose
    rows the loader can index. [print] writes its text. When the type
    line and the name line of that text are exchanged, the loader, run
    on a fresh engine, ends with exactly this table. Run on the text as
    printed, the loader ends with this table exactly when every column
    is named by the name of its type, the two lines being the same then;
    and when some column name is none of [STRING], [INT] and [FLOAT] it
    ends at the scan of the type names with nothing loaded. *)
Theorem print_then_load_with_header_exchanged
    (garbage : int) (t : DenseTable) :
  prints_faithfully t ->
  Forall (indexable (table_flag (name t) garbage)) (records t) ->
  exists text,
    print t = Ok text
    /\ (exists e,
          loadTablesFromCSV garbage new_engine
            (exchange_header_lines (csvLines text))
          = Done e (table_flag (name t) garbage)
          /\ tables e = [t])
    /\ ((exists e flag,
           loadTablesFromCSV garbage new_engine (csvLines text) = Done e flag
           /\ tables e = [t])
        <-> columnNames t = map show_FieldType (columnTypes t))
    /\ (Exists (fun c => ~ known_type_name c) (columnNames t) ->
        loadTablesFromCSV garbage new_engine (csvLines text)
        = Abort UnknownColumnType new_engine).
Proof.
  intros Hprints Hidx.
  destruct (load_exchanged_text garbage t Hprints Hidx)
    as (text & e & Hprint & Hlines & Hload & Htables).
  destruct Hprints as (_ & _ & Hcols & Hlen & _).
  exists text. split; [exact Hprint |].
  split; [exists e; split; assumption |]. split; [split |].
  - intros (e' & flag' & Hload' & Htables').
    rewrite Hlines in Hload'. unfold loadTablesFromCSV in Hload'.
    cbn [load_loop] in Hload'.
    change (string_eqb "<TABLE>" "<TABLE>") with true in Hload'. cbv iota in Hload'.
    destruct (load_header new_engine garbage ["<TABLE>"; name t]
                (map show_FieldType (columnTypes t)) (columnNames t))
      as [[e1 flag1] | f] eqn:Hh; [| discriminate Hload'].
    destruct (load_header_tables _ _ _ _ _ _ _ Hh)
      as (n & tps & _ & _ & _ & _ & Ht1 & _).
    destruct (first_table_names (map show_FieldType (columnTypes t))
                (map (map Field_print) (records t)) flag1 e1)
      as (t' & rest & Ht' & Hn).
    { rewrite Ht1. eexists. eexists. split; reflexivity. }
    rewrite Hload' in Ht'. cbn [loaded] in Ht'. rewrite Htables' in Ht'.
    injection Ht' as <- _. exact Hn.
  - intros Heq. exists e, (table_flag (name t) garbage).
    split; [| exact Htables]. rewrite <- Hload, Hlines.
    unfold exchange_header_lines. now rewrite Heq.
  - intros Hbad. rewrite Hlines. unfold loadTablesFromCSV. cbn [load_loop].
    change (string_eqb "<TABLE>" "<TABLE>") with true. cbv iota.
    unfold load_header. rewrite length_map, <- Hlen.
    destruct (Nat.ltb_spec (List.length (columnNames t)) 1) as [Hlt | _]; [lia |].
    rewrite Nat.eqb_refl. cbn [negb].
    now rewrite (proj2 (parse_column_types_none (columnNames t)) Hbad).
Qed.

End RoundTripClaim.

Section RoundTripWitnesses.

Lemma print_then_load_with_header_exchanged_witness :
  exists text,
    @print decimal_platform mixed_table = Ok text
    /\ (exists e,
          @loadTablesFromCSV decimal_platform 7 new_engine
            (exchange_header_lines (csvLines text))
          = Done e 7
          /\ tables e = [mixed_table])
    /\ @loadTablesFromCSV decimal_platform 7 new_engine (csvLines text)
       = Abort UnknownColumnType new_engine.
Proof.
  destruct (@print_then_load_with_header_exchanged decimal_platform 7 mixed_table)
    as (text & Hprint & Hload & _ & Hprinted).
  - split; [reflexivity |]. split; [repeat constructor |].
    split; [cbn; lia |]. split; [reflexivity |].
    repeat constructor; try (intros f [= <-]; vm_compute; discriminate).
  - repeat constructor; exists new_engine; reflexivity.
  - exists text. split; [exact Hprint |]. split; [exact Hload |].
    apply Hprinted. constructor. unfold known_type_name. cbn.
    intros [Hc | [Hc | Hc]]; discriminate Hc.
Defined.

(** A table whose only column is named by its type holds the same
    header lines in both orders, and its text is loaded as printed. *)
Lemma one_type_named_column :
  exists text e flag,
    @print decimal_platform type_named_table = Ok text
    /\ @loadTablesFromCSV decimal_platform 7 new_engine (csvLines text)
       = Done e flag
    /\ tables e = [type_named_table].
Proof.
  eexists. eexists. eexists. repeat split; vm_compute; reflexivity.
Qed.

(** C3 as the specification words it fails twice. On [one_int_table],
    a table without any [float]: the text [print] writes for it has the
    type line [INT] in front of the name line [a], the loader takes
    [INT] for the column name and [a] for the column type, and ends at
    the scan of the type names with no table loaded; the table returned
    by [exe] for [two_stocks_text] fares the same. On
    [float_column_table], whose column is named [FLOAT] so that the
    order of the two lines plays no part: its value, the [float]
    nearest to 3.1415927, is finite with the exponent 1 and is written
    with six digits, as 3.14159; the text is loaded, and the table
    loaded holds the [float] nearest to 3.14159, another value. *)
Lemma printed_table_is_not_loaded :
  (exists text,
     @print decimal_platform one_int_table = Ok text
     /\ csvLines text = [["<TABLE>"; "t"]; ["INT"]; ["a"]; ["1"]]
     /\ @loadTablesFromCSV decimal_platform 0 new_engine (csvLines text)
        = Abort UnknownColumnType new_engine)
  /\ (exists text,
        @print decimal_platform (fst (exe (loaded (load_text 0 two_stocks_text))))
        = Ok text
        /\ @loadTablesFromCSV decimal_platform 0 new_engine (csvLines text)
           = Abort UnknownColumnType new_engine)
  /\ (exists text e,
        @print decimal_platform float_column_table = Ok text
        /\ csvLines text = [["<TABLE>"; "t"]; ["FLOAT"]; ["FLOAT"]; ["3.14159"]]
        /\ exchange_header_lines (csvLines text) = csvLines text
        /\ @loadTablesFromCSV decimal_platform 7 new_engine (csvLines text)
           = Done e 7
        /\ map records (tables e)
           = [[[FloatField (S754_finite false 13176784 (-22))]]]
        /\ tables e <> [float_column_table]).
Proof.
  split; [| split].
  - eexists. repeat split; vm_compute; reflexivity.
  - eexists. repeat split; vm_compute; reflexivity.
  - eexists. eexists. split; [vm_compute; reflexivity |].
    split; [vm_compute; reflexivity |]. split; [reflexivity |].
    split; [vm_compute; reflexivity |]. split; [reflexivity |].
    cbn. discriminate.
Qed.

End RoundTripWitnesses.

Section LoadSteps.
Import StdMap StdMapFacts.
Context `{Platform}.

(** X11. A load that fails has loaded the lines in front of the failing
    one: the engine at the failure is the engine of a load, to its end,
    of a first part of the lines, and the line behind that part fails
    at once. *)
Theorem abort_after_loaded_prefix
    (lines : list (list string)) (flag : int) (e : ReferenceQueryEngine)
    (f : Failure) (e' : ReferenceQueryEngine) :
  load_loop lines flag e = Abort f e' ->
  exists pre l rest flag',
    lines = (pre ++ l :: rest)%list
    /\ load_loop pre flag e = Done e' flag'
    /\ load_loop (l :: rest) flag' e' = Abort f e'
    /\ (l = []
        \/ (exists l0 l', l = l0 :: l' /\ string_eqb l0 "<TABLE>" = false
                          /\ load_row e' flag' l = Err f)
        \/ (exists l0 l', l = l0 :: l' /\ string_eqb l0 "<TABLE>" = true
                          /\ match rest with
                             | names :: tys :: _ =>
                                 load_header e' flag' l names tys = Err f
                             | _ => f = TruncatedHeader
                             end)).
Proof.
  revert flag e.
  induction lines as [| l lines IHrow IHhead] using lines_ind; intros flag e Hl.
  - discriminate.
  - pose proof Hl as Hl0. cbn [load_loop] in Hl.
    destruct l as [| l0 l].
    { injection Hl as <- <-. exists [], [], lines, flag. auto. }
    destruct (string_eqb l0 "<TABLE>") eqn:Hm.
    + destruct lines as [| a [| b lines']].
      * injection Hl as <- <-. exists [], (l0 :: l), [], flag.
        repeat split; auto. right. right. exists l0, l. auto.
      * injection Hl as <- <-. exists [], (l0 :: l), [a], flag.
        repeat split; auto. right. right. exists l0, l. auto.
      * destruct (load_header e flag (l0 :: l) a b) as [[e1 flag1] | f1] eqn:Hh.
        -- destruct (IHhead a b lines' eq_refl _ _ Hl)
             as (pre & l1 & rest & flag' & -> & Hpre & Hfail & Hkind).
           exists ((l0 :: l) :: a :: b :: pre), l1, rest, flag'.
           repeat split; auto. cbn [app load_loop]. now rewrite Hm, Hh.
        -- injection Hl as <- <-. exists [], (l0 :: l), (a :: b :: lines'), flag.
           repeat split; auto. right. right. exists l0, l. auto.
    + destruct (load_row e flag (l0 :: l)) as [e1 | f1] eqn:Hr.
      * destruct (IHrow _ _ Hl) as (pre & l1 & rest & flag' & -> & Hpre & Hfail & Hkind).
        exists ((l0 :: l) :: pre), l1, rest, flag'.
        repeat split; auto. cbn [app load_loop]. now rewrite Hm, Hr.
      * injection Hl as <- <-. exists [], (l0 :: l), lines, flag.
        repeat split; auto. right. left. exists l0, l. auto.
Qed.

End LoadSteps.

Lemma abort_after_loaded_prefix_witness :
  exists pre l rest flag',
    (trades_lines ++ ["2"; "x"; "BBB"; "1"] :: [["3"; "13"; "CCC"; "1"]])%list
    = (pre ++ l :: rest)%list
    /\ @load_loop decimal_platform pre 0 new_engine
       = Done (loaded (@load_loop decimal_platform trades_lines 0 new_engine)) flag'
    /\ @load_loop decimal_platform (l :: rest) flag'
         (loaded (@load_loop decimal_platform trades_lines 0 new_engine))
       = Abort (Uncaught invalid_argument)
           (loaded (@load_loop decimal_platform trades_lines 0 new_engine)).
Proof.
  destruct (@abort_after_loaded_prefix decimal_platform
              (trades_lines ++ ["2"; "x"; "BBB"; "1"] :: [["3"; "13"; "CCC"; "1"]])%list
              0 new_engine (Uncaught invalid_argument)
              (loaded (@load_loop decimal_platform trades_lines 0 new_engine)))
    as (pre & l & rest & flag' & Hsplit & Hpre & Hfail & _).
  - reflexivity.
  - exists pre, l, rest, flag'. auto.
Defined.

Section LoadIndex.
Import StdMap StdMapFacts.
Context `{Platform}.

Lemma load_loop_app_abort pre rest :
  forall flag e f e',
    load_loop pre flag e = Abort f e' ->
    f <> TruncatedHeader ->
    load_loop (pre ++ rest) flag e = Abort f e'.
Proof.
  induction pre as [| l pre IHrow IHhead] using lines_ind; intros flag e f e' Hpre Hf.
  - discriminate.
  - cbn [app load_loop] in Hpre |- *. destruct l as [| l0 l]; [exact Hpre |].
    destruct (string_eqb l0 "<TABLE>").
    + destruct pre as [| a [| b pre']];
        try (injection Hpre as <- _; contradiction).
      cbn [app]. destruct (load_header e flag (l0 :: l) a b) as [[e1 flag1] | f1];
        [| exact Hpre].
      now apply (IHhead a b pre' eq_refl).
    + destruct (load_row e flag (l0 :: l)) as [e1 | f1]; [| exact Hpre].
      now apply IHrow.
Qed.

(** X12. A document can be loaded in two parts: when the first part
    loads to its end, loading the whole is loading the second part with
    the engine and the flag the first part left; when the first part
    fails, and not for want of header lines, the whole fails in the same
    way with the same engine. *)
Theorem load_in_two_parts
    (pre rest : list (list string)) (flag : int) (e : ReferenceQueryEngine) :
  match load_loop pre flag e with
  | Done e1 flag1 => load_loop (pre ++ rest) flag e = load_loop rest flag1 e1
  | Abort f e1 =>
      f <> TruncatedHeader -> load_loop (pre ++ rest) flag e = Abort f e1
  end.
Proof.
  destruct (load_loop pre flag e) as [e1 flag1 | f e1] eqn:Hpre.
  - now apply load_loop_app.
  - now apply load_loop_app_abort.
Qed.

Lemma index_extends_refl e : index_extends e e.
Proof.
  repeat split; auto. intros n ts Hf. exists []. now rewrite app_nil_r.
Qed.

Lemma index_extends_trans e1 e2 e3 :
  index_extends e1 e2 -> index_extends e2 e3 -> index_extends e1 e3.
Proof.
  intros (Hc & Hp & Hv & Ht) (Hc' & Hp' & Hv' & Ht'). repeat split; auto.
  intros n ts Hf. destruct (Ht _ _ Hf) as [m1 H1]. destruct (Ht' _ _ H1) as [m2 H2].
  exists (m1 ++ m2)%list. now rewrite app_assoc.
Qed.

Lemma index_extends_same e e' :
  name_to_class e' = name_to_class e ->
  name_to_date_price e' = name_to_date_price e ->
  name_to_date_volume e' = name_to_date_volume e ->
  name_to_trades e' = name_to_trades e ->
  index_extends e e'.
Proof.
  intros Hc Hp Hv Ht. unfold index_extends. rewrite Hc, Hp, Hv, Ht.
  apply index_extends_refl.
Qed.

Lemma record_trade_extends m name_ t name' trades :
  find name' m = Some trades ->
  exists more, find name' (record_trade name_ t m) = Some (trades ++ more)%list.
Proof.
  intros Hf. unfold record_trade. destruct (find name_ m) as [old |] eqn:Ho.
  - rewrite find_modify, Hf. destruct (cmp name' name_); cbn.
    + now exists [t].
    + exists []. now rewrite app_nil_r.
    + exists []. now rewrite app_nil_r.
  - rewrite find_insert_other by congruence. exists []. now rewrite app_nil_r, Hf.
Qed.

Lemma record_day_extends m name_ day x name' day' p :
  series_ordered m ->
  series_at m name' day' = Some p ->
  series_at (record_day name_ day x m) name' day' = Some p.
Proof. intros Ho Hp. rewrite series_at_record_day by assumption. now rewrite Hp. Qed.

Lemma index_record_extends flag record e e' :
  engine_ordered e ->
  index_record flag record e = Ok e' ->
  index_extends e e'.
Proof.
  intros (Hoc & Hop & Hov & Hot) Hi. unfold index_record in Hi.
  destruct (index_extends_refl e) as (Rc & Rp & Rv & Rt).
  repeat match type of Hi with
         | context [if ?b then _ else _] => destruct b
         end;
    repeat match type of Hi with
           | context [result_bind ?r _] =>
               destruct r; cbn [result_bind] in Hi; [| discriminate Hi]
           end;
    injection Hi as <-; repeat split; cbn; try assumption.
  - intros n c Hf. now apply find_insert_present.
  - intros n d p. now apply record_day_extends.
  - intros n d p. now apply record_day_extends.
  - intros n ts. apply record_trade_extends.
Qed.

Lemma load_row_extends e flag l e' :
  engine_ordered e -> load_row e flag l = Ok e' -> index_extends e e'.
Proof.
  intros Ho Hr. unfold load_row in Hr.
  destruct (back (tables e)); [| discriminate].
  destruct (negb _); [discriminate |].
  destruct (parse_record _ l) as [record |]; cbn [result_bind] in Hr; [| discriminate].
  destruct (index_record flag record e) as [e1 |] eqn:Hi; cbn [result_bind] in Hr;
    [| discriminate].
  injection Hr as <-.
  eapply index_extends_trans; [exact (index_record_extends _ _ _ _ Ho Hi) |].
  now apply index_extends_same.
Qed.

Lemma load_loop_extends lines flag e :
  engine_ordered e ->
  engine_ordered (loaded (load_loop lines flag e))
  /\ index_extends e (loaded (load_loop lines flag e)).
Proof.
  intros Ho.
  apply (load_loop_invariant (fun e' => engine_ordered e' /\ index_extends e e')).
  - intros e1 flag1 l names tys e2 flag2 [Ho1 Hx] Hh.
    destruct (load_header_maps _ _ _ _ _ _ _ Hh) as (Hc & Hp & Hv & Ht).
    split.
    + unfold engine_ordered. now rewrite Hc, Hp, Hv, Ht.
    + eapply index_extends_trans; [exact Hx |]. now apply index_extends_same.
  - intros e1 flag1 l e2 [Ho1 Hx] Hr. split.
    + exact (load_row_ordered _ _ _ _ Ho1 Hr).
    + eapply index_extends_trans; [exact Hx |]. exact (load_row_extends _ _ _ _ Ho1 Hr).
  - split; [exact Ho | apply index_extends_refl].
Qed.

(** X13. Loading never takes anything out of the index: the engine that
    a load leaves, at its end or at a failure, holds for every name the
    class it held, for every name and day the price and the volume it
    held, and for every name the trades it held, in front of the trades
    that came since. *)
Theorem load_extends_index
    (lines : list (list string)) (flag : int) (e : ReferenceQueryEngine) :
  engine_ordered e ->
  index_extends e (loaded (load_loop lines flag e)).
Proof. intros Ho. now apply load_loop_extends. Qed.

(** X14. Trades are kept in the order of the input. Let the lines [pre]
    be loaded, with [cur_table_flag] at [TRADES], and let the next line
    be read as the trade [(id, day, quant)] of [name_]. At the end of
    the load the trades of [name_] are those it had after [pre], then
    this trade, then those of later lines. *)
Theorem trade_row_is_appended
    (garbage : int) (pre : list (list string)) (l : list string)
    (rest : list (list string)) (e : ReferenceQueryEngine)
    (currentTable : DenseTable) (id day quant : int) (name_ : string)
    (others : list Field) (e' : ReferenceQueryEngine) (flag' : int) :
  load_loop pre garbage new_engine = Done e TRADES ->
  back (tables e) = Some currentTable ->
  parse_record (columnTypes currentTable) l
    = Ok (IntField id :: IntField day :: StringField name_
            :: IntField quant :: others) ->
  loadTablesFromCSV garbage new_engine (pre ++ l :: rest) = Done e' flag' ->
  exists later,
    find name_ (name_to_trades e')
    = Some ((match find name_ (name_to_trades e) with
             | Some earlier => earlier
             | None => []
             end) ++ (id, day, quant) :: later)%list.
Proof.
  intros Hpre Hback Hparse Hload. unfold loadTablesFromCSV in Hload.
  rewrite (load_loop_app pre (l :: rest) _ _ _ _ Hpre) in Hload.
  pose proof (load_loop_ordered pre _ _ _ _ new_engine_ordered Hpre) as Ho.
  destruct l as [| x l]; [cbn in Hparse; discriminate |].
  cbn [load_loop] in Hload.
  rewrite (parsed_int_not_marker _ _ _ _ _ Hparse) in Hload.
  destruct (load_row e TRADES (x :: l)) as [e1 | f] eqn:Hrow; [| discriminate].
  pose proof (load_row_ordered _ _ _ _ Ho Hrow) as Ho1.
  destruct (load_loop_extends rest TRADES e1 Ho1) as [_ (_ & _ & _ & Hkeep)].
  rewrite Hload in Hkeep. cbn [loaded] in Hkeep.
  assert (H1 : find name_ (name_to_trades e1)
               = Some ((match find name_ (name_to_trades e) with
                        | Some earlier => earlier
                        | None => []
                        end) ++ [(id, day, quant)])%list).
  { unfold load_row in Hrow. rewrite Hback in Hrow.
    destruct (negb _); [discriminate |].
    rewrite Hparse in Hrow. cbn in Hrow. injection Hrow as <-. cbn.
    unfold record_trade. destruct Ho as (_ & _ & _ & Hot).
    destruct (find name_ (name_to_trades e)) as [earlier |] eqn:He.
    - rewrite find_modify, cmp_refl, He. reflexivity.
    - now apply find_insert_absent. }
  destruct (Hkeep _ _ H1) as [later Hlater]. exists later.
  now rewrite Hlater, <- app_assoc.
Qed.

(** X15. The first class recorded for an instrument stays. Let the
    lines [pre] be loaded, with [cur_table_flag] at [TRADABLE], and let
    the next line be read as the instrument [name_] of class
    [asset_class]. At the end of the load the class of [name_] is the
    one it had after [pre] if it had one, and [asset_class] if not. *)
Theorem first_class_stays
    (garbage : int) (pre : list (list string)) (l : list string)
    (rest : list (list string)) (e : ReferenceQueryEngine)
    (currentTable : DenseTable) (name_ asset_class : string)
    (others : list Field) (e' : ReferenceQueryEngine) (flag' : int) :
  load_loop pre garbage new_engine = Done e TRADABLE ->
  back (tables e) = Some currentTable ->
  name_ <> "<TABLE>" ->
  parse_record (columnTypes currentTable) l
    = Ok (StringField name_ :: StringField asset_class :: others) ->
  loadTablesFromCSV garbage new_engine (pre ++ l :: rest) = Done e' flag' ->
  find name_ (name_to_class e')
  = Some (match find name_ (name_to_class e) with
          | Some c => c
          | None => asset_class
          end).
Proof.
  intros Hpre Hback Hname Hparse Hload. unfold loadTablesFromCSV in Hload.
  rewrite (load_loop_app pre (l :: rest) _ _ _ _ Hpre) in Hload.
  pose proof (load_loop_ordered pre _ _ _ _ new_engine_ordered Hpre) as Ho.
  destruct l as [| x l]; [cbn in Hparse; discriminate |].
  assert (Hx : x = name_).
  { cbn in Hparse. destruct (columnTypes currentTable) as [| tp tps]; [discriminate |].
    destruct (parse_record tps l); destruct tp; cbn in Hparse;
      try destruct (stoi x); try destruct (stof x); cbn in Hparse; congruence. }
  subst x. cbn [load_loop] in Hload.
  rewrite (proj2 (string_eqb_neq _ _) Hname) in Hload.
  destruct (load_row e TRADABLE (name_ :: l)) as [e1 | f] eqn:Hrow; [| discriminate].
  pose proof (load_row_ordered _ _ _ _ Ho Hrow) as Ho1.
  destruct (load_loop_extends rest TRADABLE e1 Ho1) as [_ (Hkeep & _)].
  rewrite Hload in Hkeep. cbn [loaded] in Hkeep. apply Hkeep.
  unfold load_row in Hrow. rewrite Hback in Hrow.
  destruct (negb _); [discriminate |].
  rewrite Hparse in Hrow. cbn in Hrow. injection Hrow as <-. cbn.
  destruct Ho as (Hoc & _).
  destruct (find name_ (name_to_class e)) as [c |] eqn:Hc.
  - now apply find_insert_present.
  - now apply find_insert_absent.
Qed.

(** X16. A document that loads into a fresh engine is empty or starts
    with a [<TABLE>] line and two more lines. With an empty first line
    the load fails at the first assertion, with any other first line
    that is not a [<TABLE>] line at the assertion that a table exists,
    and nothing is stored. *)
Theorem load_starts_with_header (garbage : int) (lines : list (list string)) :
  (forall e flag,
     loadTablesFromCSV garbage new_engine lines = Done e flag ->
     lines = []
     \/ exists l0 l columnNames_ columnTypeNames rest,
          lines = (l0 :: l) :: columnNames_ :: columnTypeNames :: rest
          /\ string_eqb l0 "<TABLE>" = true)
  /\ (forall rest,
        lines = [] :: rest ->
        loadTablesFromCSV garbage new_engine lines = Abort EmptyLine new_engine)
  /\ (forall l0 l rest,
        lines = (l0 :: l) :: rest ->
        string_eqb l0 "<TABLE>" = false ->
        loadTablesFromCSV garbage new_engine lines
        = Abort NoActiveTable new_engine).
Proof.
  unfold loadTablesFromCSV. split; [| split].
  - intros e flag. destruct lines as [| [| l0 l] lines]; cbn [load_loop].
    + now left.
    + discriminate.
    + destruct (string_eqb l0 "<TABLE>") eqn:Hm.
      * destruct lines as [| a [| b lines']]; try discriminate.
        intros _. right. now exists l0, l, a, b, lines'.
      * discriminate.
  - intros rest ->. reflexivity.
  - intros l0 l rest -> Hm. cbn [load_loop]. now rewrite Hm.
Qed.

End LoadIndex.

(** ** The query *)

Section QueryExtras.
Import StdMap StdMapFacts.

(** X17. The two scans, exactly: on a series in key order, the price
    loop leaves the flag cleared when and only when a day from 13 to 268
    holds a price above 299.0, and the volume loop when and only when a
    day from 13 to 268 holds a volume below 10.0. *)
Theorem validity_scans_exact (prices volumes : list (int * float)) :
  ordered prices ->
  ordered volumes ->
  (price_loop (lower_bound 13 prices) true = false <->
   exists d p, 13 <= d <= 268 /\ find d prices = Some p /\ gt_299 p = true)
  /\ (volume_loop (lower_bound 13 volumes) true = false <->
      exists d v, 13 <= d <= 268 /\ find d volumes = Some v /\ lt_10 v = true).
Proof.
  intros Hp Hv. split.
  - now apply price_scan_false_iff.
  - now apply volume_scan_false_iff.
Qed.

(** X18. An instrument that passes neither check is not counted. For a
    stock or bond with trades whose price check does not pass (a price
    above 299.0 on a day from 13 to 268, or no price series and the flag
    cleared on entry) and whose volume check does not pass either (a
    volume below 10.0 on a day from 13 to 268, or no volume series),
    the iteration leaves both counters as they were and the flag
    cleared. *)
Theorem failing_instrument_not_counted
    (e : ReferenceQueryEngine) (name_ asset_class : string) (loc : Locals)
    (trades : list Trade) :
  asset_class = "stock" \/ asset_class = "bond" ->
  find name_ (name_to_trades e) = Some trades ->
  (find name_ (name_to_date_price e) = None /\ valid_flag loc = false)
  \/ (exists prices,
        find name_ (name_to_date_price e) = Some prices /\ ordered prices
        /\ exists d p, 13 <= d <= 268 /\ find d prices = Some p /\ gt_299 p = true) ->
  find name_ (name_to_date_volume e) = None
  \/ (exists volumes,
        find name_ (name_to_date_volume e) = Some volumes /\ ordered volumes
        /\ exists d v, 13 <= d <= 268 /\ find d volumes = Some v /\ lt_10 v = true) ->
  fst (exe_body (name_, asset_class) loc e) = set_valid_flag false loc.
Proof.
  intros Hc Ht Hprice Hvolume.
  rewrite exe_body_run, (class_is_queried _ Hc), Ht.
  destruct Hprice as [[Hp Hflag] | (prices & Hp & Hop & Hbad)]; rewrite Hp; cbn.
  - rewrite Hflag.
    destruct Hvolume as [Hv | (volumes & Hv & Hov & Hbadv)]; rewrite Hv; cbn.
    + rewrite Hflag. destruct loc; cbn in *; now subst.
    + rewrite (proj2 (volume_scan_false_iff _ Hov) Hbadv). reflexivity.
  - rewrite (proj2 (price_scan_false_iff _ Hop) Hbad).
    destruct Hvolume as [Hv | (volumes & Hv & Hov & Hbadv)]; rewrite Hv; cbn.
    + reflexivity.
    + rewrite (proj2 (volume_scan_false_iff _ Hov) Hbadv). reflexivity.
Qed.

Lemma fold_left_fixed {A S} (f : S -> A -> S) (l : list A) (s : S) :
  Forall (fun x => f s x = s) l -> fold_left f l s = s.
Proof.
  induction 1 as [| x l Hx _ IH]; cbn; [reflexivity |]. now rewrite Hx.
Qed.

(** X19. With nothing to query there is nothing to report: when every
    instrument of [name_to_class] has a class other than [stock] and
    [bond] or has no trades (so also when there are no instruments or no
    trades at all), [exe] returns the table without rows. *)
Theorem nothing_queried_no_rows (e : ReferenceQueryEngine) :
  Forall (fun ite =>
            (snd ite <> "stock" /\ snd ite <> "bond")
            \/ find (fst ite) (name_to_trades e) = None)
         (name_to_class e) ->
  fst (exe e)
  = new_DenseTable "asset-class_counts" ["asset-class"; "count"]
      [FIELD_TYPE_STRING; FIELD_TYPE_INT].
Proof.
  intros Hall. rewrite exe_run, exe_loop_run. cbn [fst].
  rewrite fold_left_fixed; [reflexivity |].
  eapply Forall_impl; [| exact Hall]. intros [name_ asset_class] Hskip.
  rewrite exe_body_run. cbn [fst snd] in *. destruct Hskip as [[Hs Hb] | Ht].
  - apply string_eqb_neq in Hs, Hb. now rewrite Hs, Hb.
  - rewrite Ht. now destruct (negb _ && negb _).
Qed.

Lemma add_size_range (cnt : int) (size : nat) :
  in_int_range (add_size cnt size) = true.
Proof.
  unfold in_int_range, add_size, int_of_size_t, INT_MIN, INT_MAX.
  pose proof (Z.mod_pos_bound
                ((size_t_of_int cnt + Z.of_nat size) mod 2 ^ 64 + 2 ^ 31) (2 ^ 32)
                ltac:(lia)) as Hb.
  apply andb_true_iff. split; apply Z.leb_le; lia.
Qed.

(** X20. [cnt += size] on an [int] counter: the result is the sum when
    the sum fits an [int], for a counter that is not negative. *)
Theorem add_size_exact (cnt : int) (size : nat) :
  0 <= cnt ->
  cnt + Z.of_nat size <= INT_MAX ->
  add_size cnt size = cnt + Z.of_nat size.
Proof.
  unfold add_size, int_of_size_t, size_t_of_int, INT_MAX. intros Hc Hs.
  rewrite (Z.mod_small cnt) by lia.
  rewrite (Z.mod_small (cnt + Z.of_nat size)) by lia.
  rewrite Z.mod_small by lia. lia.
Qed.

Lemma exe_body_range ite loc e :
  in_int_range (valid_stock_cnt loc) = true ->
  in_int_range (valid_bond_cnt loc) = true ->
  in_int_range (valid_stock_cnt (fst (exe_body ite loc e))) = true
  /\ in_int_range (valid_bond_cnt (fst (exe_body ite loc e))) = true.
Proof.
  intros Hs Hb. destruct ite as [name_ asset_class]. rewrite exe_body_run.
  cbn [fst]. unfold count_trades.
  repeat match goal with
         | |- context [if ?b then _ else _] => destruct b
         | |- context [match ?o with Some _ => _ | None => _ end] => destruct o
         end; cbn; auto using add_size_range.
Qed.

(** X21. Both counters of [exe] are [int] values at the end of the
    loop, whatever the engine holds. *)
Theorem exe_counters_in_range (e : ReferenceQueryEngine) :
  in_int_range (valid_stock_cnt (fst (exe_loop e))) = true
  /\ in_int_range (valid_bond_cnt (fst (exe_loop e))) = true.
Proof.
  rewrite exe_loop_run. cbn [fst].
  assert (Hinit : in_int_range (valid_stock_cnt exe_init) = true
                  /\ in_int_range (valid_bond_cnt exe_init) = true)
    by (split; reflexivity).
  revert Hinit. generalize exe_init.
  induction (name_to_class e) as [| ite range IH]; intros loc [Hs Hb]; cbn.
  - auto.
  - apply IH. now apply exe_body_range.
Qed.

End QueryExtras.

(** ** The driver *)

Section DriverExtras.
Context `{Platform}.

Lemma print_result_table (loc : Locals) :
  print (result_table loc)
  = Ok ("<TABLE>,asset-class_counts" ++ endl
        ++ "STRING,INT" ++ endl
        ++ "asset-class,count" ++ endl
        ++ (if valid_bond_cnt loc =? 0 then ""
            else "bond," ++ show_int (valid_bond_cnt loc) ++ endl)
        ++ (if valid_stock_cnt loc =? 0 then ""
            else "stock," ++ show_int (valid_stock_cnt loc) ++ endl)).
Proof.
  unfold result_table.
  destruct (valid_bond_cnt loc =? 0); destruct (valid_stock_cnt loc =? 0);
    cbn -[show_int]; rewrite ?append_nil_r; reflexivity.
Qed.

(** X22. What a run of the program writes. Called with one argument,
    for a file whose text loads, [main] writes the line counting the
    lines, the line [Result:], the three header lines of the result
    table, the line of [bond] and the line of [stock], each when its
    counter is not 0, and an empty line; it never ends at the assertion
    on the table or in the final print. When the text does not load it
    ends at the failure of the load, and with any other number of
    arguments at the usage error. *)
Theorem main_output (garbage : int) (argv : list string) (str : string) :
  main garbage argv str
  = match argv with
    | [_; tableFile] =>
        match loadTablesFromCSV garbage new_engine (csvLines str) with
        | Abort f _ => Failed f
        | Done e _ =>
            let loc := fst (exe_loop e) in
            Printed
              ("Input table file " ++ tableFile ++ " has "
               ++ show_int (Z.of_nat (List.length (csvLines str)))
               ++ " lines" ++ endl
               ++ "Result:" ++ endl
               ++ ("<TABLE>,asset-class_counts" ++ endl
                   ++ "STRING,INT" ++ endl
                   ++ "asset-class,count" ++ endl
                   ++ (if valid_bond_cnt loc =? 0 then ""
                       else "bond," ++ show_int (valid_bond_cnt loc) ++ endl)
                   ++ (if valid_stock_cnt loc =? 0 then ""
                       else "stock," ++ show_int (valid_stock_cnt loc) ++ endl))
               ++ endl)
        end
    | _ => Usage
    end.
Proof.
  unfold main, csvLines.
  destruct argv as [| prog [| tableFile [| extra argv]]]; try reflexivity.
  rewrite length_map.
  destruct (loadTablesFromCSV garbage new_engine _) as [e flag | f e]; [| reflexivity].
  rewrite run_queries_run. cbn [fst]. rewrite print_result_table.
  cbv zeta. rewrite !append_assoc. reflexivity.
Qed.

End DriverExtras.

(** ** More on the loader and the query *)

Section MoreExtras.
Import StdMap StdMapFacts.
Context `{Platform}.

Lemma skip_space_spaces (ws s : string) :
  (forall ch, occurs ch ws = true -> isspace ch = true) ->
  skip_space (ws ++ s) = skip_space s.
Proof.
  induction ws as [| a ws IH]; intros Hws; [reflexivity |].
  cbn [append skip_space]. rewrite (Hws a) by (cbn; now rewrite Ascii.eqb_refl).
  apply IH. intros ch Hch. apply Hws. cbn. now rewrite Hch, orb_true_r.
Qed.

Lemma read_numeral_then n s rest :
  is_numeral n s ->
  (forall ch r, rest = String ch r -> digit_of ch = None) ->
  read_digits (s ++ rest) 0 false = Some n.
Proof.
  intros (_ & _ & Hread) Hrest. rewrite Hread, Z.mul_0_l, Z.add_0_l.
  destruct rest as [| ch r]; [reflexivity |].
  cbn. now rewrite (Hrest ch r eq_refl).
Qed.

Lemma stoi_numeral_then n s rest :
  is_numeral n s ->
  (forall ch r, rest = String ch r -> digit_of ch = None) ->
  stoi (s ++ rest) = (if in_int_range n then inr n else inl out_of_range)
  /\ stoi (String "-" s ++ rest)
     = (if in_int_range (- n) then inr (- n) else inl out_of_range).
Proof.
  intros Hnum Hrest. pose proof (read_numeral_then n s rest Hnum Hrest) as Hread.
  destruct Hnum as ((ch & d & s' & -> & Hch) & _ & _).
  pose proof (digit_not_space ch d Hch) as Hsp.
  assert (Hminus : Ascii.eqb "-" ch = false) by now apply (digit_differs ch d).
  assert (Hplus : Ascii.eqb "+" ch = false) by now apply (digit_differs ch d).
  split.
  - unfold stoi. cbn [append skip_space]. rewrite Hsp.
    assert (Hsign : (match String ch (s' ++ rest) with
                     | String "-" r => (true, r)
                     | String "+" r => (false, r)
                     | _ => (false, String ch (s' ++ rest))
                     end) = (false, String ch (s' ++ rest))).
    { apply Ascii.eqb_neq in Hminus, Hplus.
      destruct ch as [[] [] [] [] [] [] [] []]; try reflexivity; congruence. }
    rewrite Hsign. cbn [append] in Hread. rewrite Hread. reflexivity.
  - unfold stoi. cbn [append skip_space]. change (isspace "-") with false.
    cbv iota. cbn [append] in Hread. rewrite Hread. reflexivity.
Qed.

(** X23. An [INT] column reads a number off the front of its field:
    the text written for an [int], with white space in front and
    anything that does not start with a digit behind, is read as that
    [int]. *)
Theorem int_field_reads_prefix (z : int) (ws rest : string) :
  in_int_range z = true ->
  (forall ch, occurs ch ws = true -> isspace ch = true) ->
  (forall ch r, rest = String ch r -> digit_of ch = None) ->
  parse_record [FIELD_TYPE_INT] [ws ++ show_int z ++ rest] = Ok [IntField z].
Proof.
  intros Hz Hws Hrest. cbn [parse_record].
  assert (Hstoi : stoi (ws ++ show_int z ++ rest) = inr z).
  { unfold stoi at 1. rewrite (skip_space_spaces ws _ Hws).
    fold (stoi (show_int z ++ rest)).
    unfold show_int. destruct (Z.ltb_spec z 0) as [Hneg | Hpos].
    - destruct (stoi_numeral_then (- z) _ rest
                  (show_nonnegative_numeral (- z) ltac:(lia)) Hrest) as [_ Hs].
      rewrite Hs, Z.opp_involutive, Hz. reflexivity.
    - destruct (stoi_numeral_then z _ rest (show_nonnegative_numeral z Hpos) Hrest)
        as [Hs _].
      now rewrite Hs, Hz. }
  rewrite Hstoi. reflexivity.
Qed.

(** X24. A table with a name other than the four indexed ones leaves
    [cur_table_flag] as it was: after its header is loaded the flag is
    the one the lines in front left, so that the rows of this table go
    through the same case of the [switch] as the rows of the table in
    front; the header itself changes nothing in the index. *)
Theorem other_table_keeps_flag
    (garbage : int) (e0 : ReferenceQueryEngine) (pre : list (list string))
    (e : ReferenceQueryEngine) (flag : int)
    (cur_table : string) (l columnNames_ columnTypeNames : list string)
    (e1 : ReferenceQueryEngine) (flag1 : int) :
  load_loop pre garbage e0 = Done e flag ->
  cur_table <> "tradable" -> cur_table <> "price-over-time" ->
  cur_table <> "volume-over-time" -> cur_table <> "trades" ->
  load_loop (pre ++ [("<TABLE>" :: cur_table :: l); columnNames_; columnTypeNames])
    garbage e0
  = Done e1 flag1 ->
  flag1 = flag
  /\ name_to_class e1 = name_to_class e
  /\ name_to_date_price e1 = name_to_date_price e
  /\ name_to_date_volume e1 = name_to_date_volume e
  /\ name_to_trades e1 = name_to_trades e
  /\ back (tables e1)
     = option_map (new_DenseTable cur_table columnNames_)
         (parse_column_types columnTypeNames).
Proof.
  intros Hpre H1 H2 H3 H4 Hload.
  rewrite (load_loop_app pre _ _ _ _ _ Hpre) in Hload.
  cbn [load_loop] in Hload. change (string_eqb "<TABLE>" "<TABLE>") with true in Hload.
  cbv iota in Hload.
  destruct (load_header e flag ("<TABLE>" :: cur_table :: l) columnNames_ columnTypeNames)
    as [[e2 flag2] | f] eqn:Hh; [| discriminate].
  injection Hload as -> ->.
  destruct (load_header_maps _ _ _ _ _ _ _ Hh) as (Hc & Hp & Hv & Ht).
  destruct (load_header_tables _ _ _ _ _ _ _ Hh)
    as (n & tps & Hn & Htps & _ & _ & Htab & _ & Hflag).
  cbn in Hn. injection Hn as <-.
  repeat split; try assumption.
  - rewrite Hflag. unfold table_flag.
    apply string_eqb_neq in H1, H2, H3, H4. now rewrite H1, H2, H3, H4.
  - rewrite Htab, Htps. cbn [option_map]. unfold back.
    rewrite map_app. cbn [map]. apply last_last.
Qed.

End MoreExtras.

Section MoreQueryExtras.
Import StdMap StdMapFacts.

(** X25. [exe] reads the four index maps and nothing else: on two
    engines with the same class map, series and trade lists, whatever
    their tables and table headers, it returns the same table. *)
Theorem exe_reads_index_only (e e' : ReferenceQueryEngine) :
  name_to_class e' = name_to_class e ->
  name_to_date_price e' = name_to_date_price e ->
  name_to_date_volume e' = name_to_date_volume e ->
  name_to_trades e' = name_to_trades e ->
  fst (exe e') = fst (exe e).
Proof.
  intros Hc Hp Hv Ht. rewrite !exe_run, !exe_loop_run. cbn [fst]. rewrite Hc.
  f_equal. apply fold_left_pointwise. intros loc [name_ asset_class].
  rewrite !exe_body_run. cbn [fst]. now rewrite Hp, Hv, Ht.
Qed.

(** X26. Each class has its own counter: the iteration for a stock
    never changes the bond counter, and the iteration for an instrument
    of any other class never changes the stock counter. *)
Theorem counters_by_class
    (e : ReferenceQueryEngine) (name_ asset_class : string) (loc : Locals) :
  (asset_class = "stock" ->
   valid_bond_cnt (fst (exe_body (name_, asset_class) loc e)) = valid_bond_cnt loc)
  /\ (asset_class <> "stock" ->
      valid_stock_cnt (fst (exe_body (name_, asset_class) loc e))
      = valid_stock_cnt loc).
Proof.
  rewrite exe_body_run. cbn [fst]. unfold count_trades. split.
  - intros ->. cbn.
    repeat match goal with
           | |- context [if ?b then _ else _] => destruct b
           | |- context [match ?o with Some _ => _ | None => _ end] => destruct o
           end; reflexivity.
  - intros Hs. apply string_eqb_neq in Hs. rewrite Hs.
    repeat match goal with
           | |- context [if ?b then _ else _] => destruct b
           | |- context [match ?o with Some _ => _ | None => _ end] => destruct o
           end; reflexivity.
Qed.

End MoreQueryExtras.

(** ** The further properties at concrete inputs *)

Section ExtraWitnesses.
Import StdMap StdMapFacts.

Ltac day_cases Hf :=
  repeat match type of Hf with
         | find ?d ((?k, _) :: _) = Some _ =>
             destruct (Z.eq_dec d k) as [-> | ?];
             [ rewrite find_head in Hf; injection Hf as <-
             | rewrite find_tail in Hf by assumption ]
         | find _ [] = Some _ => discriminate Hf
         end.

Lemma load_in_two_parts_witness :
  @load_loop decimal_platform
    (trades_lines ++ [["2"; "14"; "AAA"; "6"]])%list 0 new_engine
  = @load_loop decimal_platform [["2"; "14"; "AAA"; "6"]] 3
      (loaded (@load_loop decimal_platform trades_lines 0 new_engine))
  /\ @load_loop decimal_platform ([["1"; "2"]] ++ trades_lines)%list 0 new_engine
     = Abort NoActiveTable new_engine.
Proof.
  split.
  - exact (@load_in_two_parts decimal_platform trades_lines
             [["2"; "14"; "AAA"; "6"]] 0 new_engine).
  - apply (@load_in_two_parts decimal_platform [["1"; "2"]] trades_lines 0 new_engine).
    discriminate.
Defined.

Lemma load_extends_index_witness :
  exists more,
    find "AAA"
      (name_to_trades
         (loaded (@load_loop decimal_platform [["2"; "14"; "AAA"; "6"]] 3
                    (loaded (@load_loop decimal_platform trades_lines 0 new_engine)))))
    = Some ([(1, 13, 5)] ++ more)%list.
Proof.
  destruct (@load_extends_index decimal_platform [["2"; "14"; "AAA"; "6"]] 3
              (loaded (@load_loop decimal_platform trades_lines 0 new_engine)))
    as (_ & _ & _ & Htrades).
  - exact (@loaded_engine_ordered decimal_platform 0 trades_lines _ 3 eq_refl).
  - apply Htrades. reflexivity.
Defined.

Lemma trade_row_is_appended_witness :
  exists later,
    find "AAA"
      (name_to_trades
         (loaded (@loadTablesFromCSV decimal_platform 0 new_engine
                    (trades_lines
                     ++ ["2"; "14"; "AAA"; "6"] :: [["3"; "15"; "AAA"; "7"]]))))
    = Some ([(1, 13, 5)] ++ (2, 14, 6) :: later)%list.
Proof.
  apply (@trade_row_is_appended decimal_platform 0 trades_lines
           ["2"; "14"; "AAA"; "6"] [["3"; "15"; "AAA"; "7"]]
           (loaded (@load_loop decimal_platform trades_lines 0 new_engine))
           (addRecord
              (new_DenseTable "trades" ["id"; "day"; "name"; "quantity"]
                 [FIELD_TYPE_INT; FIELD_TYPE_INT; FIELD_TYPE_STRING; FIELD_TYPE_INT])
              [IntField 1; IntField 13; StringField "AAA"; IntField 5])
           2 14 6 "AAA" [] _ 3);
    reflexivity.
Defined.

Lemma first_class_stays_witness :
  find "AAA"
    (name_to_class
       (loaded (@loadTablesFromCSV decimal_platform 0 new_engine
                  (tradable_header ++ ["AAA"; "stock"] :: [["AAA"; "bond"]]))))
  = Some "stock".
Proof.
  apply (@first_class_stays decimal_platform 0 tradable_header
           ["AAA"; "stock"] [["AAA"; "bond"]]
           (loaded (@load_loop decimal_platform tradable_header 0 new_engine))
           (new_DenseTable "tradable" ["name"; "class"]
              [FIELD_TYPE_STRING; FIELD_TYPE_STRING])
           "AAA" "stock" [] _ 0);
    first [reflexivity | discriminate].
Defined.

Lemma load_starts_with_header_witness :
  @loadTablesFromCSV decimal_platform 0 new_engine [["1"; "13"; "AAA"; "5"]]
  = Abort NoActiveTable new_engine.
Proof.
  destruct (@load_starts_with_header decimal_platform 0 [["1"; "13"; "AAA"; "5"]])
    as (_ & _ & Hrow).
  apply (Hrow "1" ["13"; "AAA"; "5"] []); reflexivity.
Defined.

Lemma validity_scans_exact_witness :
  price_loop
    (lower_bound 13 [(12, S754_finite false 9830400 (-15)); (13, float_299)]) true
  <> false.
Proof.
  destruct (validity_scans_exact
              [(12, S754_finite false 9830400 (-15)); (13, float_299)] [])
    as [Hprice _]; [repeat constructor | constructor |].
  intros Hfalse. destruct (proj1 Hprice Hfalse) as (d & p & Hd & Hf & Hp).
  day_cases Hf; [lia | discriminate].
Defined.

Lemma failing_instrument_not_counted_witness :
  fst (exe_body ("AAA", "stock") exe_init (loaded (load_text 0 failing_both_text)))
  = set_valid_flag false exe_init.
Proof.
  apply (failing_instrument_not_counted
           (loaded (load_text 0 failing_both_text)) "AAA" "stock" exe_init [(1, 13, 5)]).
  - left. reflexivity.
  - reflexivity.
  - right. exists [(13, S754_finite false 9830400 (-15))].
    split; [reflexivity |]. split; [repeat constructor |].
    exists 13, (S754_finite false 9830400 (-15)). split; [lia |]. split; reflexivity.
  - right. exists [(13, S754_finite false 9437184 (-20))].
    split; [reflexivity |]. split; [repeat constructor |].
    exists 13, (S754_finite false 9437184 (-20)). split; [lia |]. split; reflexivity.
Defined.

Lemma nothing_queried_no_rows_witness :
  records (fst (exe (loaded (load_text 0 fund_text)))) = [].
Proof.
  rewrite (nothing_queried_no_rows (loaded (load_text 0 fund_text))).
  - reflexivity.
  - change (name_to_class (loaded (load_text 0 fund_text))) with [("DDD", "fund")].
    constructor; [| constructor]. left. split; discriminate.
Defined.

Lemma add_size_exact_witness : add_size 2147483640 7 = 2147483647.
Proof. apply (add_size_exact 2147483640 7); unfold INT_MAX; cbn; lia. Defined.

Lemma int_field_reads_prefix_witness :
  @parse_record decimal_platform [FIELD_TYPE_INT] [" " ++ show_int 12 ++ "abc"]
  = Ok [IntField 12].
Proof.
  apply (@int_field_reads_prefix decimal_platform 12 " " "abc").
  - reflexivity.
  - intros ch Hch. cbn in Hch. rewrite orb_false_r in Hch.
    apply Ascii.eqb_eq in Hch. subst ch. reflexivity.
  - intros ch r [= <- _]. reflexivity.
Defined.

Lemma other_table_keeps_flag_witness :
  name_to_trades
    (loaded (@load_loop decimal_platform
               (trades_lines
                ++ [["<TABLE>"; "other"]; ["a"; "b"; "c"; "d"];
                    ["INT"; "INT"; "STRING"; "INT"]]) 0 new_engine))
  = name_to_trades (loaded (@load_loop decimal_platform trades_lines 0 new_engine)).
Proof.
  destruct (@other_table_keeps_flag decimal_platform 0 new_engine trades_lines
              (loaded (@load_loop decimal_platform trades_lines 0 new_engine)) 3
              "other" [] ["a"; "b"; "c"; "d"] ["INT"; "INT"; "STRING"; "INT"]
              (loaded (@load_loop decimal_platform
                         (trades_lines
                          ++ [["<TABLE>"; "other"]; ["a"; "b"; "c"; "d"];
                              ["INT"; "INT"; "STRING"; "INT"]]) 0 new_engine))
              3)
    as (_ & _ & _ & _ & Htrades & _);
    first [reflexivity | discriminate | exact Htrades].
Defined.

Lemma exe_reads_index_only_witness :
  fst (exe (set_tables (fun _ => []) two_stocks_engine))
  = fst (exe two_stocks_engine).
Proof.
  apply (exe_reads_index_only two_stocks_engine
           (set_tables (fun _ => []) two_stocks_engine));
    reflexivity.
Defined.

Lemma counters_by_class_witness :
  valid_bond_cnt
    (fst (exe_body ("AAA", "stock") exe_init (loaded (load_text 0 two_stocks_text))))
  = valid_bond_cnt exe_init.
Proof.
  apply (counters_by_class (loaded (load_text 0 two_stocks_text)) "AAA" "stock" exe_init).
  reflexivity.
Defined.

End ExtraWitnesses.
